(** * Verification of the agent loop of copilot-agent-participant-js

    The development embeds, as Rocq functions, the action protocol codec
    ([src/agent/actionProtocol.js]), the history adapter
    ([src/agent/historyAdapter.js]), the tool registry
    ([src/tools/toolRegistry.js]) and the request handler with its agent loop
    ([src/agent/agentModeRunner.js]), together with the JavaScript built-ins
    they call ([String.prototype.trim], [JSON.stringify], [JSON.parse],
    regular expressions), and proves properties of them.

    Conventions of the model:
    - a JavaScript string is a [string]: a sequence of code units, here the
      code units below 256 (the Latin-1 range);
    - a JavaScript number is an exact decimal [mant * 10 ^ expo]; the rounding
      of IEEE doubles is outside the model;
    - an object is the list of its own properties in enumeration order. *)

From Stdlib Require Import Bool Ascii String List ZArith NArith Lia.
From Stdlib Require Import DecimalString DecimalN DecimalFacts.
Import ListNotations.

Set Warnings "-register-all".

Local Open Scope list_scope.
Local Open Scope string_scope.

(* ================================================================== *)
(** * JavaScript built-ins *)
(* ================================================================== *)

Module Js.

(** ** Strings *)

Definition code (c : ascii) : N := N_of_ascii c.

(** The double quote character and a reader for literals: the literals of this
    file write a single quote where the JavaScript text has a double quote. *)
Definition dquote : ascii := "034"%char.
Definition squote : ascii := "039"%char.

Fixpoint q (s : string) : string :=
  match s with
  | EmptyString => EmptyString
  | String c r => String (if Ascii.eqb c squote then dquote else c) (q r)
  end.

Definition newline : string := String "010"%char EmptyString.

(** WhiteSpace and LineTerminator code units, as [trim] and the regular
    expression class [\s] read them. *)
Definition isWhiteSpace (c : ascii) : bool :=
  let n := code c in
  ((9 <=? n) && (n <=? 13) || (n =? 32) || (n =? 160))%N.

Fixpoint trimStart (s : string) : string :=
  match s with
  | EmptyString => EmptyString
  | String c r => if isWhiteSpace c then trimStart r else s
  end.

Fixpoint trimEnd (s : string) : string :=
  match s with
  | EmptyString => EmptyString
  | String c r =>
      match trimEnd r with
      | EmptyString => if isWhiteSpace c then EmptyString else String c EmptyString
      | r' => String c r'
      end
  end.

Definition trim (s : string) : string := trimEnd (trimStart s).

Definition lowerChar (c : ascii) : ascii :=
  let n := code c in
  if ((65 <=? n) && (n <=? 90) || (192 <=? n) && (n <=? 222) && negb (n =? 215))%N
  then ascii_of_N (n + 32) else c.

Fixpoint toLowerCase (s : string) : string :=
  match s with
  | EmptyString => EmptyString
  | String c r => String (lowerChar c) (toLowerCase r)
  end.

Definition isEmpty (s : string) : bool :=
  match s with EmptyString => true | _ => false end.

Fixpoint startsWith (p s : string) : bool :=
  match p, s with
  | EmptyString, _ => true
  | String a p', String b s' => Ascii.eqb a b && startsWith p' s'
  | String _ _, EmptyString => false
  end.

Fixpoint rev_string (s acc : string) : string :=
  match s with
  | EmptyString => acc
  | String c r => rev_string r (String c acc)
  end.

Definition endsWith (p s : string) : bool :=
  startsWith (rev_string p EmptyString) (rev_string s EmptyString).

Fixpoint includes (p s : string) : bool :=
  startsWith p s ||
  match s with
  | EmptyString => false
  | String _ r => includes p r
  end.

(** [Array.prototype.join] on an array of strings. *)
Fixpoint join (sep : string) (l : list string) : string :=
  match l with
  | [] => EmptyString
  | [x] => x
  | x :: r => x ++ sep ++ join sep r
  end.

(** [Array.prototype.filter(Boolean)] on an array of strings. *)
Definition filterNonEmpty (l : list string) : list string :=
  filter (fun s => negb (isEmpty s)) l.

(** ** Numbers *)

(** [Num m e] denotes [m * 10 ^ e].  Canonical form: [e <= 0], and the
    mantissa of a fraction ([e < 0]) is not a multiple of ten. *)
Record number := Num { mant : Z; expo : Z }.

Definition number_eqb (a b : number) : bool :=
  (mant a =? mant b)%Z && (expo a =? expo b)%Z.

Definition digits (n : N) : string := NilZero.string_of_uint (N.to_uint n).

Fixpoint zeros (n : nat) : string :=
  match n with
  | O => EmptyString
  | S k => String "0" (zeros k)
  end.

(** Number of trailing zeros of a digit string, and the string without them. *)
Fixpoint stripTrailingZeros (s : string) : string :=
  match s with
  | EmptyString => EmptyString
  | String c r =>
      match stripTrailingZeros r with
      | EmptyString => if Ascii.eqb c "0" then EmptyString else String c EmptyString
      | r' => String c r'
      end
  end.

Definition exponentPart (e : Z) : string :=
  String "e" ((if (e <? 0)%Z then "-" else "+") ++ digits (Z.abs_N e)).

(** [Number::toString] for the positive number with significant digits [s]
    (no trailing zero, [k] of them) and value [0.s * 10 ^ n]. *)
Definition positiveToString (s : string) (n : Z) : string :=
  let k := Z.of_nat (String.length s) in
  if ((k <=? n) && (n <=? 21))%Z then
    s ++ zeros (Z.to_nat (n - k))
  else if ((0 <? n) && (n <=? 21))%Z then
    substring 0 (Z.to_nat n) s ++ "." ++ substring (Z.to_nat n) (Z.to_nat (k - n)) s
  else if ((-6 <? n) && (n <=? 0))%Z then
    "0." ++ zeros (Z.to_nat (- n)) ++ s
  else
    match s with
    | String d EmptyString => String d (exponentPart (n - 1))
    | String d r => String d ("." ++ r ++ exponentPart (n - 1))
    | EmptyString => EmptyString
    end.

Definition numberToString (x : number) : string :=
  let m := mant x in
  if (m =? 0)%Z then "0"
  else
    let all := digits (Z.abs_N m) in
    let s := stripTrailingZeros all in
    let n := (Z.of_nat (String.length all) + expo x)%Z in
    (if (m <? 0)%Z then "-" else "") ++ positiveToString s n.

(** ** Values *)

Inductive value : Type :=
| JUndefined
| JNull
| JBool (b : bool)
| JNum (n : number)
| JStr (s : string)
| JArr (items : list value)
| JObj (props : list (string * value)).

Definition JInt (n : Z) : value := JNum (Num n 0).

(** ToBoolean. *)
Definition truthy (v : value) : bool :=
  match v with
  | JUndefined | JNull => false
  | JBool b => b
  | JNum n => negb (mant n =? 0)%Z
  | JStr s => negb (isEmpty s)
  | JArr _ | JObj _ => true
  end.

(** [typeof v === 'object'] (which holds of [null] too) and
    [typeof v === 'string']. *)
Definition typeofObject (v : value) : bool :=
  match v with
  | JNull | JArr _ | JObj _ => true
  | _ => false
  end.

Definition typeofString (v : value) : bool :=
  match v with
  | JStr _ => true
  | _ => false
  end.

Definition isArray (v : value) : bool :=
  match v with
  | JArr _ => true
  | _ => false
  end.

(** An array index: the canonical numeric string of an integer below
    [2^32 - 1]. *)
Definition isDigit (c : ascii) : bool := ((48 <=? code c) && (code c <=? 57))%N.

Definition allDigits (s : string) : bool :=
  negb (isEmpty s) && forallb isDigit (list_ascii_of_string s).

Definition arrayIndex (k : string) : option N :=
  if allDigits k then
    match NilZero.uint_of_string k with
    | Some d =>
        let n := N.of_uint d in
        if String.eqb (digits n) k && (n <? 4294967295)%N then Some n else None
    | None => None
    end
  else None.

Fixpoint lookup (k : string) (ps : list (string * value)) : option value :=
  match ps with
  | [] => None
  | (k', v) :: r => if String.eqb k k' then Some v else lookup k r
  end.

Definition charAt (s : string) (i : nat) : value :=
  match String.get i s with
  | Some c => JStr (String c EmptyString)
  | None => JUndefined
  end.

(** Property read [v.k] (own properties; none of the keys the sources read
    is inherited).  Every read in the sources is guarded by a truthiness
    test, so the receiver is never [undefined] or [null]. *)
Definition get (v : value) (k : string) : value :=
  match v with
  | JObj ps => match lookup k ps with Some x => x | None => JUndefined end
  | JArr l =>
      if String.eqb k "length" then JInt (Z.of_nat (List.length l))
      else match arrayIndex k with
           | Some i => nth (N.to_nat i) l JUndefined
           | None => JUndefined
           end
  | JStr s =>
      if String.eqb k "length" then JInt (Z.of_nat (String.length s))
      else match arrayIndex k with
           | Some i => charAt s (N.to_nat i)
           | None => JUndefined
           end
  | _ => JUndefined
  end.

(** Property write [o.k = v] on an ordinary object: an existing key keeps its
    place, a new array-index key goes among the index keys in ascending order,
    any other new key goes last. *)
Fixpoint replaceProp (k : string) (v : value) (ps : list (string * value))
  : list (string * value) :=
  match ps with
  | [] => []
  | (k', v') :: r =>
      if String.eqb k k' then (k', v) :: r else (k', v') :: replaceProp k v r
  end.

Fixpoint insertIndex (i : N) (k : string) (v : value) (ps : list (string * value))
  : list (string * value) :=
  match ps with
  | [] => [(k, v)]
  | (k', v') :: r =>
      match arrayIndex k' with
      | Some j => if (j <? i)%N then (k', v') :: insertIndex i k v r
                  else (k, v) :: ps
      | None => (k, v) :: ps
      end
  end.

Definition setProp (k : string) (v : value) (ps : list (string * value))
  : list (string * value) :=
  match lookup k ps with
  | Some _ => replaceProp k v ps
  | None =>
      match arrayIndex k with
      | Some i => insertIndex i k v ps
      | None => (ps ++ [(k, v)])%list
      end
  end.

(** An object literal [{k1: v1, ..., kn: vn}]. *)
Definition object (ps : list (string * value)) : value :=
  JObj (fold_left (fun acc kv => setProp (fst kv) (snd kv) acc) ps []).

(** ToString, as [String(v)] and template literals apply it. *)
Fixpoint toString (v : value) : string :=
  match v with
  | JUndefined => "undefined"
  | JNull => "null"
  | JBool true => "true"
  | JBool false => "false"
  | JNum n => numberToString n
  | JStr s => s
  | JArr l =>
      join "," (map (fun x => match x with
                              | JUndefined | JNull => EmptyString
                              | _ => toString x
                              end) l)
  | JObj _ => "[object Object]"
  end.

(** ** JSON.stringify *)

Definition hexDigit (n : N) : ascii :=
  if (n <? 10)%N then ascii_of_N (48 + n) else ascii_of_N (87 + n).

Definition backslash : ascii := "\"%char.

(** QuoteJSONString, one code unit at a time. *)
Definition quoteChar (c : ascii) : string :=
  let n := code c in
  if (n =? 8)%N then "\b"
  else if (n =? 9)%N then "\t"
  else if (n =? 10)%N then "\n"
  else if (n =? 12)%N then "\f"
  else if (n =? 13)%N then "\r"
  else if (n =? 34)%N then String backslash (String dquote EmptyString)
  else if (n =? 92)%N then "\\"
  else if (n <? 32)%N then
    "\u00" ++ String (hexDigit (n / 16)) (String (hexDigit (n mod 16)) EmptyString)
  else String c EmptyString.

Fixpoint quoteChars (s : string) : string :=
  match s with
  | EmptyString => EmptyString
  | String c r => quoteChar c ++ quoteChars r
  end.

Definition quote (s : string) : string :=
  String dquote (quoteChars s ++ String dquote EmptyString).

(** SerializeJSONProperty without indentation: [None] is [undefined]. *)
Fixpoint serialize (v : value) : option string :=
  match v with
  | JUndefined => None
  | JNull => Some "null"
  | JBool true => Some "true"
  | JBool false => Some "false"
  | JNum n => Some (numberToString n)
  | JStr s => Some (quote s)
  | JArr l =>
      Some ("[" ++ join "," (map (fun x => match serialize x with
                                           | Some t => t
                                           | None => "null"
                                           end) l) ++ "]")
  | JObj ps =>
      Some ("{" ++ join "," (flat_map (fun kv => match serialize (snd kv) with
                                                 | Some t => [quote (fst kv) ++ ":" ++ t]
                                                 | None => []
                                                 end) ps) ++ "}")
  end.

Definition stringify (v : value) : value :=
  match serialize v with
  | Some t => JStr t
  | None => JUndefined
  end.

(** ** JSON.parse *)

Definition isJsonWhiteSpace (c : ascii) : bool :=
  let n := code c in ((n =? 32) || (n =? 9) || (n =? 10) || (n =? 13))%N.

Fixpoint skipWhiteSpace (s : string) : string :=
  match s with
  | EmptyString => EmptyString
  | String c r => if isJsonWhiteSpace c then skipWhiteSpace r else s
  end.

Definition hexValue (c : ascii) : option N :=
  let n := code c in
  if ((48 <=? n) && (n <=? 57))%N then Some (n - 48)%N
  else if ((97 <=? n) && (n <=? 102))%N then Some (n - 87)%N
  else if ((65 <=? n) && (n <=? 70))%N then Some (n - 55)%N
  else None.

Definition hex4 (a b c d : ascii) : option N :=
  match hexValue a, hexValue b, hexValue c, hexValue d with
  | Some x, Some y, Some z, Some w => Some (x * 4096 + y * 256 + z * 16 + w)%N
  | _, _, _, _ => None
  end.

Definition unescape (c : ascii) : option ascii :=
  let n := code c in
  if (n =? 34)%N then Some dquote
  else if (n =? 92)%N then Some backslash
  else if (n =? 47)%N then Some "/"%char
  else if (n =? 98)%N then Some "008"%char
  else if (n =? 102)%N then Some "012"%char
  else if (n =? 110)%N then Some "010"%char
  else if (n =? 114)%N then Some "013"%char
  else if (n =? 116)%N then Some "009"%char
  else None.

Definition consChar (c : ascii) (r : option (string * string)) : option (string * string) :=
  match r with
  | Some (s, rest) => Some (String c s, rest)
  | None => None
  end.

(** The characters of a string literal, after its opening quote: the string
    and the text after the closing quote.  An escape [\uXXXX] that denotes a
    code unit above 255 is outside the model and is refused. *)
Fixpoint parseChars (s : string) : option (string * string) :=
  match s with
  | EmptyString => None
  | String c r =>
      if (code c =? 34)%N then Some (EmptyString, r)
      else if (code c =? 92)%N then
        match r with
        | String e r1 =>
            if (code e =? 117)%N then
              match r1 with
              | String h1 (String h2 (String h3 (String h4 r2))) =>
                  match hex4 h1 h2 h3 h4 with
                  | Some n => if (n <? 256)%N then consChar (ascii_of_N n) (parseChars r2)
                              else None
                  | None => None
                  end
              | _ => None
              end
            else
              match unescape e with
              | Some c' => consChar c' (parseChars r1)
              | None => None
              end
        | EmptyString => None
        end
      else if (code c <? 32)%N then None
      else consChar c (parseChars r)
  end.

Fixpoint spanDigits (s : string) : string * string :=
  match s with
  | EmptyString => (EmptyString, EmptyString)
  | String c r =>
      if isDigit c then let (d, rest) := spanDigits r in (String c d, rest)
      else (EmptyString, s)
  end.

Definition natural (ds : string) : N :=
  match NilEmpty.uint_of_string ds with
  | Some d => N.of_uint d
  | None => 0%N
  end.

(** Removes factors of ten from the mantissa of a fraction. *)
Fixpoint canonical (fuel : nat) (m : N) (e : Z) : N * Z :=
  match fuel with
  | O => (m, e)
  | S f => if ((e <? 0)%Z && (m mod 10 =? 0)%N)%bool
           then canonical f (m / 10)%N (e + 1)%Z else (m, e)
  end.

Definition makeNumber (negative : bool) (m : N) (e : Z) : number :=
  let sign := if negative then (-1)%Z else 1%Z in
  if (m =? 0)%N then Num 0 0
  else if (0 <=? e)%Z then Num (sign * Z.of_N m * 10 ^ e) 0
  else let (m', e') := canonical (Z.to_nat (- e)) m e in Num (sign * Z.of_N m') e'.

(** [c r] when the text starts with the character [c], for the optional
    parts of the number grammar. *)
Definition startsWithChar (c : ascii) (s : string) : option string :=
  match s with
  | String c' r => if Ascii.eqb c' c then Some r else None
  | EmptyString => None
  end.

Definition parseFraction (s : string) : option (string * string) :=
  match startsWithChar "." s with
  | Some r =>
      let (fp, rest) := spanDigits r in
      if isEmpty fp then None else Some (fp, rest)
  | None => Some (EmptyString, s)
  end.

Definition parseExponent (s : string) : option (Z * string) :=
  match s with
  | String c r =>
      if Ascii.eqb c "e" || Ascii.eqb c "E" then
        let (negative, r1) :=
          match startsWithChar "-" r, startsWithChar "+" r with
          | Some r', _ => (true, r')
          | None, Some r' => (false, r')
          | None, None => (false, r)
          end in
        let (ep, rest) := spanDigits r1 in
        if isEmpty ep then None
        else Some ((if negative then - Z.of_N (natural ep) else Z.of_N (natural ep))%Z,
                   rest)
      else Some (0%Z, s)
  | EmptyString => Some (0%Z, s)
  end.

(** The JSON number grammar [-? int frac? exp?]. *)
Definition parseNumber (s : string) : option (number * string) :=
  let (negative, s1) := match startsWithChar "-" s with
                        | Some r => (true, r)
                        | None => (false, s)
                        end in
  let (ip, s2) := spanDigits s1 in
  if isEmpty ip then None
  else if startsWith "0" ip && negb (String.eqb ip "0") then None
  else
    match parseFraction s2 with
    | None => None
    | Some (fp, s3) =>
        match parseExponent s3 with
        | None => None
        | Some (x, s4) =>
            Some (makeNumber negative (natural (ip ++ fp))
                    (x - Z.of_nat (String.length fp))%Z, s4)
        end
    end.

Definition expect (c : ascii) (s : string) : option string := startsWithChar c s.

(** The text after the prefix [p], when the text starts with it. *)
Fixpoint stripPrefix (p s : string) : option string :=
  match p with
  | EmptyString => Some s
  | String a p' =>
      match s with
      | String b s' => if Ascii.eqb a b then stripPrefix p' s' else None
      | EmptyString => None
      end
  end.

(** The literals [true], [false] and [null], or else a number. *)
Definition parseLiteral (s : string) : option (value * string) :=
  match stripPrefix "true" s with
  | Some rest => Some (JBool true, rest)
  | None =>
      match stripPrefix "false" s with
      | Some rest => Some (JBool false, rest)
      | None =>
          match stripPrefix "null" s with
          | Some rest => Some (JNull, rest)
          | None =>
              match parseNumber s with
              | Some (n, rest) => Some (JNum n, rest)
              | None => None
              end
          end
      end
  end.

(** Recursive descent over the JSON grammar; each function returns the value
    read and the text after it.  The fuel bounds the depth of the calls: a
    call on a text of [n] characters never needs more than [2 * n + 1], which
    is what [parse] below supplies. *)
Fixpoint parseValue (fuel : nat) (s : string) : option (value * string) :=
  match fuel with
  | O => None
  | S f =>
      match skipWhiteSpace s with
      | EmptyString => None
      | String c r =>
          if Ascii.eqb c "{" then
            match expect "}" (skipWhiteSpace r) with
            | Some r' => Some (JObj [], r')
            | None => parseMembers f r []
            end
          else if Ascii.eqb c "[" then
            match expect "]" (skipWhiteSpace r) with
            | Some r' => Some (JArr [], r')
            | None => parseElements f r []
            end
          else if Ascii.eqb c dquote then
            match parseChars r with
            | Some (t, rest) => Some (JStr t, rest)
            | None => None
            end
          else parseLiteral (String c r)
      end
  end
with parseElements (fuel : nat) (s : string) (acc : list value)
  : option (value * string) :=
  match fuel with
  | O => None
  | S f =>
      match parseValue f s with
      | None => None
      | Some (v, rest) =>
          match skipWhiteSpace rest with
          | String c r =>
              if Ascii.eqb c "," then parseElements f r (acc ++ [v])%list
              else if Ascii.eqb c "]" then Some (JArr (acc ++ [v])%list, r)
              else None
          | EmptyString => None
          end
      end
  end
with parseMembers (fuel : nat) (s : string) (acc : list (string * value))
  : option (value * string) :=
  match fuel with
  | O => None
  | S f =>
      match expect dquote (skipWhiteSpace s) with
      | None => None
      | Some r0 =>
          match parseChars r0 with
          | None => None
          | Some (k, r1) =>
              match expect ":" (skipWhiteSpace r1) with
              | None => None
              | Some r2 =>
                  match parseValue f r2 with
                  | None => None
                  | Some (v, rest) =>
                      match skipWhiteSpace rest with
                      | String c r =>
                          if Ascii.eqb c "," then parseMembers f r (setProp k v acc)
                          else if Ascii.eqb c "}" then Some (JObj (setProp k v acc), r)
                          else None
                      | EmptyString => None
                      end
                  end
              end
          end
      end
  end.

(** [JSON.parse]: [None] stands for the SyntaxError. *)
Definition parse (s : string) : option value :=
  match parseValue (S (2 * String.length s)) s with
  | Some (v, rest) => if isEmpty (skipWhiteSpace rest) then Some v else None
  | None => None
  end.

End Js.

(* ================================================================== *)
(** * Regular expressions *)
(* ================================================================== *)

(** The backtracking matcher of ECMAScript for the constructs the sources
    use.  A position in the subject is the character before it (for [\b])
    and the text after it. *)
Module Regex.

Import Js.

Inductive regex : Type :=
| Eps
| Chr (p : ascii -> bool)
| Seq (a b : regex)
| Alt (a b : regex)
| Star (greedy : bool) (a : regex)
| WordBoundary
| EndOfInput
| Group (i : nat) (a : regex).

Definition captures := list (nat * string).

Definition isWordChar (c : ascii) : bool :=
  let n := code c in
  ((48 <=? n) && (n <=? 57) || (65 <=? n) && (n <=? 90)
   || (97 <=? n) && (n <=? 122) || (n =? 95))%N.

Definition wordBefore (prev : option ascii) : bool :=
  match prev with Some c => isWordChar c | None => false end.

Definition wordAfter (s : string) : bool :=
  match s with String c _ => isWordChar c | EmptyString => false end.

Definition orElse {A} (x : option A) (y : unit -> option A) : option A :=
  match x with Some r => Some r | None => y tt end.

Fixpoint run {A} (r : regex) (prev : option ascii) (s : string) (cs : captures)
  (k : option ascii -> string -> captures -> option A) {struct r} : option A :=
  match r with
  | Eps => k prev s cs
  | Chr p =>
      match s with
      | String c s' => if p c then k (Some c) s' cs else None
      | EmptyString => None
      end
  | Seq a b => run a prev s cs (fun prev' s' cs' => run b prev' s' cs' k)
  | Alt a b => orElse (run a prev s cs k) (fun _ => run b prev s cs k)
  | Star greedy a =>
      (fix iterate (n : nat) (prev : option ascii) (s : string) (cs : captures)
         {struct n} : option A :=
         match n with
         | O => k prev s cs
         | S n' =>
             let again (_ : unit) :=
               run a prev s cs
                 (fun prev' s' cs' =>
                    if (String.length s' <? String.length s)%nat
                    then iterate n' prev' s' cs' else None) in
             if greedy then orElse (again tt) (fun _ => k prev s cs)
             else orElse (k prev s cs) again
         end) (String.length s) prev s cs
  | WordBoundary =>
      if xorb (wordBefore prev) (wordAfter s) then k prev s cs else None
  | EndOfInput =>
      match s with
      | EmptyString => k prev s cs
      | String _ _ => None
      end
  | Group i a =>
      run a prev s cs
        (fun prev' s' cs' =>
           k prev' s' ((i, substring 0 (String.length s - String.length s') s) :: cs'))
  end.

(** A match: the text before it, the matched text, the text after it, the
    character before that text, and the groups. *)
Record found := Found {
  before : string;
  matched : string;
  after : string;
  lastChar : option ascii;
  groups : captures
}.

Definition matchAt (r : regex) (prev : option ascii) (s : string) : option found :=
  run r prev s []
    (fun prev' s' cs =>
       Some (Found EmptyString (substring 0 (String.length s - String.length s') s)
               s' prev' cs)).

(** The leftmost match at or after the current position. *)
Fixpoint search (r : regex) (prev : option ascii) (s : string) : option found :=
  match matchAt r prev s with
  | Some m => Some m
  | None =>
      match s with
      | EmptyString => None
      | String c s' =>
          match search r (Some c) s' with
          | Some m => Some (Found (String c (before m)) (matched m) (after m)
                              (lastChar m) (groups m))
          | None => None
          end
      end
  end.

(** [RegExp.prototype.test]. *)
Definition test (r : regex) (s : string) : bool :=
  match search r None s with Some _ => true | None => false end.

(** [String.prototype.match] with the [g] flag: every match, left to right;
    [None] when there is none. *)
Fixpoint matchAllFrom (fuel : nat) (r : regex) (prev : option ascii) (s : string)
  : list string :=
  match fuel with
  | O => []
  | S f =>
      match search r prev s with
      | None => []
      | Some m =>
          match matched m, after m with
          | EmptyString, EmptyString => [EmptyString]
          | EmptyString, String c rest =>
              EmptyString :: matchAllFrom f r (Some c) rest
          | _, rest => matched m :: matchAllFrom f r (lastChar m) rest
          end
      end
  end.

Definition matchAll (r : regex) (s : string) : option (list string) :=
  match matchAllFrom (S (String.length s)) r None s with
  | [] => None
  | l => Some l
  end.

(** [String.prototype.replace] with a string replacement free of [$]
    patterns: the first match only. *)
Definition replaceFirst (r : regex) (by_ : string) (s : string) : string :=
  match search r None s with
  | Some m => before m ++ by_ ++ after m
  | None => s
  end.

(** The same with the [g] flag: every match. *)
Fixpoint replaceAllFrom (fuel : nat) (r : regex) (by_ : string)
  (prev : option ascii) (s : string) : string :=
  match fuel with
  | O => s
  | S f =>
      match search r prev s with
      | None => s
      | Some m =>
          match matched m, after m with
          | EmptyString, EmptyString => before m ++ by_
          | EmptyString, String c rest =>
              before m ++ by_ ++ String c (replaceAllFrom f r by_ (Some c) rest)
          | _, rest => before m ++ by_ ++ replaceAllFrom f r by_ (lastChar m) rest
          end
      end
  end.

Definition replaceAll (r : regex) (by_ : string) (s : string) : string :=
  replaceAllFrom (S (String.length s)) r by_ None s.

(** The group [i] of a match, as [match[i]]. *)
Fixpoint group (i : nat) (cs : captures) : option string :=
  match cs with
  | [] => None
  | (j, t) :: r => if Nat.eqb i j then Some t else group i r
  end.

(** Building blocks. *)
Definition chr (c : ascii) : regex := Chr (Ascii.eqb c).
Definition chrI (c : ascii) : regex :=
  Chr (fun x => Ascii.eqb (lowerChar x) (lowerChar c)).
Definition anyChar : regex := Chr (fun _ => true).
Definition dot : regex := Chr (fun c => negb ((code c =? 10) || (code c =? 13))%N).
Definition space : regex := Chr isWhiteSpace.
Definition opt (a : regex) : regex := Alt a Eps.
Definition plus (a : regex) : regex := Seq a (Star true a).

Fixpoint lit (s : string) : regex :=
  match s with
  | EmptyString => Eps
  | String c r => Seq (chr c) (lit r)
  end.

Fixpoint litI (s : string) : regex :=
  match s with
  | EmptyString => Eps
  | String c r => Seq (chrI c) (litI r)
  end.

Fixpoint seq (l : list regex) : regex :=
  match l with
  | [] => Eps
  | [a] => a
  | a :: r => Seq a (seq r)
  end.

Fixpoint alt (l : list regex) : regex :=
  match l with
  | [] => Chr (fun _ => false)
  | [a] => a
  | a :: r => Alt a (alt r)
  end.

End Regex.

(* ================================================================== *)
(** * src/agent/actionProtocol.js *)
(* ================================================================== *)

Module ActionProtocol.

Import Js Regex.

(** The two action shapes [{type:'tool',tool,input}] and
    [{type:'final',content}]. *)
Inductive action : Type :=
| Tool (tool : string) (input : value)
| Final (content : string).

Definition emptyObject : value := JObj [].

(** [typeof v === 'string' ? v : ''] and variants of it. *)
Definition stringOr (v : value) (default : string) : string :=
  match v with
  | JStr s => s
  | _ => default
  end.

(** [a || b]. *)
Definition orValue (a b : value) : value := if truthy a then a else b.

Definition normalizeAction (value : value) : option action :=
  if negb (truthy value) || negb (typeofObject value) then None
  else
    let type := toLowerCase (trim (toString (orValue (get value "type") (JStr "")))) in
    if String.eqb type "final" then
      let content := stringOr (get value "content") "" in
      Some (Final content)
    else if String.eqb type "tool" then
      let tool := match get value "tool" with
                  | JStr t => trim t
                  | _ => ""
                  end in
      if isEmpty tool then None
      else
        let input := if truthy (get value "input") && typeofObject (get value "input")
                     then get value "input" else emptyObject in
        Some (Tool tool input)
    else None.

(** The scan of [extractFirstJsonObject]: [rest] is the text from [index]
    on, the other arguments are the four variables of the loop. *)
Fixpoint scanObject (text rest : string) (index : nat) (depth : Z)
  (inString escapeNext : bool) (startIndex : Z) : option string :=
  match rest with
  | EmptyString => None
  | String char rest' =>
      if escapeNext then
        scanObject text rest' (S index) depth inString false startIndex
      else if Ascii.eqb char backslash then
        scanObject text rest' (S index) depth inString true startIndex
      else if Ascii.eqb char dquote then
        scanObject text rest' (S index) depth (negb inString) escapeNext startIndex
      else if inString then
        scanObject text rest' (S index) depth inString escapeNext startIndex
      else if Ascii.eqb char "{" then
        let startIndex' := if (depth =? 0)%Z then Z.of_nat index else startIndex in
        scanObject text rest' (S index) (depth + 1)%Z inString escapeNext startIndex'
      else if Ascii.eqb char "}" then
        let depth' := (depth - 1)%Z in
        if (depth' =? 0)%Z && negb (startIndex =? -1)%Z then
          Some (substring (Z.to_nat startIndex) (S index - Z.to_nat startIndex) text)
        else
          scanObject text rest' (S index) depth' inString escapeNext startIndex
      else
        scanObject text rest' (S index) depth inString escapeNext startIndex
  end.

Definition extractFirstJsonObject (text : string) : option string :=
  scanObject text text 0 0%Z false false (-1)%Z.

(** [/```(?:json)?\s*([\s\S]*?)```/gi], [/```(?:json)?/i] and [/```$/]. *)
Definition fencedBlock : regex :=
  seq [lit "```"; opt (litI "json"); Star true space;
       Group 1 (Star false anyChar); lit "```"].

Definition fenceOpen : regex := seq [lit "```"; opt (litI "json")].

Definition fenceClose : regex := seq [lit "```"; EndOfInput].

Definition fencedInner (match_ : string) : string :=
  trim (replaceFirst fenceClose "" (replaceFirst fenceOpen "" match_)).

Definition collectJsonCandidates (rawText : string) : list string :=
  let text := trim rawText in
  if isEmpty text then []
  else
    let candidates := [] in
    let candidates :=
      if startsWith "{" text && endsWith "}" text
      then (candidates ++ [text])%list else candidates in
    let candidates :=
      match matchAll fencedBlock text with
      | Some fencedMatches =>
          fold_left (fun candidates match_ =>
                       let inner := fencedInner match_ in
                       if negb (isEmpty inner) then (candidates ++ [inner])%list
                       else candidates)
                    fencedMatches candidates
      | None => candidates
      end in
    match extractFirstJsonObject text with
    | Some firstObject =>
        if negb (isEmpty firstObject) then (candidates ++ [firstObject])%list
        else candidates
    | None => candidates
    end.

(** The loop of [parseAgentAction] over the candidates: a candidate that
    does not parse, or does not normalize, gives way to the next. *)
Fixpoint firstAction (jsonCandidates : list string) : option action :=
  match jsonCandidates with
  | [] => None
  | candidate :: rest =>
      match parse candidate with
      | Some parsed =>
          match normalizeAction parsed with
          | Some normalized => Some normalized
          | None => firstAction rest
          end
      | None => firstAction rest
      end
  end.

Definition parseAgentAction (rawText : string) : option action :=
  firstAction (collectJsonCandidates rawText).

(** [payload] of [formatToolObservation]. *)
Definition observationPayload (toolName : string) (result : value) : value :=
  let payload :=
    [ ("tool", JStr toolName);
      ("ok", JBool (if truthy result
                    then match get result "ok" with
                         | JBool false => false
                         | _ => true
                         end
                    else false));
      ("output", JStr (if truthy result then stringOr (get result "output") "" else ""));
      ("error", if truthy result && truthy (get result "error")
                then JStr (toString (get result "error")) else JNull) ] in
  let payload :=
    if truthy result && truthy (get result "metadata")
       && typeofObject (get result "metadata")
    then setProp "metadata" (get result "metadata") payload
    else payload in
  JObj payload.

Definition formatToolObservation (toolName : string) (result : value) : string :=
  "TOOL_RESULT" ++ newline ++ toString (stringify (observationPayload toolName result)).

End ActionProtocol.

(* ================================================================== *)
(** * src/agent/historyAdapter.js *)
(* ================================================================== *)

Module HistoryAdapter.

Import Js.

(** [vscode.LanguageModelChatMessage.User(text)] and [.Assistant(text)]. *)
Inductive role : Type := User | Assistant.

Record message := Message { messageRole : role; messageText : string }.

Definition extractRequestText (turn : value) : string :=
  if negb (truthy turn) || negb (typeofObject turn) then ""
  else match get turn "prompt" with
       | JStr prompt => trim prompt
       | _ => ""
       end.

Definition extractResponsePartText (part : value) : string :=
  if negb (truthy part) || negb (typeofObject part) then ""
  else
    match get part "value" with
    | JStr s => s
    | inner =>
        if truthy inner && typeofObject inner && typeofString (get inner "value")
        then match get inner "value" with JStr s => s | _ => "" end
        else match get part "text" with
             | JStr s => s
             | _ => ""
             end
    end.

Definition extractResponseText (turn : value) : string :=
  if negb (truthy turn) || negb (typeofObject turn) then ""
  else
    match get turn "response" with
    | JArr response =>
        let textParts := filterNonEmpty (map extractResponsePartText response) in
        trim (join newline textParts)
    | _ => ""
    end.

(** The body of the loop over the turns: [acc] is the array being filled. *)
Definition pushTurn (user assistant : string -> message) (messages : list message)
  (turn : value) : list message :=
  let requestText := extractRequestText turn in
  if negb (isEmpty requestText) then (messages ++ [user requestText])%list
  else
    let responseText := extractResponseText turn in
    if negb (isEmpty responseText) then (messages ++ [assistant responseText])%list
    else messages.

Definition toModelMessages (history : value) : list message :=
  match history with
  | JArr turns => fold_left (pushTurn (Message User) (Message Assistant)) turns []
  | _ => []
  end.

Definition pushLine (lines : list string) (turn : value) : list string :=
  let requestText := extractRequestText turn in
  if negb (isEmpty requestText) then (lines ++ [("User: " ++ requestText)%string])%list
  else
    let responseText := extractResponseText turn in
    if negb (isEmpty responseText) then (lines ++ [("Assistant: " ++ responseText)%string])%list
    else lines.

Definition toTranscript (history : value) : string :=
  match history with
  | JArr (turn :: turns) =>
      join (newline ++ newline) (fold_left pushLine (turn :: turns) [])
  | _ => ""
  end.

End HistoryAdapter.

(* ================================================================== *)
(** * The host: exceptions, the response stream, external calls *)
(* ================================================================== *)

Module Host.

Import Js HistoryAdapter.

(** A thrown value: an [Error] instance with its name and message, or any
    other value. *)
Inductive thrown : Type :=
| ErrorObject (name message : string)
| ThrownValue (v : value).

Inductive outcome (A : Type) : Type :=
| Returns (a : A)
| Throws (e : thrown).

Arguments Returns {A} a.
Arguments Throws {A} e.

(** [Error.prototype.toString]. *)
Definition thrownToString (e : thrown) : string :=
  match e with
  | ErrorObject name message =>
      if isEmpty name then message
      else if isEmpty message then name
      else name ++ ": " ++ message
  | ThrownValue v => toString v
  end.

(** [error && error.message ? error.message : String(error)]. *)
Definition errorMessage (error : thrown) : value :=
  match error with
  | ErrorObject _ message =>
      if negb (isEmpty message) then JStr message else JStr (thrownToString error)
  | ThrownValue v =>
      if truthy v && truthy (get v "message") then get v "message"
      else JStr (thrownToString error)
  end.

(** What a request does that the outside can see, in order: the calls on the
    response stream, the requests to the language model with the text (or the
    exception) each one gave, and the calls of the tool registry. *)
Inductive event : Type :=
| Progress (text : string)
| Warning (text : string)
| Markdown (text : string)
| ModelRequest (messages : list message) (reply : outcome string)
| ToolCall (toolName : string) (input : value) (result : outcome value).

(** A computation reads the events so far, adds its own, and returns or
    throws.  The language model and the tools are functions of the events so
    far: their answers may depend on everything that happened before. *)
Definition M (A : Type) : Type := list event -> outcome A * list event.

Definition ret {A} (a : A) : M A := fun log => (Returns a, log).

Definition throw {A} (e : thrown) : M A := fun log => (Throws e, log).

Definition bind {A B} (m : M A) (k : A -> M B) : M B :=
  fun log =>
    match m log with
    | (Returns a, log') => k a log'
    | (Throws e, log') => (Throws e, log')
    end.

Definition tryCatch {A} (body : M A) (handler : thrown -> M A) : M A :=
  fun log =>
    match body log with
    | (Returns a, log') => (Returns a, log')
    | (Throws e, log') => handler e log'
    end.

Definition emit (e : event) : M unit := fun log => (Returns tt, (log ++ [e])%list).

Definition progress (text : string) : M unit := emit (Progress text).
Definition warning (text : string) : M unit := emit (Warning text).
Definition markdown (text : string) : M unit := emit (Markdown text).

End Host.

Notation "x <- m ;; k" := (Host.bind m (fun x => k))
  (at level 61, m at next level, right associativity).
Notation "m ;;; k" := (Host.bind m (fun _ => k))
  (at level 61, right associativity).

(* ================================================================== *)
(** * src/config/agentSettings.js (the settings the loop and the registry read) *)
(* ================================================================== *)

Module AgentSettings.

Record settings := Settings {
  maxIterations : nat;
  enableFileEditTools : bool;
  enableCommandTool : bool
}.

End AgentSettings.

(* ================================================================== *)
(** * src/tools/toolRegistry.js *)
(* ================================================================== *)

Module ToolRegistry.

Import Js Host AgentSettings ActionProtocol.

(** The context [{request, history, token}] a caller passes, which the
    registry extends with its settings. *)
Record context := Context {
  ctxRequest : value;
  ctxHistory : value;
  ctxSettings : option settings
}.

(** A tool descriptor.  [toolExecute] is the tool's own [execute]: it sees the events
    so far, and returns a value or throws. *)
Record tool := MkTool {
  name : string;
  description : string;
  inputSchema : value;
  toolExecute : list event -> value -> context -> outcome value
}.

(** The [Map] from names to tools, in insertion order. *)
Definition toolMap := list (string * tool).

Fixpoint mapGet (k : string) (m : toolMap) : option tool :=
  match m with
  | [] => None
  | (k', t) :: r => if String.eqb k k' then Some t else mapGet k r
  end.

Fixpoint mapSet (k : string) (t : tool) (m : toolMap) : toolMap :=
  match m with
  | [] => [(k, t)]
  | (k', t') :: r => if String.eqb k k' then (k', t) :: r else (k', t') :: mapSet k t r
  end.

Record registry := Registry {
  settingsOf : settings;
  tools : toolMap
}.

Definition register (t : tool) (m : toolMap) : toolMap := mapSet (name t) t m.

(** The tools the factories [createListFilesTool], ... build from settings. *)
Record factories := Factories {
  createListFilesTool : settings -> tool;
  createReadFileTool : settings -> tool;
  createSearchTextTool : settings -> tool;
  createWriteFileTool : settings -> tool;
  createEditFileTool : settings -> tool;
  createRunCommandTool : settings -> tool;
  createWebSearchTool : settings -> tool;
  createHelloWorldTool : settings -> tool
}.

Definition updateSettings (f : factories) (settings : settings) : registry :=
  let m := [] in
  let m := register (createListFilesTool f settings) m in
  let m := register (createReadFileTool f settings) m in
  let m := register (createSearchTextTool f settings) m in
  let m := register (createWebSearchTool f settings) m in
  let m := register (createHelloWorldTool f settings) m in
  let m := if enableFileEditTools settings
           then register (createEditFileTool f settings)
                  (register (createWriteFileTool f settings) m)
           else m in
  let m := if enableCommandTool settings
           then register (createRunCommandTool f settings) m
           else m in
  Registry settings m.

Record toolDefinition := ToolDefinition {
  defName : string;
  defDescription : string;
  defInputSchema : value
}.

Definition getToolDefinitions (r : registry) : list toolDefinition :=
  map (fun kt => ToolDefinition (name (snd kt)) (description (snd kt))
                   (inputSchema (snd kt))) (tools r).

Definition getToolNames (r : registry) : list string := map fst (tools r).

Definition failure (error : value) : value :=
  JObj [("ok", JBool false); ("output", JStr ""); ("error", error)].

Definition unknownToolMessage (r : registry) (toolName : string) : string :=
  "Unknown tool " ++ String dquote toolName ++ String dquote ". Available: "
    ++ join ", " (getToolNames r).

(** [execute(toolName, input, context)], run after the events [log]. *)
Definition execute (r : registry) (log : list event) (toolName : string)
  (input : value) (context : context) : outcome value :=
  match mapGet toolName (tools r) with
  | None => Returns (failure (JStr (unknownToolMessage r toolName)))
  | Some tool =>
      match toolExecute tool log (orValue input emptyObject)
              (Context (ctxRequest context) (ctxHistory context) (Some (settingsOf r)))
      with
      | Returns result => Returns result
      | Throws error => Returns (failure (errorMessage error))
      end
  end.

End ToolRegistry.

(* ================================================================== *)
(** * src/agent/modelClient.js *)
(* ================================================================== *)

Module ModelClient.

Import Js Host HistoryAdapter.

(** The model client over the host's language model API: [resolveModel]
    gives a model or throws; [sendRequest] gives the streamed text of one
    request, or throws. *)
Record client := Client {
  resolveModelOf : list event -> value -> outcome value;
  sendRequest : list event -> list message -> value -> outcome string
}.

Definition resolveModel (c : client) (preferredModel : value) : M value :=
  fun log => (resolveModelOf c log preferredModel, log).

(** [complete]: the text of the reply is the trimmed stream ([streamToText]).
    The call is recorded with what it gave. *)
Definition complete (c : client) (messages : list message) (preferredModel : value)
  : M string :=
  fun log =>
    let reply := match sendRequest c log messages preferredModel with
                 | Returns text => Returns (trim text)
                 | Throws e => Throws e
                 end in
    (reply, (log ++ [ModelRequest messages reply])%list).

Definition trimmedString (v : value) : string :=
  match v with
  | JStr s => if negb (isEmpty (trim s)) then trim s else ""
  | _ => ""
  end.

Definition describeModel (model : value) : string :=
  if negb (truthy model) then "unknown"
  else
    let name := trimmedString (get model "name") in
    let id := trimmedString (get model "id") in
    let vendor := trimmedString (get model "vendor") in
    let family := trimmedString (get model "family") in
    let primary := if negb (isEmpty name) then name
                   else if negb (isEmpty id) then id else "unknown" in
    let details := join "/" (filterNonEmpty [vendor; family]) in
    if negb (isEmpty details) then primary ++ " (" ++ details ++ ")" else primary.

End ModelClient.

(* ================================================================== *)
(** * src/agent/agentModeRunner.js *)
(* ================================================================== *)

Module AgentModeRunner.

Import Js Regex Host AgentSettings ActionProtocol HistoryAdapter.
Import ToolRegistry ModelClient.

(** The behaviour profile a runner is built with ([options.profile]). *)
Record profile := Profile {
  buildSystemPrompt : list toolDefinition -> value -> settings -> string;
  buildCompactPrompt : string -> string
}.

(** The fields of an [AgentModeRunner]. *)
Record runner := Runner {
  runnerSettings : settings;
  runnerProfile : profile;
  toolRegistry : registry;
  modelClient : client
}.

(** [a && b]. *)
Definition andValue (a b : value) : value := if truthy a then b else a.

(** ** The command table *)

Record commandTool := CommandTool {
  commandToolName : string;
  requiresPrompt : bool;
  buildInput : string -> value
}.

Definition queryInput (prompt : string) : value := JObj [("query", JStr prompt)].

Definition messageInput (prompt : string) : value :=
  if negb (isEmpty prompt) then JObj [("message", JStr prompt)] else JObj [].

Definition COMMAND_TOOL_MAP : list (string * commandTool) :=
  [ ("websearch", CommandTool "web_search" true queryInput);
    ("web", CommandTool "web_search" true queryInput);
    ("search", CommandTool "search_text" true queryInput);
    ("workspacesearch", CommandTool "search_text" true queryInput);
    ("hello", CommandTool "hello_world" false messageInput);
    ("helloworld", CommandTool "hello_world" false messageInput) ].

(** [COMMAND_TOOL_MAP[command]]: an entry of the table, a member the table
    inherits from [Object.prototype] (the only ones with a lower-case name),
    or [undefined]. *)
Inductive tableEntry : Type :=
| Own (t : commandTool)
| Inherited
| Undefined.

Fixpoint findCommand (command : string) (table : list (string * commandTool))
  : option commandTool :=
  match table with
  | [] => None
  | (k, t) :: r => if String.eqb command k then Some t else findCommand command r
  end.

Definition lookupCommand (command : string) : tableEntry :=
  match findCommand command COMMAND_TOOL_MAP with
  | Some t => Own t
  | None =>
      if String.eqb command "constructor" || String.eqb command "__proto__"
      then Inherited else Undefined
  end.

(** ** Helpers on the request *)

Definition extractRequestPrompt (request : value) : string :=
  if negb (truthy request) || negb (typeofObject request) then ""
  else match get request "prompt" with
       | JStr prompt => trim prompt
       | _ => ""
       end.

Definition normalizeCommand (command : value) : string :=
  match command with
  | JStr c => toLowerCase (trim c)
  | _ => ""
  end.

Definition formatDirectToolResponse (toolName : string) (toolResult : value) : string :=
  if negb (truthy toolResult) then "Tool `" ++ toolName ++ "` completed."
  else
    match get toolResult "ok" with
    | JBool false =>
        let failureText :=
          orValue (orValue (get toolResult "error") (get toolResult "output"))
                  (JStr "Unknown tool error.") in
        "Tool `" ++ toolName ++ "` failed." ++ newline ++ newline ++ toString failureText
    | _ =>
        let output := match get toolResult "output" with
                      | JStr o => trim o
                      | _ => ""
                      end in
        if negb (isEmpty output) then output else "Tool `" ++ toolName ++ "` completed."
    end.

(** ** Intent detection *)

Definition wordRe (alternatives : list regex) : regex :=
  seq [WordBoundary; alt alternatives; WordBoundary].

(** [/\bworkspace search\b|\bsearch (?:the )?workspace\b|\bsearch across files\b|\bfind references\b/i] *)
Definition workspaceSearchIntentRe : regex :=
  alt [ seq [WordBoundary; litI "workspace search"; WordBoundary];
        seq [WordBoundary; litI "search "; opt (litI "the "); litI "workspace"; WordBoundary];
        seq [WordBoundary; litI "search across files"; WordBoundary];
        seq [WordBoundary; litI "find references"; WordBoundary] ].

Definition isWorkspaceSearchIntent (prompt : string) : bool :=
  test workspaceSearchIntentRe prompt.

(** [/\b(?:across|in)\s+(?:the\s+)?workspace\b/ig] and [/\bacross files\b/ig]. *)
Definition inWorkspaceRe : regex :=
  seq [WordBoundary; alt [litI "across"; litI "in"]; plus space;
       opt (seq [litI "the"; plus space]); litI "workspace"; WordBoundary].

Definition acrossFilesRe : regex :=
  seq [WordBoundary; litI "across files"; WordBoundary].

Definition sanitizeWorkspaceSearchQuery (query : string) : string :=
  trim (replaceAll acrossFilesRe "" (replaceAll inWorkspaceRe "" query)).

(** [/(?:workspace search|search (?:the )?workspace|search across files|find references)(?:\s+(?:for|of|to|about))?\s+(.+)$/i] *)
Definition searchQueryRe : regex :=
  seq [ alt [ litI "workspace search";
              seq [litI "search "; opt (litI "the "); litI "workspace"];
              litI "search across files";
              litI "find references" ];
        opt (seq [plus space; alt [litI "for"; litI "of"; litI "to"; litI "about"]]);
        plus space;
        Group 1 (plus dot);
        EndOfInput ].

(** [/["'`](.+?)["'`]/] *)
Definition isQuoteChar (c : ascii) : bool :=
  Ascii.eqb c dquote || Ascii.eqb c squote || Ascii.eqb c "`".

Definition quotedRe : regex :=
  seq [Chr isQuoteChar; Group 1 (Seq dot (Star false dot)); Chr isQuoteChar].

Definition firstGroup (r : regex) (s : string) : option string :=
  match search r None s with
  | Some m => group 1 (groups m)
  | None => None
  end.

Definition extractWorkspaceSearchQuery (prompt : string) : string :=
  let normalized := trim prompt in
  if isEmpty normalized then ""
  else if negb (isWorkspaceSearchIntent normalized) then ""
  else
    match firstGroup searchQueryRe normalized with
    | Some g => sanitizeWorkspaceSearchQuery g
    | None =>
        match firstGroup quotedRe normalized with
        | Some g => sanitizeWorkspaceSearchQuery g
        | None => ""
        end
    end.

(** [/\b(search|workspace)\b/] and
    [/\b(unavailable|not enabled|cannot|can't|required.*api proposal|permissions?)\b/]. *)
Definition mentionsSearchRe : regex := wordRe [lit "search"; lit "workspace"].

Definition refusalSignalRe : regex :=
  wordRe [ lit "unavailable"; lit "not enabled"; lit "cannot";
           seq [lit "can"; chr squote; lit "t"];
           seq [lit "required"; Star true dot; lit "api proposal"];
           seq [lit "permission"; opt (lit "s")] ].

Definition looksLikeSearchCapabilityRefusal (content : string) : bool :=
  let text := toLowerCase content in
  let mentionsSearch := test mentionsSearchRe text in
  let refusalSignal := test refusalSignalRe text in
  mentionsSearch && refusalSignal.

Definition webSearchPhrases : list string :=
  [ "search the web"; "search web"; "web search"; "search online";
    "look up online"; "look up on the web" ].

Definition shouldUseAutonomousWebSearch (prompt : string) : bool :=
  if existsb (fun phrase => includes phrase prompt) webSearchPhrases then true
  else
    let hasSearchVerb :=
      test (wordRe [lit "search"; lit "lookup"; lit "look up"; lit "find"]) prompt in
    let hasWebContext :=
      test (wordRe [lit "web"; lit "internet"; lit "online"]) prompt in
    hasSearchVerb && hasWebContext.

Definition shouldUseAutonomousHelloTool (prompt : string) : bool :=
  let wantsHelloWorld := includes "hello world" prompt in
  let wantsToolOrTerminal :=
    test (wordRe [lit "tool"; lit "terminal"; lit "invoke"; lit "test";
                  lit "try"; lit "print"]) prompt in
  wantsHelloWorld && wantsToolOrTerminal.

Definition inferAutonomousToolRequest (prompt : string) : option (string * value) :=
  let normalizedPrompt := toLowerCase prompt in
  let workspaceSearchQuery := extractWorkspaceSearchQuery prompt in
  if negb (isEmpty workspaceSearchQuery) then
    Some ("search_text", JObj [("query", JStr workspaceSearchQuery)])
  else if shouldUseAutonomousWebSearch normalizedPrompt then
    Some ("web_search", JObj [("query", JStr prompt)])
  else if shouldUseAutonomousHelloTool normalizedPrompt then
    Some ("hello_world", JObj [])
  else None.

(** ** The task prompt *)

Definition toCompactText (text : string) (maxLength : nat) : string :=
  let compact := trim (replaceAll (plus space) " " text) in
  if isEmpty compact then ""
  else if (maxLength <? String.length compact)%nat
       then substring 0 maxLength compact ++ "..."
       else compact.

Definition safeStringify (v : value) : value := stringify v.

Definition describeReferenceValue (value : value) : string :=
  match value with
  | JStr s => toCompactText s 220
  | _ =>
      if negb (truthy value) || negb (typeofObject value) then ""
      else
        match get value "fsPath" with
        | JStr fsPath => fsPath
        | _ =>
            let uri := get value "uri" in
            let viaUri :=
              if truthy uri && typeofObject uri then
                match get uri "fsPath" with
                | JStr fsPath => Some fsPath
                | _ => match get uri "path" with
                       | JStr path => Some path
                       | _ => None
                       end
                end
              else None in
            match viaUri with
            | Some t => t
            | None =>
                match get value "path" with
                | JStr path => path
                | _ => toCompactText (toString (orValue (safeStringify value) (JStr ""))) 320
                end
            end
        end
  end.

Definition formatSingleReference (reference : value) (index : nat) : string :=
  let id :=
    match andValue reference (get reference "id") with
    | JStr i => if negb (isEmpty (trim i)) then trim i
                else "reference-" ++ digits (N.of_nat (index + 1))
    | _ => "reference-" ++ digits (N.of_nat (index + 1))
    end in
  let valueText :=
    describeReferenceValue (if truthy reference then get reference "value" else JUndefined) in
  let modelDescription :=
    if truthy reference then
      match get reference "modelDescription" with
      | JStr d => trim d
      | _ => ""
      end
    else "" in
  let rangeText :=
    match andValue reference (get reference "range") with
    | JArr [a; b] => "range=" ++ toString a ++ "-" ++ toString b
    | _ => ""
    end in
  let details := filterNonEmpty [valueText; modelDescription; rangeText] in
  match details with
  | [] => "- " ++ id
  | _ => "- " ++ id ++ ": " ++ join " | " details
  end.

Fixpoint mapIndexed {A B} (f : A -> nat -> B) (l : list A) (index : nat) : list B :=
  match l with
  | [] => []
  | x :: r => f x index :: mapIndexed f r (S index)
  end.

Definition formatRequestReferences (request : value) : string :=
  let references :=
    if truthy request then
      match get request "references" with
      | JArr l => l
      | _ => []
      end
    else [] in
  match references with
  | [] => ""
  | _ =>
      let lines := filterNonEmpty (mapIndexed formatSingleReference references 0) in
      join newline lines
  end.

Definition buildTaskPrompt (request : value) : string :=
  let userPrompt := extractRequestPrompt request in
  let referenceSummary := formatRequestReferences request in
  let sections := [] in
  let sections :=
    if truthy (andValue request (get request "command"))
    then (sections ++ [("Command: /" ++ toString (get request "command"))%string])%list
    else sections in
  let sections :=
    (sections ++ [join newline ["User request:";
                                if negb (isEmpty userPrompt) then userPrompt
                                else "(empty prompt)"]])%list in
  let sections :=
    if negb (isEmpty referenceSummary) then
      (sections ++ [join newline
                      ["Resolved prompt references (prefer these exact paths when relevant):";
                       referenceSummary]])%list
    else sections in
  let sections :=
    (sections ++ ["Work like an agent: gather evidence with tools when needed and finish with type=final."])%list in
  join (newline ++ newline) sections.

(** ** Calls into the registry *)

(** [this.toolRegistry.execute(tool, input, {request, history, token})]: the
    call is recorded with its result. *)
Definition callTool (this : runner) (request chatContext : value)
  (toolName : string) (input : value) : M value :=
  fun log =>
    let result := execute (toolRegistry this) log toolName input
                    (Context request (get chatContext "history") None) in
    (result, (log ++ [ToolCall toolName input result])%list).

(** ** The agent loop *)

(** The variables of the loop of [handleRequest]. *)
Record loopState := LoopState {
  modelMessages : list message;
  previousToolSignature : string;
  repeatedToolCallCount : nat;
  parseFailureCount : nat;
  capabilityRefusalRetryCount : nat
}.

Definition pushMessage (m : message) (st : loopState) : loopState :=
  LoopState (modelMessages st ++ [m])%list (previousToolSignature st)
    (repeatedToolCallCount st) (parseFailureCount st) (capabilityRefusalRetryCount st).

Definition setPreviousToolSignature (sig : string) (st : loopState) : loopState :=
  LoopState (modelMessages st) sig
    (repeatedToolCallCount st) (parseFailureCount st) (capabilityRefusalRetryCount st).

Definition setRepeatedToolCallCount (n : nat) (st : loopState) : loopState :=
  LoopState (modelMessages st) (previousToolSignature st)
    n (parseFailureCount st) (capabilityRefusalRetryCount st).

Definition setParseFailureCount (n : nat) (st : loopState) : loopState :=
  LoopState (modelMessages st) (previousToolSignature st)
    (repeatedToolCallCount st) n (capabilityRefusalRetryCount st).

Definition setCapabilityRefusalRetryCount (n : nat) (st : loopState) : loopState :=
  LoopState (modelMessages st) (previousToolSignature st)
    (repeatedToolCallCount st) (parseFailureCount st) n.

(** How one pass through the body ends: [continue] (or the end of the body)
    with the variables as they are then, or [return]. *)
Inductive control : Type :=
| Continue (st : loopState)
| Return (result : value).

Definition invalidFormatMessage : string :=
  q "Invalid response format. Reply with exactly one JSON object using either {'type':'tool','tool':'...','input':{...}} or {'type':'final','content':'...'}".

Definition nonJsonWarning : string :=
  "Model returned non-JSON output; returning raw response.".

Definition refusalWarning : string :=
  "Search capability is available in this participant. Retrying with tool guidance.".

Definition refusalGuidance : string :=
  "Workspace search is available through search_text. Do not refuse for missing search capability. Use tools and continue.".

Definition repeatedCallError : string :=
  "Identical tool call repeated too many times. Use different input/tool or return a final response.".

Definition budgetMessage : string :=
  q "Iteration budget reached. Return a concise final response as JSON: {'type':'final','content':'...'}".

(** [`${action.tool}:${JSON.stringify(action.input || {})}`] *)
Definition toolSignature (tool : string) (input : value) : string :=
  tool ++ ":" ++ toString (stringify (orValue input emptyObject)).

Definition blockedObservation (tool : string) : string :=
  formatToolObservation tool
    (JObj [("ok", JBool false); ("output", JStr ""); ("error", JStr repeatedCallError)]).

(** The body of the [for] loop. *)
Definition iteration (this : runner) (request chatContext selectedModel : value)
  (st : loopState) : M control :=
  rawResponse <- complete (modelClient this) (modelMessages st) selectedModel ;;
  let action := parseAgentAction rawResponse in
  let st := pushMessage (Message Assistant rawResponse) st in
  match action with
  | None =>
      let st := setParseFailureCount (parseFailureCount st + 1) st in
      if (2 <=? parseFailureCount st)%nat then
        warning nonJsonWarning ;;;
        markdown rawResponse ;;;
        ret (Return emptyObject)
      else
        ret (Continue (pushMessage (Message User invalidFormatMessage) st))
  | Some action =>
      let st := setParseFailureCount 0 st in
      match action with
      | Final content =>
          if looksLikeSearchCapabilityRefusal content
             && (capabilityRefusalRetryCount st <? 1)%nat
          then
            let st := setCapabilityRefusalRetryCount (capabilityRefusalRetryCount st + 1) st in
            warning refusalWarning ;;;
            ret (Continue (pushMessage (Message User refusalGuidance) st))
          else
            markdown (if negb (isEmpty content) then content else "Done.") ;;;
            ret (Return emptyObject)
      | Tool tool input =>
          let currentToolSignature := toolSignature tool input in
          let st :=
            if String.eqb currentToolSignature (previousToolSignature st)
            then setRepeatedToolCallCount (repeatedToolCallCount st + 1) st
            else setRepeatedToolCallCount 1
                   (setPreviousToolSignature currentToolSignature st) in
          if (2 <? repeatedToolCallCount st)%nat then
            warning ("Blocked repeated tool call: " ++ tool) ;;;
            ret (Continue (pushMessage (Message User (blockedObservation tool)) st))
          else
            progress ("Running tool: " ++ tool) ;;;
            toolResult <- callTool this request chatContext tool input ;;
            ret (Continue
                   (pushMessage (Message User (formatToolObservation tool toolResult)) st))
      end
  end.

(** [for (let iteration = 1; iteration <= maxIterations; iteration += 1)]:
    [remaining] passes are left.  The result is the [return] of a pass, or the
    variables when the loop runs out. *)
Fixpoint iterations (this : runner) (request chatContext selectedModel : value)
  (remaining : nat) (st : loopState) : M (loopState + value) :=
  match remaining with
  | O => ret (inl st)
  | S remaining' =>
      c <- iteration this request chatContext selectedModel st ;;
      match c with
      | Continue st' => iterations this request chatContext selectedModel remaining' st'
      | Return result => ret (inr result)
      end
  end.

(** The forced completion after the loop ran out. *)
Definition finalAttempt (this : runner) (selectedModel : value) (st : loopState)
  : M value :=
  warning ("Reached iteration limit ("
             ++ digits (N.of_nat (maxIterations (runnerSettings this)))
             ++ "). Returning best effort response.") ;;;
  let st := pushMessage (Message User budgetMessage) st in
  finalAttempt <- complete (modelClient this) (modelMessages st) selectedModel ;;
  match parseAgentAction finalAttempt with
  | Some (Final content) => markdown content
  | _ => markdown finalAttempt
  end ;;;
  ret emptyObject.

(** The model-driven loop of [handleRequest], from the choice of the model to
    the last [return] of the [try] block. *)
Definition agentLoop (this : runner) (request chatContext : value) : M value :=
  selectedModel <- resolveModel (modelClient this) (andValue request (get request "model")) ;;
  progress ("Using model: " ++ describeModel selectedModel) ;;;
  let toolDefinitions := getToolDefinitions (toolRegistry this) in
  let systemPrompt :=
    buildSystemPrompt (runnerProfile this) toolDefinitions (get request "command")
      (runnerSettings this) in
  let modelMessages :=
    ([Message User systemPrompt]
       ++ toModelMessages (get chatContext "history")
       ++ [Message User (buildTaskPrompt request)])%list in
  let st := LoopState modelMessages "" 0 0 0 in
  r <- iterations this request chatContext selectedModel
         (maxIterations (runnerSettings this)) st ;;
  match r with
  | inr result => ret result
  | inl st' => finalAttempt this selectedModel st'
  end.

(** ** The other flows *)

Definition handleCompact (this : runner) (request chatContext : value) : M value :=
  let transcript := toTranscript (get chatContext "history") in
  if isEmpty transcript then
    markdown "Nothing to compact yet. Start a conversation first." ;;;
    ret emptyObject
  else
    selectedModel <- resolveModel (modelClient this) (andValue request (get request "model")) ;;
    progress ("Using model: " ++ describeModel selectedModel) ;;;
    let compactPrompt := buildCompactPrompt (runnerProfile this) transcript in
    response <- complete (modelClient this) [Message User compactPrompt] selectedModel ;;
    match parseAgentAction response with
    | Some (Final content) => markdown content
    | _ => markdown response
    end ;;;
    ret emptyObject.

Definition notAFunction : thrown :=
  ErrorObject "TypeError" "commandTool.buildInput is not a function".

Definition tryHandleCommandToolRequest (this : runner) (request chatContext : value)
  : M (option value) :=
  let command := normalizeCommand (andValue request (get request "command")) in
  match lookupCommand command with
  | Undefined => ret None
  | Inherited =>
      progress "Running tool: undefined" ;;;
      throw notAFunction
  | Own commandTool =>
      let prompt := extractRequestPrompt request in
      if requiresPrompt commandTool && isEmpty prompt then
        markdown ("Usage: /" ++ command ++ " <query>") ;;;
        ret (Some emptyObject)
      else
        progress ("Running tool: " ++ commandToolName commandTool) ;;;
        toolResult <- callTool this request chatContext (commandToolName commandTool)
                        (buildInput commandTool prompt) ;;
        markdown (formatDirectToolResponse (commandToolName commandTool) toolResult) ;;;
        ret (Some emptyObject)
  end.

Definition tryHandleAutonomousToolRequest (this : runner) (request : value)
  (requestPrompt : string) (chatContext : value) : M (option value) :=
  if negb (isEmpty (normalizeCommand (andValue request (get request "command"))))
     || isEmpty requestPrompt
  then ret None
  else if isWorkspaceSearchIntent requestPrompt
          && isEmpty (extractWorkspaceSearchQuery requestPrompt)
  then
    markdown "Workspace search is enabled. Please provide what to search (for example: `/search myFunctionName`)." ;;;
    ret (Some emptyObject)
  else
    match inferAutonomousToolRequest requestPrompt with
    | None => ret None
    | Some (tool, input) =>
        progress ("Autonomous tool call: " ++ tool) ;;;
        toolResult <- callTool this request chatContext tool input ;;
        markdown (formatDirectToolResponse tool toolResult) ;;;
        ret (Some emptyObject)
    end.

(** ** handleRequest *)

Definition errorDetails (message : string) : value :=
  JObj [("errorDetails", JObj [("message", JStr message)])].

Definition isCompact (request : value) : bool :=
  truthy request
  && match get request "command" with
     | JStr c => String.eqb c "compact"
     | _ => false
     end.

Definition handleRequest (this : runner) (request chatContext : value) : M value :=
  tryCatch
    (if isCompact request then handleCompact this request chatContext
     else
       handledToolCommand <- tryHandleCommandToolRequest this request chatContext ;;
       match handledToolCommand with
       | Some result => ret result
       | None =>
           let requestPrompt := extractRequestPrompt request in
           if isEmpty requestPrompt
              && negb (truthy (andValue request (get request "command")))
           then
             markdown "Please enter a prompt or command." ;;;
             ret emptyObject
           else
             handledAutonomousTool <-
               tryHandleAutonomousToolRequest this request requestPrompt chatContext ;;
             match handledAutonomousTool with
             | Some result => ret result
             | None => agentLoop this request chatContext
             end
       end)
    (fun error =>
       let message := "Agent execution failed: " ++ toString (errorMessage error) in
       warning message ;;;
       ret (errorDetails message)).

(** A request handled from the start: nothing has happened yet. *)
Definition run (this : runner) (request chatContext : value) : outcome value * list event :=
  handleRequest this request chatContext [].

End AgentModeRunner.

(* ================================================================== *)
(** * Reading a run *)
(* ================================================================== *)

Module Trace.

Import Js Host HistoryAdapter.

Definition isModelRequest (e : event) : bool :=
  match e with
  | ModelRequest _ _ => true
  | _ => false
  end.

Definition isToolCall (e : event) : bool :=
  match e with
  | ToolCall _ _ _ => true
  | _ => false
  end.

(** The number of calls of the model client's [complete]. *)
Definition modelCalls (log : list event) : nat :=
  List.length (filter isModelRequest log).

(** The number of calls of the registry's [execute]. *)
Definition toolCalls (log : list event) : nat :=
  List.length (filter isToolCall log).

(** The texts the model client returned, in order. *)
Fixpoint completions (log : list event) : list string :=
  match log with
  | [] => []
  | ModelRequest _ (Returns text) :: r => text :: completions r
  | _ :: r => completions r
  end.

Definition isWarning (text : string) (e : event) : bool :=
  match e with
  | Warning t => String.eqb t text
  | _ => false
  end.

(** How many times the warning [text] went to the stream. *)
Definition warnings (text : string) (log : list event) : nat :=
  List.length (filter (isWarning text) log).

(** The last event of a run. *)
Definition lastEvent (log : list event) : option event :=
  match rev log with
  | [] => None
  | e :: _ => Some e
  end.

End Trace.

(* ================================================================== *)
(** * Scenarios: a scripted model and stub tools, for closed instances *)
(* ================================================================== *)

Module Scenario.

Import Js Host AgentSettings ActionProtocol HistoryAdapter.
Import ToolRegistry ModelClient AgentModeRunner Trace.

(** A model that answers the [n]-th request with the [n]-th text of a script,
    and throws when the script is over. *)
Definition scriptedClient (replies : list string) : client :=
  Client (fun _ _ => Returns (JObj [("name", JStr "gpt")]))
         (fun log _ _ =>
            match nth_error replies (modelCalls log) with
            | Some r => Returns r
            | None => Throws (ErrorObject "Error" "no more replies")
            end).

Definition okTool (n : string) : tool :=
  MkTool n "succeeds" (JObj [])
    (fun _ _ _ => Returns (JObj [("ok", JBool true); ("output", JStr "fine")])).

Definition failingTool (n : string) : tool :=
  MkTool n "throws" (JObj []) (fun _ _ _ => Throws (ErrorObject "Error" "disk full")).

Definition demoFactories : factories :=
  Factories (fun _ => okTool "list_files") (fun _ => okTool "read_file")
    (fun _ => okTool "search_text") (fun _ => failingTool "write_file")
    (fun _ => okTool "edit_file") (fun _ => okTool "run_command")
    (fun _ => okTool "web_search") (fun _ => okTool "hello_world").

Definition demoSettings : settings := Settings 4 true true.

Definition demoProfile : profile :=
  Profile (fun _ _ _ => "SYSTEM") (fun t => "COMPACT " ++ t).

Definition demoRegistry : registry := updateSettings demoFactories demoSettings.

Definition demoRunner (replies : list string) : runner :=
  Runner demoSettings demoProfile demoRegistry (scriptedClient replies).

Definition promptRequest (prompt : string) : value := JObj [("prompt", JStr prompt)].

Definition emptyContext : value := JObj [("history", JArr [])].

(** A tool call, the variables of the loop after it was seen twice in a row,
    and the variables after the refusal guard has fired. *)
Definition readCall : string :=
  q "{'type':'tool','tool':'read_file','input':{'path':'a.js'}}".



Definition refusal : string :=
  q "{'type':'final','content':'Workspace search is unavailable.'}".

Definition retriedOnce : loopState := LoopState [] "" 0 0 1.

(** The same tool call with its two keys in either order. *)
Definition callAB : string :=
  q "{'type':'tool','tool':'read_file','input':{'a':1,'b':2}}".

Definition callBA : string :=
  q "{'type':'tool','tool':'read_file','input':{'b':2,'a':1}}".





(** The three texts of the examples. *)
Definition finalText : string := q "{'type':'final','content':'done'}".

Definition fencedText : string :=
  "```json" ++ newline
    ++ q "{'type':'tool','tool':'search_text','input':{'query':'x'}}"
    ++ newline ++ "```".

Definition proseText : string := q "noise {'type':'tool','tool':'t'} trailing".

End Scenario.

(* ================================================================== *)
(** * The transcript builder in the words of its description *)
(* ================================================================== *)

Module TranscriptSpec.

Import Js HistoryAdapter.

(** The description as first written: a fragment is a plain string, or has
    one of the shapes [{value: string}], [{value: {value: string}}],
    [{text: string}]; a turn with a prompt string gives one user message,
    otherwise the concatenation of its non-empty fragment texts gives one
    assistant message. *)
Definition statedFragmentText (fragment : value) : string :=
  match fragment with
  | JStr s => s
  | JObj ps =>
      match lookup "value" ps, lookup "text" ps with
      | Some (JStr s), _ => s
      | Some (JObj inner), t =>
          match lookup "value" inner, t with
          | Some (JStr s), _ => s
          | _, Some (JStr s) => s
          | _, _ => ""
          end
      | _, Some (JStr s) => s
      | _, _ => ""
      end
  | _ => ""
  end.

Definition statedTurnMessages (turn : value) : list message :=
  match get turn "prompt", get turn "response" with
  | JStr prompt, _ => [Message User prompt]
  | _, JArr fragments =>
      match String.concat "" (filterNonEmpty (map statedFragmentText fragments)) with
      | EmptyString => []
      | text => [Message Assistant text]
      end
  | _, _ => []
  end.

Definition statedMessages (turns : list value) : list message :=
  flat_map statedTurnMessages turns.

(** The description that holds.  A fragment that is an object (or an array)
    gives its [value] when that is a string, else the [value] of its [value]
    when that is an object holding a string, else its [text] when that is a
    string; any other fragment, a plain string included, gives nothing. *)
Definition isObjectLike (v : value) : bool :=
  match v with
  | JArr _ | JObj _ => true
  | _ => false
  end.

Definition fragmentText (fragment : value) : string :=
  if isObjectLike fragment then
    match get fragment "value" with
    | JStr s => s
    | inner =>
        match (if isObjectLike inner then get inner "value" else JUndefined) with
        | JStr s => s
        | _ => match get fragment "text" with
               | JStr s => s
               | _ => ""
               end
        end
    end
  else "".

(** A turn gives one user message, the trimmed prompt, when its prompt is a
    string that is not blank; otherwise one assistant message, the non-empty
    fragment texts joined by line breaks and trimmed, when its response is an
    array and that text is not empty; otherwise nothing. *)
Definition responseMessages (turn : value) : list message :=
  match get turn "response" with
  | JArr fragments =>
      match trim (join newline (filterNonEmpty (map fragmentText fragments))) with
      | EmptyString => []
      | text => [Message Assistant text]
      end
  | _ => []
  end.

Definition turnMessages (turn : value) : list message :=
  if isObjectLike turn then
    match get turn "prompt" with
    | JStr prompt =>
        match trim prompt with
        | EmptyString => responseMessages turn
        | text => [Message User text]
        end
    | _ => responseMessages turn
    end
  else [].

End TranscriptSpec.

(* ================================================================== *)
(** * The passes of the loop as a step relation *)
(* ================================================================== *)

Module LoopSpec.

Import Js Host AgentSettings ActionProtocol HistoryAdapter.
Import ToolRegistry ModelClient AgentModeRunner Trace.

(** A computation that, after any events [log], ends with the events
    [log ++ ev] and the outcome [o] for some [ev] and [o] that satisfy [P]. *)
Definition runs {A} (m : M A) (P : list event -> outcome A -> Prop) : Prop :=
  forall log, exists o ev, m log = (o, (log ++ ev)%list) /\ P ev o.

(** One pass from the variables [st]: the events after the model request,
    the reply of the model, and how the pass ends. *)
Inductive stepped (st : loopState) : list event -> outcome string -> outcome control -> Prop :=
| ModelThrows e :
    stepped st [] (Throws e) (Throws e)
| RawEmitted raw :
    parseAgentAction raw = None ->
    1 <= parseFailureCount st ->
    stepped st [Warning nonJsonWarning; Markdown raw]
      (Returns raw) (Returns (Return emptyObject))
| FormatRetry raw st' :
    parseAgentAction raw = None ->
    parseFailureCount st = 0 ->
    parseFailureCount st' = 1 ->
    capabilityRefusalRetryCount st' = capabilityRefusalRetryCount st ->
    repeatedToolCallCount st' = repeatedToolCallCount st ->
    previousToolSignature st' = previousToolSignature st ->
    modelMessages st'
    = (modelMessages st ++ [Message Assistant raw; Message User invalidFormatMessage])%list ->
    stepped st [] (Returns raw) (Returns (Continue st'))
| RefusalRetry raw content st' :
    parseAgentAction raw = Some (Final content) ->
    looksLikeSearchCapabilityRefusal content = true ->
    capabilityRefusalRetryCount st = 0 ->
    parseFailureCount st' = 0 ->
    capabilityRefusalRetryCount st' = 1 ->
    repeatedToolCallCount st' = repeatedToolCallCount st ->
    previousToolSignature st' = previousToolSignature st ->
    modelMessages st'
    = (modelMessages st ++ [Message Assistant raw; Message User refusalGuidance])%list ->
    stepped st [Warning refusalWarning] (Returns raw) (Returns (Continue st'))
| FinalEmitted raw content :
    parseAgentAction raw = Some (Final content) ->
    looksLikeSearchCapabilityRefusal content = false
    \/ 1 <= capabilityRefusalRetryCount st ->
    stepped st [Markdown (if negb (isEmpty content) then content else "Done.")]
      (Returns raw) (Returns (Return emptyObject))
| CallBlocked raw tool input st' :
    parseAgentAction raw = Some (Tool tool input) ->
    toolSignature tool input = previousToolSignature st ->
    2 <= repeatedToolCallCount st ->
    parseFailureCount st' = 0 ->
    capabilityRefusalRetryCount st' = capabilityRefusalRetryCount st ->
    repeatedToolCallCount st' = repeatedToolCallCount st + 1 ->
    previousToolSignature st' = previousToolSignature st ->
    modelMessages st'
    = (modelMessages st
         ++ [Message Assistant raw; Message User (blockedObservation tool)])%list ->
    stepped st [Warning ("Blocked repeated tool call: " ++ tool)]
      (Returns raw) (Returns (Continue st'))
| ToolRun raw tool input result st' :
    parseAgentAction raw = Some (Tool tool input) ->
    toolSignature tool input <> previousToolSignature st
    \/ repeatedToolCallCount st <= 1 ->
    parseFailureCount st' = 0 ->
    capabilityRefusalRetryCount st' = capabilityRefusalRetryCount st ->
    repeatedToolCallCount st'
    = (if String.eqb (toolSignature tool input) (previousToolSignature st)
       then repeatedToolCallCount st + 1 else 1) ->
    previousToolSignature st' = toolSignature tool input ->
    modelMessages st'
    = (modelMessages st
         ++ [Message Assistant raw;
             Message User (formatToolObservation tool result)])%list ->
    stepped st [Progress ("Running tool: " ++ tool); ToolCall tool input (Returns result)]
      (Returns raw) (Returns (Continue st')).

(** At most [k] of the events satisfy [p]. *)
Definition atMost {A} (p : event -> bool) (k : nat) : list event -> outcome A -> Prop :=
  fun ev _ => List.length (filter p ev) <= k.

(** How a handled request ends: with [{}] after a text went to the stream as
    markdown (the final answer, or the raw text of the model), or with the
    failure [{errorDetails: {message}}] after that message went to the stream
    as a warning. *)
Definition answered (ev : list event) (result : value) : Prop :=
  result = emptyObject /\ exists pre text, ev = (pre ++ [Markdown text])%list.

Definition failed (ev : list event) (result : value) : Prop :=
  exists pre message,
    result = errorDetails message /\ ev = (pre ++ [Warning message])%list.

Definition terminal (o : outcome value) (ev : list event) : Prop :=
  match o with
  | Returns result => answered ev result \/ failed ev result
  | Throws _ => False
  end.

(** A computation that returns only after an answer. *)
Definition answers (ev : list event) (o : outcome value) : Prop :=
  match o with
  | Returns result => answered ev result
  | Throws _ => True
  end.

(** The same for the flows that may decline the request with [null]. *)
Definition answersIfHandled (ev : list event) (o : outcome (option value)) : Prop :=
  match o with
  | Returns (Some result) => answered ev result
  | Returns None => ev = []
  | Throws _ => True
  end.

(** Two completions in a row that do not parse end the request: the run
    returns ([finished]), the second is the last completion and its text is
    the last event, as markdown. *)
Definition unparsable (raw : string) : Prop := parseAgentAction raw = None.

Definition pairEnds {A} (finished : outcome A -> Prop) (ev : list event)
  (o : outcome A) : Prop :=
  forall i r1 r2,
    nth_error (completions ev) i = Some r1 ->
    nth_error (completions ev) (S i) = Some r2 ->
    unparsable r1 -> unparsable r2 ->
    finished o
    /\ List.length (completions ev) = i + 2
    /\ lastEvent ev = Some (Markdown r2).

(** The run ends with two completions that do not parse. *)
Definition endsWithPair (ev : list event) : Prop :=
  exists i r1 r2,
    List.length (completions ev) = i + 2
    /\ nth_error (completions ev) i = Some r1
    /\ nth_error (completions ev) (S i) = Some r2
    /\ unparsable r1 /\ unparsable r2.

(** The warning of the raw-text fallback is given only then. *)
Definition warnedOnlyAfterPair {A} (finished : outcome A -> Prop) (ev : list event)
  (o : outcome A) : Prop :=
  1 <= warnings nonJsonWarning ev -> finished o /\ endsWithPair ev.

(** The same two facts for the rest of a loop that starts with the variables
    [st]: a count of 1 stands for a completion that did not parse just
    before. *)
Definition parseGuard (st : loopState) (ev : list event)
  (o : outcome (loopState + value)) : Prop :=
  let finished o := o = Returns (inr emptyObject) in
  pairEnds finished ev o
  /\ (1 <= parseFailureCount st ->
      forall r, nth_error (completions ev) 0 = Some r -> unparsable r ->
                finished o /\ List.length (completions ev) = 1
                /\ lastEvent ev = Some (Markdown r))
  /\ (1 <= warnings nonJsonWarning ev ->
      finished o
      /\ ((1 <= parseFailureCount st
           /\ exists r, completions ev = [r] /\ unparsable r)
          \/ endsWithPair ev)).

(** The two facts for a whole request. *)
Definition returnsEmpty (o : outcome value) : Prop := o = Returns emptyObject.

Definition parseGuardOfRequest (ev : list event) (o : outcome value) : Prop :=
  pairEnds returnsEmpty ev o /\ warnedOnlyAfterPair returnsEmpty ev o.

(** No warning at all among the events. *)
Definition quiet (ev : list event) : bool :=
  forallb (fun e => match e with Warning _ => false | _ => true end) ev.

(** The flows of [handleRequest] other than the loop: at most one call of the
    model, no warning, and a [return] only after an answer. *)
Definition shortFlow {A} (answersA : list event -> outcome A -> Prop)
  (ev : list event) (o : outcome A) : Prop :=
  modelCalls ev <= 1 /\ quiet ev = true /\ answersA ev o.

(** The text of the failure [handleRequest] reports for an exception. *)
Definition failureMessage (error : thrown) : string :=
  "Agent execution failed: " ++ toString (errorMessage error).

(** What [handleRequest] does, given what the loop does ([L]): the events
    [ev0] of a short flow or of the loop, returned as they are, or, when they
    end in an exception, followed by the warning of the failure. *)
Definition handled (L : list event -> outcome value -> Prop)
  (ev : list event) (o : outcome value) : Prop :=
  exists ev0 o0,
    (shortFlow answers ev0 o0 \/ L ev0 o0)
    /\ match o0 with
       | Returns result => ev = ev0 /\ o = Returns result
       | Throws e => ev = (ev0 ++ [Warning (failureMessage e)])%list
                     /\ o = Returns (errorDetails (failureMessage e))
       end.

(** What the loop does with the calls: at most one per pass, and a [return]
    from inside only after an answer. *)
Definition boundedPasses (n : nat) (ev : list event) (o : outcome (loopState + value))
  : Prop :=
  modelCalls ev <= n
  /\ match o with
     | Returns (inr result) => answered ev result
     | _ => True
     end.

(** The forced completion: a warning, one call, and the answer. *)
Definition forcedCompletion (messages : list message) (limit : string)
  (ev : list event) (o : outcome value) : Prop :=
  exists reply,
    match reply with
    | Returns raw =>
        o = Returns emptyObject
        /\ ev = [Warning limit; ModelRequest messages reply;
                 Markdown match parseAgentAction raw with
                          | Some (Final content) => content
                          | _ => raw
                          end]
    | Throws e => o = Throws e /\ ev = [Warning limit; ModelRequest messages reply]
    end.

(** At most [k] calls of the model, and an answer. *)
Definition boundedAnswer (k : nat) (ev : list event) (o : outcome value) : Prop :=
  modelCalls ev <= k /\ answers ev o.

(** As long as the counter is at most 1, the warnings of the refusal guard in
    the rest of the loop and the counter add up to at most 1. *)
Definition refusalBudget (st : loopState) (ev : list event) : Prop :=
  capabilityRefusalRetryCount st <= 1 ->
  warnings refusalWarning ev + capabilityRefusalRetryCount st <= 1.

End LoopSpec.

(* ================================================================== *)
(** * The values JSON.stringify writes and JSON.parse reads back *)
(* ================================================================== *)

Module JsonSpec.

Import Js.

(** A number written as a plain integer: no fraction, at most 21 digits. *)
Definition plainNumber (n : number) : Prop :=
  expo n = 0%Z /\ String.length (digits (Z.abs_N (mant n))) <= 21.

(** The values of JavaScript object type other than [null]. *)
Definition isObjectValue (v : value) : bool :=
  match v with
  | JArr _ | JObj _ => true
  | _ => false
  end.

(** Induction on values through their arrays and objects. *)
Definition value_nested_ind (P : value -> Prop)
  (Hundefined : P JUndefined) (Hnull : P JNull) (Hbool : forall b, P (JBool b))
  (Hnum : forall n, P (JNum n)) (Hstr : forall s, P (JStr s))
  (Harr : forall l, Forall P l -> P (JArr l))
  (Hobj : forall ps, Forall (fun kv => P (snd kv)) ps -> P (JObj ps))
  : forall v, P v :=
  fix F (v : value) : P v :=
    match v with
    | JUndefined => Hundefined
    | JNull => Hnull
    | JBool b => Hbool b
    | JNum n => Hnum n
    | JStr s => Hstr s
    | JArr l =>
        Harr l ((fix G (l : list value) : Forall P l :=
                   match l with
                   | [] => Forall_nil P
                   | x :: r => Forall_cons x (F x) (G r)
                   end) l)
    | JObj ps =>
        Hobj ps ((fix G (ps : list (string * value))
                    : Forall (fun kv => P (snd kv)) ps :=
                    match ps with
                    | [] => Forall_nil _
                    | kv :: r =>
                        Forall_cons kv
                          (match kv as kv0 return P (snd kv0) with
                           | (k, x) => F x
                           end) (G r)
                    end) ps)
    end.

(** Properties in the order an object keeps them: assigning them one by one
    to an empty object gives them back (no key twice, the array-index keys
    first and ascending, the other keys in the order given). *)
Definition ordered (ps : list (string * value)) : Prop := object ps = JObj ps.

(** The JSON values of the model: no [undefined] anywhere, plain integers,
    objects with their properties in order. *)
Inductive plain : value -> Prop :=
| PlainNull : plain JNull
| PlainBool b : plain (JBool b)
| PlainNum n : plainNumber n -> plain (JNum n)
| PlainStr s : plain (JStr s)
| PlainArr l : Forall plain l -> plain (JArr l)
| PlainObj ps : ordered ps -> Forall (fun kv => plain (snd kv)) ps -> plain (JObj ps).

(** The text of an array element and of an object member, as [serialize]
    writes them. *)
Definition elementText (x : value) : string :=
  match serialize x with
  | Some t => t
  | None => "null"
  end.

Definition memberTexts (kv : string * value) : list string :=
  match serialize (snd kv) with
  | Some t => [quote (fst kv) ++ ":" ++ t]
  | None => []
  end.

Definition memberText (kv : string * value) : string :=
  quote (fst kv) ++ ":" ++ elementText (snd kv).

Definition assign (acc : list (string * value)) (kv : string * value)
  : list (string * value) :=
  setProp (fst kv) (snd kv) acc.

(** The text after a number does not go on with the number. *)
Definition endsNumber (rest : string) : bool :=
  match rest with
  | EmptyString => true
  | String c _ =>
      negb (isDigit c || Ascii.eqb c "." || Ascii.eqb c "e" || Ascii.eqb c "E")
  end.

(** What [parseValue] is shown to do with the text of a value. *)
Definition readsBack (v : value) : Prop :=
  plain v ->
  forall t, serialize v = Some t ->
  forall fuel rest,
    2 * String.length t < fuel ->
    endsNumber rest = true ->
    parseValue fuel (t ++ rest) = Some (v, rest).

(** A string of decimal digits. *)
Fixpoint digitString (s : string) : bool :=
  match s with
  | EmptyString => true
  | String c r => isDigit c && digitString r
  end.

Definition startsWithDigit (s : string) : bool :=
  match s with
  | EmptyString => false
  | String c _ => isDigit c
  end.

(** The characters that change the state of the scan for a balanced
    object. *)
Definition isScanSpecial (c : ascii) : bool :=
  Ascii.eqb c backslash || Ascii.eqb c dquote || Ascii.eqb c "{" || Ascii.eqb c "}".

Fixpoint noneSpecial (s : string) : bool :=
  match s with
  | EmptyString => true
  | String c r => negb (isScanSpecial c) && noneSpecial r
  end.

(** What the scan for a balanced object is shown to do with the text of a
    value met inside an object (at depth 1 or more, outside a string): it goes
    over it and is then in the same state. *)
Definition scannedOver (v : value) : Prop :=
  plain v ->
  forall t, serialize v = Some t ->
  forall text rest index depth start,
    (0 < depth)%Z ->
    ActionProtocol.scanObject text (t ++ rest) index depth false false start
    = ActionProtocol.scanObject text rest (String.length t + index) depth false false start.

(** Re-parsing the JSON object of an observation block: the first balanced
    object of the text, through [JSON.parse]. *)
Definition reparse (observation : string) : option value :=
  match ActionProtocol.extractFirstJsonObject observation with
  | Some block => parse block
  | None => None
  end.



End JsonSpec.

(* ================================================================== *)
(** * src/config/agentSettings.js (loading the settings) *)
(* ================================================================== *)

Module SettingsLoader.

Import Js ActionProtocol.

Local Open Scope Z_scope.

(** The settings object [loadAgentSettings] returns. *)
Record agentSettings := AgentSettings {
  maxIterations : Z;
  profile : string;
  modelVendor : string;
  modelFamily : string;
  maxReadLines : Z;
  maxListDepth : Z;
  maxSearchResults : Z;
  enableFileEditTools : bool;
  maxWriteChars : Z;
  enableCommandTool : bool;
  allowedCommands : list string;
  commandTimeoutMs : Z
}.

Definition DEFAULT_SETTINGS : agentSettings :=
  AgentSettings 6 "copilotLike" "copilot" "" 250 3 50 true 200000 true
    [ "npm test"; "npm run test"; "npm run lint"; "npm run build";
      "pnpm test"; "pnpm run test"; "pnpm run lint"; "pnpm run build";
      "yarn test"; "yarn lint"; "yarn build" ]%string
    120000.

(** [Math.trunc] of a finite number: the integer part, towards zero. *)
Definition trunc (n : number) : Z :=
  if 0 <=? expo n then mant n * 10 ^ expo n
  else Z.quot (mant n) (10 ^ (- expo n)).

(** [Array.prototype.filter(Boolean)] after the [map] of
    [normalizeStringArray]. *)
Definition normalizeStringArray (value : value) (fallback : list string) : list string :=
  match value with
  | JArr entries =>
      let normalized :=
        filterNonEmpty (map (fun entry => trim (toString (orValue entry (JStr "")))) entries) in
      match normalized with
      | [] => fallback
      | _ => normalized
      end
  | _ => fallback
  end.

Section Host.

(** [Number(value)] when that is finite, and nothing when it is [NaN] or an
    infinity: what [Number.isFinite] tells apart.  The conversion itself is
    the one of the language. *)
Variable Number : value -> option number.

(** The workspace configuration: [config.get(key)], which is [undefined] for
    a key that is not set. *)
Variable config : string -> value.

Definition clampInteger (value : value) (min max fallback : Z) : Z :=
  match Number value with
  | None => fallback
  | Some numeric =>
      let asInteger := trunc numeric in
      Z.min max (Z.max min asInteger)
  end.

(** [config.get(key, defaultValue)]: the default stands in for
    [undefined]. *)
Definition getOr (key : string) (defaultValue : value) : value :=
  match config key with
  | JUndefined => defaultValue
  | v => v
  end.

Definition loadAgentSettings : agentSettings :=
  {| maxIterations :=
       clampInteger (config "maxIterations") 1 20 (maxIterations DEFAULT_SETTINGS);
     profile :=
       toString (orValue (getOr "profile" (JStr (profile DEFAULT_SETTINGS)))
                         (JStr (profile DEFAULT_SETTINGS)));
     modelVendor :=
       toString (orValue (getOr "modelVendor" (JStr (modelVendor DEFAULT_SETTINGS)))
                         (JStr (modelVendor DEFAULT_SETTINGS)));
     modelFamily :=
       trim (toString (orValue (getOr "modelFamily" (JStr (modelFamily DEFAULT_SETTINGS)))
                               (JStr (modelFamily DEFAULT_SETTINGS))));
     maxReadLines :=
       clampInteger (config "maxReadLines") 20 2000 (maxReadLines DEFAULT_SETTINGS);
     maxListDepth :=
       clampInteger (config "maxListDepth") 1 8 (maxListDepth DEFAULT_SETTINGS);
     maxSearchResults :=
       clampInteger (config "maxSearchResults") 5 300 (maxSearchResults DEFAULT_SETTINGS);
     enableFileEditTools :=
       truthy (getOr "enableFileEditTools" (JBool (enableFileEditTools DEFAULT_SETTINGS)));
     maxWriteChars :=
       clampInteger (config "maxWriteChars") 1000 2000000 (maxWriteChars DEFAULT_SETTINGS);
     enableCommandTool :=
       truthy (getOr "enableCommandTool" (JBool (enableCommandTool DEFAULT_SETTINGS)));
     allowedCommands :=
       normalizeStringArray (config "allowedCommands") (allowedCommands DEFAULT_SETTINGS);
     commandTimeoutMs :=
       clampInteger (config "commandTimeoutMs") 1000 900000
         (commandTimeoutMs DEFAULT_SETTINGS) |}.

End Host.

(** The settings as the runner and the registry read them. *)
Definition runtimeSettings (s : agentSettings) : AgentSettings.settings :=
  AgentSettings.Settings (Z.to_nat (maxIterations s)) (enableFileEditTools s)
    (enableCommandTool s).

End SettingsLoader.

(* ================================================================== *)
(** * src/agent/modelClient.js (the choice of the model) *)
(* ================================================================== *)

Module ModelSelection.

Import Js Host ActionProtocol.

(** A value of the host as [getModel] sees it: a chat model of the language
    model API, whose [sendRequest] is a function, or any other value. *)
Inductive hostValue : Type :=
| ChatModel (info : value)
| Other (v : value).

Definition isUsableModel (model : hostValue) : bool :=
  match model with
  | ChatModel _ => true
  | Other _ => false
  end.

(** The settings a [ModelClient] reads. *)
Record selectionSettings := SelectionSettings {
  modelVendor : value;
  modelFamily : value
}.

(** The fields of a [ModelClient], and the selectors it has passed to
    [vscode.lm.selectChatModels] so far.  [modelPromise] is the promise with
    what it settles to. *)
Record modelClient := ModelClient {
  settings : selectionSettings;
  modelPromise : option (outcome hostValue);
  selections : list value
}.

(** [vscode.lm.selectChatModels(selector)] at the [n]-th call: an exception,
    an array of models, or something that is no array. *)
Definition languageModels : Type := nat -> value -> outcome (option (list hostValue)).

Definition updateSettings (settings : selectionSettings) (this : modelClient)
  : modelClient :=
  ModelClient settings None (selections this).

Definition selectorOf (this : modelClient) : value :=
  let selector := [("vendor", orValue (modelVendor (settings this)) (JStr "copilot"))] in
  let selector :=
    if truthy (modelFamily (settings this))
    then setProp "family" (modelFamily (settings this)) selector
    else selector in
  JObj selector.

Definition noModelAvailable (selector : value) : thrown :=
  ErrorObject "Error"
    ("No language model available for selector: " ++ toString (stringify selector)).

Definition selectModel (lm : languageModels) (this : modelClient)
  : outcome hostValue * modelClient :=
  let selector := selectorOf this in
  let this' := ModelClient (settings this) (modelPromise this)
                 (selections this ++ [selector])%list in
  match lm (List.length (selections this)) selector with
  | Throws e => (Throws e, this')
  | Returns (Some (first :: _)) => (Returns first, this')
  | Returns _ => (Throws (noModelAvailable selector), this')
  end.

Definition getModel (lm : languageModels) (preferredModel : hostValue)
  (this : modelClient) : outcome hostValue * modelClient :=
  if isUsableModel preferredModel then (Returns preferredModel, this)
  else
    match modelPromise this with
    | Some promise => (promise, this)
    | None =>
        let (promise, this') := selectModel lm this in
        (promise, ModelClient (settings this') (Some promise) (selections this'))
    end.

Definition resolveModel := getModel.

End ModelSelection.

(* ================================================================== *)
(** * src/tools/runCommandTool.js *)
(* ================================================================== *)

Module RunCommandTool.

Import Js Host ActionProtocol.

Definition MAX_OUTPUT_CHARS : nat := N.to_nat 12000.

Definition isAllowlisted (command : string) (allowlist : list value) : bool :=
  let normalizedCommand := toLowerCase command in
  existsb (fun entry =>
             let prefix := toLowerCase (trim (toString (orValue entry (JStr "")))) in
             negb (isEmpty prefix)
             && (String.eqb normalizedCommand prefix
                 || startsWith (prefix ++ " ") normalizedCommand))
          allowlist.

Definition trimOutput (text : string) : string :=
  if (String.length text <=? MAX_OUTPUT_CHARS)%nat then text
  else substring 0 MAX_OUTPUT_CHARS text ++ newline ++ "...output truncated...".

(** What [execAsync] gives: the two streams, or a rejection with an [Error]
    that may carry the streams and has a message. *)
Inductive execResult : Type :=
| Resolved (stdout stderr : string)
| Rejected (stdout stderr : value) (message : string).

(** The host of the tool: the workspace root ([getWorkspaceRootPath], which
    throws without a workspace folder) and the shell, given the command and
    the directory. *)
Record shell := Shell {
  workspaceRoot : outcome string;
  exec : string -> string -> execResult
}.

(** [execute(input)] of the tool built for the settings with these
    [allowedCommands]. *)
Definition execute (allowedCommands : list value) (host : shell) (input : value)
  : outcome value :=
  let command := match get input "command" with
                 | JStr c => trim c
                 | _ => ""
                 end in
  if isEmpty command then
    Throws (ErrorObject "Error" (q "run_command requires 'command'."))
  else if negb (isAllowlisted command allowedCommands) then
    Throws (ErrorObject "Error" ("Command is not allowlisted: " ++ command))
  else
    match workspaceRoot host with
    | Throws e => Throws e
    | Returns cwd =>
        match exec host command cwd with
        | Resolved stdout stderr =>
            let combinedOutput := trim (join newline (filterNonEmpty [stdout; stderr])) in
            Returns (JObj [("ok", JBool true);
                           ("output",
                            JStr (trimOutput
                                    (if negb (isEmpty combinedOutput) then combinedOutput
                                     else "(command completed with no output)")))])
        | Rejected errorStdout errorStderr message =>
            let stderr := stringOr errorStderr "" in
            let stdout := stringOr errorStdout "" in
            let fallbackMessage :=
              if negb (isEmpty message) then message else "Unknown command failure" in
            let combined := trim (join newline (filterNonEmpty [stdout; stderr])) in
            let combinedError :=
              if negb (isEmpty combined) then combined else fallbackMessage in
            Returns (JObj [("ok", JBool false);
                           ("output", JStr (trimOutput combinedError));
                           ("error", JStr ("Command failed: " ++ combinedError))])
        end
    end.

End RunCommandTool.

(* ================================================================== *)
(** * The text functions of the edit_file tool *)
(* ================================================================== *)

Module EditFileTool.

Import Js.

(** [s.slice(n)], for [n] from 0 to the length of [s]. *)
Fixpoint drop (n : nat) (s : string) : string :=
  match n, s with
  | O, _ => s
  | S n', String _ r => drop n' r
  | S _, EmptyString => EmptyString
  end.

(** [String.prototype.indexOf]: the scan from the position [index], where
    [s] is the text from that position on; [None] stands for -1. *)
Fixpoint indexOfFrom (search s : string) (index : nat) : option nat :=
  if startsWith search s then Some index
  else
    match s with
    | EmptyString => None
    | String _ r => indexOfFrom search r (S index)
    end.

(** [value.indexOf(search, startIndex)], for a start within the text. *)
Definition indexOf (value search : string) (startIndex : nat) : option nat :=
  indexOfFrom search (drop startIndex value) startIndex.

Definition replaceFirst (value oldString newString : string) : string :=
  match indexOf value oldString 0 with
  | None => value
  | Some index =>
      substring 0 index value ++ newString
        ++ drop (index + String.length oldString) value
  end.

(** The loop of [countOccurrences]: [fuel] bounds the number of rounds, and
    the loop that has none left gives nothing. *)
Fixpoint countFrom (fuel : nat) (value search : string) (count startIndex : nat)
  : option nat :=
  match fuel with
  | O => None
  | S fuel' =>
      match indexOf value search startIndex with
      | None => Some count
      | Some index =>
          countFrom fuel' value search (count + 1) (index + String.length search)
      end
  end.

Definition countOccurrences (value search : string) : option nat :=
  if isEmpty search then Some 0
  else countFrom (S (String.length value)) value search 0 0.

End EditFileTool.

(* ================================================================== *)
(** * Notions used to state further properties *)
(* ================================================================== *)

Module PropertySpec.

Import Js Host AgentSettings ActionProtocol HistoryAdapter.
Import ToolRegistry ModelClient AgentModeRunner Trace.

(** The line of the transcript for a message: its role, a colon and its
    text. *)
Definition transcriptLine (m : message) : string :=
  match messageRole m with
  | User => "User: " ++ messageText m
  | Assistant => "Assistant: " ++ messageText m
  end.

(** A value whose properties can be read: reading a property of
    [undefined] or [null] throws. *)
Definition readable (v : value) : bool :=
  match v with
  | JUndefined | JNull => false
  | _ => true
  end.

(** [request && request.command], and the command and the prompt as the flows
    of [handleRequest] read them. *)
Definition commandOf (request : value) : value :=
  andValue request (get request "command").

Definition commandName (request : value) : string :=
  normalizeCommand (commandOf request).

(** One exchange of the loop in the transcript: the reply of the model, then
    what the loop answers to it. *)
Definition exchange (p : string * string) : list message :=
  [Message Assistant (fst p); Message User (snd p)].

(** The warning of [handleRequest] when the loop has run out. *)
Definition limitWarning (this : runner) : string :=
  "Reached iteration limit ("
    ++ digits (N.of_nat (maxIterations (runnerSettings this)))
    ++ "). Returning best effort response.".

(** The factories give their tools the names the sources give them
    ([name: 'list_files'] in [createListFilesTool], and so on). *)
Definition namedAsInSources (f : factories) : Prop :=
  forall s : settings,
    name (createListFilesTool f s) = "list_files"
    /\ name (createReadFileTool f s) = "read_file"
    /\ name (createSearchTextTool f s) = "search_text"
    /\ name (createWebSearchTool f s) = "web_search"
    /\ name (createHelloWorldTool f s) = "hello_world"
    /\ name (createWriteFileTool f s) = "write_file"
    /\ name (createEditFileTool f s) = "edit_file"
    /\ name (createRunCommandTool f s) = "run_command".

(** Calls of [getModel] one after the other, for a list of preferred
    models: what each call gives, and the client after the last. *)
Fixpoint getModels (lm : ModelSelection.languageModels)
  (preferred : list ModelSelection.hostValue) (this : ModelSelection.modelClient)
  : list (outcome ModelSelection.hostValue) * ModelSelection.modelClient :=
  match preferred with
  | [] => ([], this)
  | p :: rest =>
      let (r, this1) := ModelSelection.getModel lm p this in
      let (rs, this2) := getModels lm rest this1 in
      (r :: rs, this2)
  end.

(** The prefix an entry of the allowlist stands for: the entry as a string,
    trimmed, in lower case. *)
Definition allowPrefix (entry : value) : string :=
  toLowerCase (trim (toString (orValue entry (JStr "")))).

(** The command [run_command] reads from its input. *)
Definition commandInput (input : value) : string :=
  match get input "command" with
  | JStr c => trim c
  | _ => ""
  end.

(** The [run_command] tool over a shell, as [createRunCommandTool] builds it
    for its settings. *)
Definition runCommandTool (allowedCommands : list value) (host : RunCommandTool.shell)
  : tool :=
  MkTool "run_command" "Run an allowlisted shell command from workspace root."
    (JObj [("type", JStr "object");
           ("properties",
            JObj [("command", JObj [("type", JStr "string");
                                    ("description", JStr "Allowlisted command to execute.")])]);
           ("required", JArr [JStr "command"])])
    (fun _ input _ => RunCommandTool.execute allowedCommands host input).




(** The occurrences of a text in another, found from left to right without
    overlap: none when it does not occur; otherwise the first occurrence, and
    those of the text after it. *)
Inductive occurrences (search : string) : string -> nat -> Prop :=
| NoOccurrence value :
    includes search value = false -> occurrences search value 0
| FirstOccurrence before after n :
    (forall before' after',
       before ++ search ++ after = before' ++ search ++ after' ->
       String.length before <= String.length before') ->
    occurrences search after n ->
    occurrences search (before ++ search ++ after) (S n).

End PropertySpec.

(* ================================================================== *)
(** * Facts about strings *)
(* ================================================================== *)

Section StringFacts.

Lemma append_nil_r (s : string) : s ++ "" = s.
Proof. induction s as [|c s IH]; simpl; [reflexivity | now rewrite IH]. Qed.

Lemma append_assoc (a b c : string) : (a ++ b) ++ c = a ++ (b ++ c).
Proof. induction a as [|x a IH]; simpl; [reflexivity | now rewrite IH]. Qed.

Lemma length_append (a b : string) :
  String.length (a ++ b) = String.length a + String.length b.
Proof. induction a as [|x a IH]; simpl; [reflexivity | now rewrite IH]. Qed.


End StringFacts.

(* ================================================================== *)
(** * Properties of the action protocol codec *)
(* ================================================================== *)

Section Codec.

Import Js Regex ActionProtocol JsonSpec Scenario.

(** C7.  [parseAgentAction] reads the text [{"type":"final","content":"done"}]
    as the final action with content "done"; it reads a [```json] fenced
    block around [{"type":"tool","tool":"search_text","input":{"query":"x"}}]
    as the tool action [search_text] with input [{query:"x"}]; and it reads
    [noise {"type":"tool","tool":"t"} trailing] as the tool action [t] with an
    empty input object, the only candidate being the one the balanced-brace
    scan finds (the text does not start with a brace and has no fence). *)
Theorem parseAgentAction_examples :
  parseAgentAction finalText = Some (Final "done")
  /\ parseAgentAction fencedText
     = Some (Tool "search_text" (JObj [("query", JStr "x")]))
  /\ parseAgentAction proseText = Some (Tool "t" (JObj []))
  /\ startsWith "{" (trim proseText) = false
  /\ matchAll fencedBlock (trim proseText) = None
  /\ extractFirstJsonObject (trim proseText) = Some (q "{'type':'tool','tool':'t'}")
  /\ collectJsonCandidates proseText = [q "{'type':'tool','tool':'t'}"].
Proof.
  repeat split; vm_compute; reflexivity.
Qed.

Lemma object_test (v : value) :
  truthy v && typeofObject v = isObjectValue v.
Proof. destruct v as [| |[]| | | |]; try reflexivity; simpl; now rewrite andb_false_r. Qed.



End Codec.

(* ================================================================== *)
(** * Properties of the tool registry *)
(* ================================================================== *)

Section Registry.

Import Js Host AgentSettings ActionProtocol ToolRegistry.

Lemma startsWith_append (p s : string) : startsWith p (p ++ s) = true.
Proof.
  induction p as [|c p IH]; simpl; [reflexivity|].
  now rewrite Ascii.eqb_refl, IH.
Qed.

Lemma startsWith_append_r (p s t : string) :
  startsWith p s = true -> startsWith p (s ++ t) = true.
Proof.
  revert s; induction p as [|c p IH]; intros s H; simpl in *; [reflexivity|].
  destruct s as [|d s]; [discriminate|]. simpl.
  apply andb_prop in H as [H1 H2]. now rewrite H1, (IH _ H2).
Qed.

Lemma includes_append_l (p a s : string) :
  includes p s = true -> includes p (a ++ s) = true.
Proof.
  intros H; induction a as [|c a IH]; simpl; [exact H|].
  rewrite IH. apply orb_true_r.
Qed.

Lemma includes_append_r (p s t : string) :
  includes p s = true -> includes p (s ++ t) = true.
Proof.
  induction s as [|c s IH]; simpl; intros H.
  - rewrite orb_false_r in H. destruct p; [|discriminate].
    destruct t; reflexivity.
  - apply orb_prop in H as [H|H].
    + assert (H' := startsWith_append_r p (String c s) t H).
      simpl in H'. rewrite H'. reflexivity.
    + rewrite (IH H). apply orb_true_r.
Qed.

Lemma includes_self (p : string) : includes p p = true.
Proof.
  destruct p as [|c p]; [reflexivity|].
  assert (H := startsWith_append (String c p) "").
  rewrite append_nil_r in H.
  simpl in *. now rewrite H.
Qed.

Lemma includes_join (sep n : string) (names : list string) :
  In n names -> includes n (join sep names) = true.
Proof.
  induction names as [|x r IH]; [intros []|].
  intros [->|Hin].
  - destruct r; simpl join.
    + apply includes_self.
    + apply includes_append_r, includes_self.
  - destruct r as [|y r]; [destruct Hin|].
    change (join sep (x :: y :: r)) with (x ++ sep ++ join sep (y :: r)).
    apply includes_append_l, includes_append_l, IH, Hin.
Qed.

Lemma mapGet_absent (k : string) (m : toolMap) :
  ~ In k (map fst m) -> mapGet k m = None.
Proof.
  induction m as [|[k' t] m IH]; simpl; intros H; [reflexivity|].
  destruct (String.eqb_spec k k') as [->|Hne]; [exfalso; apply H; now left|].
  apply IH. intros Hin. apply H. now right.
Qed.

(** C8.  [execute] always returns a result, never an exception.  For a tool
    name that is not registered the result is the failure [{ok:false,
    output:'', error}] whose error reads [Unknown tool "<name>". Available:
    <names>] and contains every registered name.  For a registered tool whose
    own [execute] throws, the result is the failure whose error is the
    message of the exception (its text form when it has no message). *)
Theorem execute_never_throws :
  forall (r : registry) (log : list event) (toolName : string) (input : value)
         (context : context),
    (exists result, execute r log toolName input context = Returns result)
    /\ (~ In toolName (getToolNames r) ->
        execute r log toolName input context
        = Returns (failure (JStr (unknownToolMessage r toolName)))
        /\ get (failure (JStr (unknownToolMessage r toolName))) "ok" = JBool false
        /\ forall n, In n (getToolNames r) ->
                     includes n (unknownToolMessage r toolName) = true)
    /\ (forall (tool : tool) (error : thrown),
          mapGet toolName (tools r) = Some tool ->
          toolExecute tool log (orValue input emptyObject)
            (Context (ctxRequest context) (ctxHistory context) (Some (settingsOf r)))
          = Throws error ->
          execute r log toolName input context = Returns (failure (errorMessage error))
          /\ get (failure (errorMessage error)) "ok" = JBool false
          /\ get (failure (errorMessage error)) "error" = errorMessage error).
Proof.
  intros r log toolName input context. split; [|split].
  - unfold execute. destruct (mapGet toolName (tools r)) as [t|]; [|eauto].
    destruct (toolExecute t _ _ _); eauto.
  - intros Habs. split; [|split].
    + unfold execute. now rewrite (mapGet_absent _ _ Habs).
    + reflexivity.
    + intros n Hin. unfold unknownToolMessage.
      repeat apply includes_append_l.
      now apply includes_join.
  - intros t error Hget Hthrow. unfold execute. rewrite Hget, Hthrow.
    repeat split.
Qed.

(** A closed instance of C8: an unknown name, and a tool that throws. *)
Lemma execute_never_throws_witness :
  execute Scenario.demoRegistry [] "nope" JUndefined (Context JNull JNull None)
  = Returns (failure (JStr (unknownToolMessage Scenario.demoRegistry "nope")))
  /\ execute Scenario.demoRegistry [] "write_file" JUndefined (Context JNull JNull None)
     = Returns (failure (JStr "disk full")).
Proof.
  destruct (execute_never_throws Scenario.demoRegistry [] "nope" JUndefined
              (Context JNull JNull None)) as (_ & Hunknown & _).
  destruct (execute_never_throws Scenario.demoRegistry [] "write_file" JUndefined
              (Context JNull JNull None)) as (_ & _ & Hthrows).
  split.
  - apply Hunknown. vm_compute. intuition discriminate.
  - apply (Hthrows (Scenario.failingTool "write_file") (ErrorObject "Error" "disk full"));
      reflexivity.
Defined.

End Registry.

(* ================================================================== *)
(** * Properties of the transcript builder *)
(* ================================================================== *)

Section Transcript.

Import Js HistoryAdapter TranscriptSpec.

Lemma object_guard (v : value) :
  negb (truthy v) || negb (typeofObject v) = negb (isObjectLike v).
Proof. destruct v as [| |[]| | | |]; simpl; try reflexivity; apply orb_true_r. Qed.

Lemma extractResponsePartText_fragmentText (part : value) :
  extractResponsePartText part = fragmentText part.
Proof.
  unfold extractResponsePartText, fragmentText.
  rewrite object_guard. destruct (isObjectLike part); simpl; [|reflexivity].
  destruct (get part "value") as [| |b|n|s|l|ps]; simpl; try reflexivity.
  - destruct b; reflexivity.
  - destruct (mant n =? 0)%Z; reflexivity.
  - destruct (match lookup "value" ps with Some x => x | None => JUndefined end);
      reflexivity.
Qed.

Lemma pushTurn_turnMessages (messages : list message) (turn : value) :
  pushTurn (Message User) (Message Assistant) messages turn
  = (messages ++ turnMessages turn)%list.
Proof.
  unfold pushTurn, turnMessages, extractRequestText, extractResponseText, responseMessages.
  rewrite object_guard.
  destruct (isObjectLike turn); simpl; [|now rewrite List.app_nil_r].
  assert (Hresp :
    (if negb (isEmpty
         match get turn "response" with
         | JArr response =>
             trim (join newline (filterNonEmpty (map extractResponsePartText response)))
         | _ => ""
         end)
     then (messages ++
           [Message Assistant
              match get turn "response" with
              | JArr response =>
                  trim (join newline (filterNonEmpty (map extractResponsePartText response)))
              | _ => ""
              end])%list
     else messages)
    = (messages ++
       match get turn "response" with
       | JArr fragments =>
           match trim (join newline (filterNonEmpty (map fragmentText fragments))) with
           | EmptyString => []
           | String c r => [Message Assistant (String c r)]
           end
       | _ => []
       end)%list).
  { destruct (get turn "response") as [| | | | |l|]; simpl; try now rewrite List.app_nil_r.
    rewrite (map_ext _ _ extractResponsePartText_fragmentText).
    destruct (trim _); simpl; [now rewrite List.app_nil_r | reflexivity]. }
  destruct (get turn "prompt") as [| | | |p| |]; try exact Hresp.
  destruct (trim p); [exact Hresp | reflexivity].
Qed.

Lemma fold_pushTurn (turns : list value) (messages : list message) :
  fold_left (pushTurn (Message User) (Message Assistant)) turns messages
  = (messages ++ flat_map turnMessages turns)%list.
Proof.
  revert messages; induction turns as [|t turns IH]; intros messages; simpl.
  - now rewrite List.app_nil_r.
  - now rewrite IH, pushTurn_turnMessages, <- List.app_assoc.
Qed.

Lemma turnMessages_at_most_one (turn : value) : List.length (turnMessages turn) <= 1.
Proof.
  unfold turnMessages, responseMessages.
  assert (H : List.length
    match get turn "response" with
    | JArr fragments =>
        match trim (join newline (filterNonEmpty (map fragmentText fragments))) with
        | EmptyString => []
        | String c r => [Message Assistant (String c r)]
        end
    | _ => []
    end <= 1).
  { destruct (get turn "response"); simpl; try lia. destruct (trim _); simpl; lia. }
  destruct (isObjectLike turn); simpl; [|lia].
  destruct (get turn "prompt"); try exact H.
  destruct (trim _); [exact H | simpl; lia].
Qed.

(** C5, as the code has it.  For every history list, [toModelMessages] is the
    concatenation, in the order of the turns, of what each turn gives by
    itself: one user message with the trimmed prompt when the prompt is a
    string that is not blank; otherwise one assistant message with the
    non-empty fragment texts joined by line breaks and trimmed, when that is
    not empty; otherwise nothing.  The fragment shapes [{value: string}],
    [{value: {value: string}}] and [{text: string}] give their string; a
    plain string gives nothing. *)
Theorem toModelMessages_per_turn :
  forall turns : list value,
    toModelMessages (JArr turns) = flat_map turnMessages turns
    /\ List.length (toModelMessages (JArr turns)) <= List.length turns
    /\ (forall s, extractResponsePartText (JObj [("value", JStr s)]) = s)
    /\ (forall s, extractResponsePartText (JObj [("value", JObj [("value", JStr s)])]) = s)
    /\ (forall s, extractResponsePartText (JObj [("text", JStr s)]) = s)
    /\ (forall s, extractResponsePartText (JStr s) = "").
Proof.
  intros turns.
  assert (Heq : toModelMessages (JArr turns) = flat_map turnMessages turns).
  { unfold toModelMessages. now rewrite fold_pushTurn. }
  split; [exact Heq|]. split.
  - rewrite Heq. clear Heq. induction turns as [|t turns IH]; simpl; [lia|].
    rewrite List.length_app. pose proof (turnMessages_at_most_one t). lia.
  - repeat split; intros s; try reflexivity.
    unfold extractResponsePartText. simpl. destruct s; reflexivity.
Qed.

(** C5 as stated fails: a response made of the plain string "hello" gives no
    message, where the description promises the assistant message "hello". *)
Lemma plain_string_fragment_is_dropped :
  toModelMessages (JArr [JObj [("response", JArr [JStr "hello"])]]) = []
  /\ statedMessages [JObj [("response", JArr [JStr "hello"])]]
     = [Message Assistant "hello"].
Proof. split; reflexivity. Qed.

End Transcript.

(* ================================================================== *)
(** * Properties of the agent loop *)
(* ================================================================== *)

Section Loop.

Import Js Host AgentSettings ActionProtocol HistoryAdapter.
Import ToolRegistry ModelClient AgentModeRunner Trace LoopSpec.

Lemma execute_returns (r : registry) log toolName input context :
  exists result, execute r log toolName input context = Returns result.
Proof.
  unfold execute. destruct (mapGet toolName (tools r)) as [t|]; [|eauto].
  destruct (toolExecute t _ _ _); eauto.
Qed.

Lemma app_one {A} (l : list A) (a : A) (r : list A) :
  ((l ++ [a]) ++ r = l ++ a :: r)%list.
Proof. now rewrite <- List.app_assoc. Qed.

(** Every pass of the loop is one of the steps of [stepped]. *)
Ltac run_effects :=
  unfold warning, markdown, progress, emit, ret, callTool;
  cbn -[blockedObservation formatToolObservation toolSignature execute trim get
        parseAgentAction looksLikeSearchCapabilityRefusal String.append
        nonJsonWarning refusalWarning refusalGuidance invalidFormatMessage];
  rewrite <- ?List.app_assoc; cbn [List.app].

Ltac flatten_log := rewrite <- ?List.app_assoc; cbn [List.app].

Ltac same_messages :=
  cbn -[blockedObservation formatToolObservation toolSignature String.append
        refusalGuidance invalidFormatMessage];
  rewrite <- ?List.app_assoc; reflexivity.

(** Every pass of the loop is one of the steps of [stepped]. *)
Lemma iteration_stepped (this : runner) (request chatContext selectedModel : value)
  (st : loopState) (log : list event) :
  exists reply ev o,
    iteration this request chatContext selectedModel st log
    = (o, (log ++ ModelRequest (modelMessages st) reply :: ev)%list)
    /\ reply = match sendRequest (modelClient this) log (modelMessages st) selectedModel with
               | Returns text => Returns (trim text)
               | Throws e => Throws e
               end
    /\ stepped st ev reply o.
Proof.
  unfold iteration, bind, complete.
  destruct (sendRequest (modelClient this) log (modelMessages st) selectedModel)
    as [text|e].
  2:{ exists (Throws e), [], (Throws e). repeat split. constructor. }
  set (raw := trim text).
  exists (Returns raw).
  destruct (parseAgentAction raw) as [[tool input|content]|] eqn:Hparse.
  - (* a tool action *)
    cbn [previousToolSignature setParseFailureCount pushMessage
         repeatedToolCallCount setRepeatedToolCallCount setPreviousToolSignature].
    destruct (execute_returns (toolRegistry this)
                (log ++ [ModelRequest (modelMessages st) (Returns raw);
                         Progress ("Running tool: " ++ tool)])%list
                tool input (Context request (get chatContext "history") None))
      as [result Hres].
    destruct (String.eqb_spec (toolSignature tool input) (previousToolSignature st))
      as [Hsig|Hsig];
      cbn [previousToolSignature setParseFailureCount pushMessage
           repeatedToolCallCount setRepeatedToolCallCount setPreviousToolSignature].
    + destruct (Nat.ltb_spec 2 (repeatedToolCallCount st + 1)) as [Hrep|Hrep].
      * eexists _, _. run_effects. repeat split.
        eapply CallBlocked; eauto; try reflexivity; try lia. same_messages.
      * eexists _, _. run_effects. rewrite Hres. flatten_log. repeat split.
        eapply ToolRun; eauto; try reflexivity.
        -- right. lia.
        -- cbn -[toolSignature]. rewrite Hsig, String.eqb_refl. reflexivity.
        -- same_messages.
    + eexists _, _. run_effects. rewrite Hres. flatten_log. repeat split.
      eapply ToolRun; eauto; try reflexivity.
      * cbn -[toolSignature].
        destruct (String.eqb_spec (toolSignature tool input) (previousToolSignature st));
          [contradiction | reflexivity].
      * same_messages.
  - (* a final action *)
    cbn [capabilityRefusalRetryCount setParseFailureCount pushMessage].
    destruct (looksLikeSearchCapabilityRefusal content) eqn:Hlooks; cbn [andb].
    + destruct (Nat.ltb_spec (capabilityRefusalRetryCount st) 1) as [Hcap|Hcap].
      * eexists _, _. run_effects. repeat split.
        eapply RefusalRetry; eauto; try reflexivity; cbn; try lia. same_messages.
      * eexists _, _. run_effects. repeat split.
        eapply FinalEmitted; eauto.
    + eexists _, _. run_effects. repeat split.
      eapply FinalEmitted; eauto.
  - (* no action *)
    cbn [parseFailureCount setParseFailureCount pushMessage].
    destruct (Nat.leb_spec 2 (parseFailureCount st + 1)) as [Hpf|Hpf].
    + eexists _, _. run_effects. repeat split.
      eapply RawEmitted; eauto. lia.
    + eexists _, _. run_effects. repeat split.
      eapply FormatRetry; eauto; try reflexivity; cbn; try lia. same_messages.
Qed.

(** ** Rules for [runs] *)

Lemma runs_weaken {A} (m : M A) (P Q : list event -> outcome A -> Prop) :
  runs m P -> (forall ev o, P ev o -> Q ev o) -> runs m Q.
Proof.
  intros Hm HPQ log. destruct (Hm log) as (o & ev & Heq & HP). eauto.
Qed.

Lemma runs_conj {A} (m : M A) (P Q : list event -> outcome A -> Prop) :
  runs m P -> runs m Q -> runs m (fun ev o => P ev o /\ Q ev o).
Proof.
  intros HP HQ log.
  destruct (HP log) as (o & ev & Heq & Hp), (HQ log) as (o' & ev' & Heq' & Hq).
  rewrite Heq in Heq'. injection Heq' as <- Hev.
  apply List.app_inv_head in Hev as <-. eauto.
Qed.

Lemma runs_ret {A} (a : A) (P : list event -> outcome A -> Prop) :
  P [] (Returns a) -> runs (ret a) P.
Proof. intros HP log. exists (Returns a), []. now rewrite List.app_nil_r. Qed.

Lemma runs_throw {A} (e : thrown) (P : list event -> outcome A -> Prop) :
  P [] (Throws e) -> runs (throw e) P.
Proof. intros HP log. exists (Throws e), []. now rewrite List.app_nil_r. Qed.

Lemma runs_emit (e : event) (P : list event -> outcome unit -> Prop) :
  P [e] (Returns tt) -> runs (emit e) P.
Proof. intros HP log. exists (Returns tt), [e]. now split. Qed.

Lemma runs_bind {A B} (m : M A) (k : A -> M B)
  (P : list event -> outcome A -> Prop) (Q : A -> list event -> outcome B -> Prop)
  (R : list event -> outcome B -> Prop) :
  runs m P ->
  (forall a, runs (k a) (Q a)) ->
  (forall ev1 a ev2 o, P ev1 (Returns a) -> Q a ev2 o -> R (ev1 ++ ev2)%list o) ->
  (forall ev e, P ev (Throws e) -> R ev (Throws e)) ->
  runs (bind m k) R.
Proof.
  intros Hm Hk Hret Hthrow log. unfold bind.
  destruct (Hm log) as (o & ev & Heq & HP). rewrite Heq.
  destruct o as [a|e].
  - destruct (Hk a (log ++ ev)%list) as (o' & ev' & Heq' & HQ).
    exists o', (ev ++ ev')%list. rewrite Heq', List.app_assoc. eauto.
  - exists (Throws e), ev. eauto.
Qed.

Lemma runs_tryCatch {A} (body : M A) (handler : thrown -> M A)
  (P : list event -> outcome A -> Prop) (Q : thrown -> list event -> outcome A -> Prop)
  (R : list event -> outcome A -> Prop) :
  runs body P ->
  (forall e, runs (handler e) (Q e)) ->
  (forall ev a, P ev (Returns a) -> R ev (Returns a)) ->
  (forall ev1 e ev2 o, P ev1 (Throws e) -> Q e ev2 o -> R (ev1 ++ ev2)%list o) ->
  runs (tryCatch body handler) R.
Proof.
  intros Hm Hh Hret Hthrow log. unfold tryCatch.
  destruct (Hm log) as (o & ev & Heq & HP). rewrite Heq.
  destruct o as [a|e].
  - exists (Returns a), ev. eauto.
  - destruct (Hh e (log ++ ev)%list) as (o' & ev' & Heq' & HQ).
    exists o', (ev ++ ev')%list. rewrite Heq', List.app_assoc. eauto.
Qed.

Lemma runs_complete (c : client) (messages : list message) (model : value) :
  runs (complete c messages model)
    (fun ev o => ev = [ModelRequest messages o]).
Proof. intros log. unfold complete. eauto. Qed.

Lemma runs_resolveModel (c : client) (preferred : value) :
  runs (resolveModel c preferred) (fun ev _ => ev = []).
Proof.
  intros log. unfold resolveModel. eexists _, []. now rewrite List.app_nil_r.
Qed.

Lemma runs_callTool (this : runner) (request chatContext : value) (t : string)
  (input : value) :
  runs (callTool this request chatContext t input)
    (fun ev o => exists result, o = Returns result
                                /\ ev = [ToolCall t input (Returns result)]).
Proof.
  intros log. unfold callTool.
  destruct (execute_returns (toolRegistry this) log t input
              (Context request (get chatContext "history") None)) as [result Hres].
  rewrite Hres. eexists _, _. split; [reflexivity|]. eauto.
Qed.

(** The rule of the loop: a property of the passes that holds when no pass is
    left, and that every kind of pass carries from the rest of the loop to
    the whole, holds of the loop. *)
Lemma runs_iterations (this : runner) (request chatContext selectedModel : value)
  (P : nat -> loopState -> list event -> outcome (loopState + value) -> Prop) :
  (forall st, P 0 st [] (Returns (inl st))) ->
  (forall n st reply ev e,
      stepped st ev reply (Throws e) ->
      P (S n) st (ModelRequest (modelMessages st) reply :: ev) (Throws e)) ->
  (forall n st reply ev result,
      stepped st ev reply (Returns (Return result)) ->
      P (S n) st (ModelRequest (modelMessages st) reply :: ev) (Returns (inr result))) ->
  (forall n st reply ev st' ev' o,
      stepped st ev reply (Returns (Continue st')) ->
      P n st' ev' o ->
      P (S n) st (ModelRequest (modelMessages st) reply :: ev ++ ev')%list o) ->
  forall n st,
    runs (iterations this request chatContext selectedModel n st) (P n st).
Proof.
  intros Hzero Hthrow Hreturn Hcontinue.
  induction n as [|n IH]; intros st log.
  - exists (Returns (inl st)), []. simpl. unfold ret. now rewrite List.app_nil_r.
  - simpl. unfold bind.
    destruct (iteration_stepped this request chatContext selectedModel st log)
      as (reply & ev & o & Heq & _ & Hstep).
    rewrite Heq. destruct o as [[st'|result]|e].
    + destruct (IH st' (log ++ ModelRequest (modelMessages st) reply :: ev)%list)
        as (o' & ev' & Heq' & HP).
      exists o', (ModelRequest (modelMessages st) reply :: ev ++ ev')%list.
      rewrite Heq'. split; [|eauto].
      rewrite <- List.app_assoc. reflexivity.
    + unfold ret. eauto.
    + eauto.
Qed.

(** ** Counting the calls of the model (C2) *)

Lemma modelCalls_app (a b : list event) :
  modelCalls (a ++ b) = modelCalls a + modelCalls b.
Proof. unfold modelCalls. now rewrite filter_app, List.length_app. Qed.

Lemma stepped_modelCalls st ev reply o : stepped st ev reply o -> modelCalls ev = 0.
Proof. destruct 1; reflexivity. Qed.

Lemma answered_app (ev1 ev2 : list event) (result : value) :
  answered ev2 result -> answered (ev1 ++ ev2) result.
Proof.
  intros (-> & pre & text & ->). split; [reflexivity|].
  exists (ev1 ++ pre)%list, text. now rewrite List.app_assoc.
Qed.

Lemma answered_cons (e : event) (ev : list event) (result : value) :
  answered ev result -> answered (e :: ev) result.
Proof. apply (answered_app [e]). Qed.

Lemma stepped_answered st ev reply result :
  stepped st ev reply (Returns (Return result)) -> answered ev result.
Proof.
  inversion 1; subst; (split; [reflexivity|]).
  - now exists [Warning nonJsonWarning], raw.
  - now exists [], (if negb (isEmpty content) then content else "Done.").
Qed.

Lemma iterations_bounded (this : runner) (request chatContext selectedModel : value)
  (n : nat) (st : loopState) :
  runs (iterations this request chatContext selectedModel n st) (boundedPasses n).
Proof.
  apply (runs_iterations this request chatContext selectedModel
           (fun n _ => boundedPasses n)); unfold boundedPasses.
  - intros _. split; [apply Nat.le_0_l | exact I].
  - intros k st0 reply ev e Hstep. split; [|exact I].
    change (ModelRequest (modelMessages st0) reply :: ev)
      with ([ModelRequest (modelMessages st0) reply] ++ ev)%list.
    rewrite modelCalls_app, (stepped_modelCalls _ _ _ _ Hstep). simpl. lia.
  - intros k st0 reply ev result Hstep. split.
    + change (ModelRequest (modelMessages st0) reply :: ev)
        with ([ModelRequest (modelMessages st0) reply] ++ ev)%list.
      rewrite modelCalls_app, (stepped_modelCalls _ _ _ _ Hstep). simpl. lia.
    + apply answered_cons, (stepped_answered _ _ _ _ Hstep).
  - intros k st0 reply ev st' ev' o Hstep [Hcalls Hans]. split.
    + change (ModelRequest (modelMessages st0) reply :: ev ++ ev')%list
        with ([ModelRequest (modelMessages st0) reply] ++ ev ++ ev')%list.
      rewrite !modelCalls_app, (stepped_modelCalls _ _ _ _ Hstep). simpl. lia.
    + destruct o as [[|result]|]; try exact I.
      apply answered_cons, answered_app, Hans.
Qed.

Lemma finalAttempt_forced (this : runner) (selectedModel : value) (st : loopState) :
  runs (finalAttempt this selectedModel st)
    (forcedCompletion
       (modelMessages st ++ [Message User budgetMessage])
       ("Reached iteration limit ("
          ++ digits (N.of_nat (maxIterations (runnerSettings this)))
          ++ "). Returning best effort response.")).
Proof.
  intros log. unfold finalAttempt, bind, warning, markdown, emit, complete, ret.
  cbn [modelMessages pushMessage].
  destruct (sendRequest _ _ _ _) as [text|e].
  - exists (Returns emptyObject).
    destruct (parseAgentAction (trim text)) as [[|content]|] eqn:Hparse;
      (eexists; split; [flatten_log; reflexivity|];
       exists (Returns (trim text)); rewrite Hparse; split; reflexivity).
  - exists (Throws e). eexists. split; [flatten_log; reflexivity|].
    exists (Throws e). now split.
Qed.

Lemma forcedCompletion_calls messages limit ev o :
  forcedCompletion messages limit ev o -> modelCalls ev = 1 /\ answers ev o.
Proof.
  intros [[raw|e] [-> ->]]; (split; [reflexivity|]); [|exact I].
  split; [reflexivity|]. eexists [_; _], _. reflexivity.
Qed.

Lemma agentLoop_bounded (this : runner) (request chatContext : value) :
  runs (agentLoop this request chatContext)
    (boundedAnswer (maxIterations (runnerSettings this) + 1)).
Proof.
  unfold agentLoop.
  eapply runs_bind with
    (Q := fun _ => boundedAnswer (maxIterations (runnerSettings this) + 1));
    [apply runs_resolveModel | | |].
  - intros selectedModel.
    eapply runs_bind with
      (P := fun ev _ => ev = [Progress ("Using model: " ++ describeModel selectedModel)])
      (Q := fun _ => boundedAnswer (maxIterations (runnerSettings this) + 1));
      [apply runs_emit; reflexivity | | |].
    + intros u.
      eapply runs_bind with
        (Q := fun r ev o =>
                match r with
                | inl _ => modelCalls ev = 1 /\ answers ev o
                | inr result => ev = [] /\ o = Returns result
                end);
        [apply iterations_bounded | | |].
      * intros [st'|result].
        -- eapply runs_weaken; [apply finalAttempt_forced|].
           intros ev o H. exact (forcedCompletion_calls _ _ _ _ H).
        -- apply runs_ret. now split.
      * unfold boundedAnswer.
        intros ev1 [st'|result] ev2 o [Hcalls Hans] H2.
        -- destruct H2 as [Hc Ha]. rewrite modelCalls_app. split; [lia|].
           destruct o; [|exact I]. now apply answered_app.
        -- destruct H2 as (-> & ->). rewrite List.app_nil_r.
           split; [lia | exact Hans].
      * unfold boundedAnswer. intros ev e [Hcalls _]. split; [lia | exact I].
    + unfold boundedAnswer. intros ev1 [] ev2 o -> [Hcalls Hans]. split.
      * rewrite modelCalls_app. exact Hcalls.
      * destruct o; [|exact I]. now apply answered_app.
    + unfold boundedAnswer. intros ev e ->. split; [unfold modelCalls; simpl; lia | exact I].
  - intros ev1 a ev2 o -> H. exact H.
  - unfold boundedAnswer. intros ev e ->. split; [unfold modelCalls; simpl; lia | exact I].
Qed.

Lemma answered_snoc (pre : list event) (text : string) :
  answered (pre ++ [Markdown text]) emptyObject.
Proof. split; [reflexivity|]. now exists pre, text. Qed.

Ltac answered_now :=
  first [ apply (answered_snoc [])
        | apply (answered_snoc [_])
        | apply (answered_snoc [_; _])
        | apply (answered_snoc [_; _; _])
        | apply (answered_snoc [_; _; _; _]) ].

Ltac run_flow :=
  unfold bind, resolveModel, complete, callTool, progress, warning, markdown,
    emit, ret, throw.

Ltac flow_done :=
  eexists _, _;
  split; [first [flatten_log; reflexivity | rewrite List.app_nil_r; reflexivity]|];
  split; [unfold modelCalls; simpl; lia|];
  split; [reflexivity|]; try exact I; try reflexivity; try answered_now.

Lemma handleCompact_short (this : runner) (request chatContext : value) :
  runs (handleCompact this request chatContext) (shortFlow answers).
Proof.
  intros log. unfold handleCompact, shortFlow.
  destruct (isEmpty (toTranscript (get chatContext "history"))).
  - run_flow. flow_done.
  - run_flow. destruct (resolveModelOf _ _ _) as [model|e]; [|flow_done].
    destruct (sendRequest _ _ _ _) as [text|e]; [|flow_done].
    destruct (parseAgentAction (trim text)) as [[|content]|]; flow_done.
Qed.

Lemma tryHandleCommandToolRequest_short (this : runner) (request chatContext : value) :
  runs (tryHandleCommandToolRequest this request chatContext)
    (shortFlow answersIfHandled).
Proof.
  intros log. unfold tryHandleCommandToolRequest, shortFlow.
  destruct (lookupCommand _) as [commandTool| |].
  - destruct (requiresPrompt commandTool && isEmpty (extractRequestPrompt request)).
    + run_flow. flow_done.
    + run_flow.
      destruct (execute_returns (toolRegistry this)
                  (log ++ [Progress ("Running tool: " ++ commandToolName commandTool)])
                  (commandToolName commandTool)
                  (buildInput commandTool (extractRequestPrompt request))
                  (Context request (get chatContext "history") None)) as [result ->].
      flow_done.
  - run_flow. flow_done.
  - run_flow. flow_done.
Qed.

Lemma tryHandleAutonomousToolRequest_short (this : runner) (request : value)
  (requestPrompt : string) (chatContext : value) :
  runs (tryHandleAutonomousToolRequest this request requestPrompt chatContext)
    (shortFlow answersIfHandled).
Proof.
  intros log. unfold tryHandleAutonomousToolRequest, shortFlow.
  destruct (negb _ || isEmpty requestPrompt); [run_flow; flow_done|].
  destruct (isWorkspaceSearchIntent requestPrompt && _); [run_flow; flow_done|].
  destruct (inferAutonomousToolRequest requestPrompt) as [[t input]|];
    [|run_flow; flow_done].
  run_flow.
  destruct (execute_returns (toolRegistry this)
              (log ++ [Progress ("Autonomous tool call: " ++ t)])
              t input (Context request (get chatContext "history") None))
    as [result ->].
  flow_done.
Qed.

(** A flow that may decline, followed by the rest of [handleRequest]. *)
Lemma runs_declining (m : M (option value)) (rest : M value)
  (L : list event -> outcome value -> Prop) :
  runs m (shortFlow answersIfHandled) ->
  runs rest (fun ev o => shortFlow answers ev o \/ L ev o) ->
  runs (handled_ <- m ;;
        match handled_ with
        | Some result => ret result
        | None => rest
        end)
    (fun ev o => shortFlow answers ev o \/ L ev o).
Proof.
  intros Hm Hrest.
  eapply runs_bind with
    (Q := fun handled_ ev o =>
            match handled_ with
            | Some result => ev = [] /\ o = Returns result
            | None => shortFlow answers ev o \/ L ev o
            end);
    [exact Hm | | |].
  - intros [result|]; [apply runs_ret; now split | exact Hrest].
  - unfold shortFlow. intros ev1 [result|] ev2 o (Hc & Hq & Ha) H2.
    + destruct H2 as [-> ->]. rewrite List.app_nil_r. left.
      exact (conj Hc (conj Hq Ha)).
    + simpl in Ha. subst ev1. exact H2.
  - unfold shortFlow. intros ev e (Hc & Hq & _). left.
    exact (conj Hc (conj Hq I)).
Qed.

Lemma handleRequest_handled (this : runner) (request chatContext : value)
  (L : list event -> outcome value -> Prop) :
  runs (agentLoop this request chatContext) L ->
  runs (handleRequest this request chatContext) (handled L).
Proof.
  intros HL. unfold handleRequest.
  eapply runs_tryCatch with
    (P := fun ev o => shortFlow answers ev o \/ L ev o)
    (Q := fun e ev o =>
            ev = [Warning (failureMessage e)]
            /\ o = Returns (errorDetails (failureMessage e))).
  - destruct (isCompact request).
    + eapply runs_weaken; [apply handleCompact_short | now left].
    + apply runs_declining; [apply tryHandleCommandToolRequest_short|].
      destruct (isEmpty _ && negb _).
      * intros log. run_flow. unfold shortFlow.
        eexists _, _. split; [reflexivity|]. left.
        split; [unfold modelCalls; simpl; lia|]. split; [reflexivity|].
        apply (answered_snoc []).
      * apply runs_declining; [apply tryHandleAutonomousToolRequest_short|].
        eapply runs_weaken; [exact HL | now right].
  - intros e log. run_flow. eexists _, _. split; [reflexivity|]. now split.
  - intros ev a H. exists ev, (Returns a). now split.
  - intros ev1 e ev2 o H [-> ->]. exists ev1, (Throws e). now split.
Qed.

Lemma handleRequest_bounded (this : runner) (request chatContext : value) :
  runs (handleRequest this request chatContext)
    (fun ev o => modelCalls ev <= maxIterations (runnerSettings this) + 1
                 /\ terminal o ev).
Proof.
  eapply runs_weaken; [apply handleRequest_handled, agentLoop_bounded|].
  intros ev o (ev0 & o0 & Hbody & Hend).
  assert (Hb : boundedAnswer (maxIterations (runnerSettings this) + 1) ev0 o0).
  { destruct Hbody as [(Hc & _ & Ha)|H]; [split; [lia | exact Ha] | exact H]. }
  destruct Hb as [Hc Ha].
  destruct o0 as [result|e]; destruct Hend as [-> ->].
  - split; [exact Hc | left; exact Ha].
  - split.
    + rewrite modelCalls_app. unfold modelCalls at 2. simpl. lia.
    + right. exists ev0, (failureMessage e). now split.
Qed.

(** C2.  For every runner, request and chat context, whatever the language
    model and the tools answer (parsable or not, or with an exception),
    [handleRequest] returns, having called the model client's [complete] at
    most [maxIterations + 1] times, and it returns in one of two ways: [{}]
    after a text went to the stream as markdown (the final answer or the raw
    text of the model), or the failure [{errorDetails: {message}}] after that
    message went to the stream as a warning. *)
Theorem handleRequest_terminates_within_budget :
  forall (this : runner) (request chatContext : value),
    modelCalls (snd (run this request chatContext))
    <= maxIterations (runnerSettings this) + 1
    /\ terminal (fst (run this request chatContext))
         (snd (run this request chatContext)).
Proof.
  intros this request chatContext. unfold run.
  destruct (handleRequest_bounded this request chatContext [])
    as (o & ev & -> & Hcalls & Hterminal).
  exact (conj Hcalls Hterminal).
Qed.

(** ** The repeated-call guard (C3) *)


(** ** The refusal guard (C9) *)

Lemma warnings_app (w : string) (a b : list event) :
  warnings w (a ++ b) = warnings w a + warnings w b.
Proof. unfold warnings. now rewrite filter_app, List.length_app. Qed.

Lemma quiet_warnings (w : string) (ev : list event) :
  quiet ev = true -> warnings w ev = 0.
Proof.
  unfold quiet, warnings. induction ev as [|e ev IH]; [reflexivity|].
  simpl. intros H. apply andb_prop in H as [He Hev].
  destruct e; try discriminate; simpl; auto.
Qed.

Lemma stepped_refusal st ev reply o :
  stepped st ev reply o ->
  (warnings refusalWarning ev = 0
   /\ forall st', o = Returns (Continue st') ->
                  capabilityRefusalRetryCount st' = capabilityRefusalRetryCount st)
  \/ (warnings refusalWarning ev = 1
      /\ capabilityRefusalRetryCount st = 0
      /\ forall st', o = Returns (Continue st') -> capabilityRefusalRetryCount st' = 1).
Proof.
  destruct 1.
  all: try (left; split; [reflexivity | intros s [=]; subst; congruence]).
  right. split; [reflexivity|]. split; [assumption|]. intros s [=]. now subst.
Qed.

Lemma iterations_refusal (this : runner) (request chatContext selectedModel : value)
  (n : nat) (st : loopState) :
  runs (iterations this request chatContext selectedModel n st)
    (fun ev _ => refusalBudget st ev).
Proof.
  apply (runs_iterations this request chatContext selectedModel
           (fun _ st ev _ => refusalBudget st ev)); unfold refusalBudget.
  - intros st0 H. simpl. lia.
  - intros k st0 reply ev e Hstep Hcap.
    change (ModelRequest (modelMessages st0) reply :: ev)
      with ([ModelRequest (modelMessages st0) reply] ++ ev)%list.
    rewrite warnings_app.
    destruct (stepped_refusal _ _ _ _ Hstep) as [[H0 _]|(H1 & Hz & _)];
      unfold warnings at 1; simpl; lia.
  - intros k st0 reply ev result Hstep Hcap.
    change (ModelRequest (modelMessages st0) reply :: ev)
      with ([ModelRequest (modelMessages st0) reply] ++ ev)%list.
    rewrite warnings_app.
    destruct (stepped_refusal _ _ _ _ Hstep) as [[H0 _]|(H1 & Hz & _)];
      unfold warnings at 1; simpl; lia.
  - intros k st0 reply ev st' ev' o Hstep IH Hcap.
    change (ModelRequest (modelMessages st0) reply :: ev ++ ev')%list
      with ([ModelRequest (modelMessages st0) reply] ++ ev ++ ev')%list.
    rewrite !warnings_app.
    destruct (stepped_refusal _ _ _ _ Hstep) as [[H0 Hsame]|(H1 & Hz & Hone)].
    + specialize (Hsame st' eq_refl). rewrite Hsame in IH.
      specialize (IH Hcap). unfold warnings at 1; simpl. lia.
    + specialize (Hone st' eq_refl). rewrite Hone in IH.
      specialize (IH (Nat.le_refl 1)). unfold warnings at 1; simpl. lia.
Qed.

Lemma forcedCompletion_refusal messages limit ev o :
  forcedCompletion messages ("Reached iteration limit (" ++ limit) ev o ->
  warnings refusalWarning ev = 0.
Proof. intros [[raw|e] [_ ->]]; reflexivity. Qed.

Lemma agentLoop_refusal (this : runner) (request chatContext : value) :
  runs (agentLoop this request chatContext)
    (fun ev _ => warnings refusalWarning ev <= 1).
Proof.
  unfold agentLoop.
  eapply runs_bind with (Q := fun _ ev _ => warnings refusalWarning ev <= 1);
    [apply runs_resolveModel | | |].
  - intros selectedModel.
    eapply runs_bind with
      (P := fun ev _ => ev = [Progress ("Using model: " ++ describeModel selectedModel)])
      (Q := fun _ ev _ => warnings refusalWarning ev <= 1);
      [apply runs_emit; reflexivity | | |].
    + intros u.
      eapply runs_bind with
        (Q := fun _ ev _ => warnings refusalWarning ev = 0);
        [apply iterations_refusal | | |].
      * intros [st'|result].
        -- eapply runs_weaken; [apply finalAttempt_forced|].
           intros ev o H. exact (forcedCompletion_refusal _ _ _ _ H).
        -- apply runs_ret. reflexivity.
      * intros ev1 r ev2 o Hbudget H2. rewrite warnings_app, H2.
        specialize (Hbudget (Nat.le_0_l 1)). simpl in Hbudget. lia.
      * intros ev e Hbudget. specialize (Hbudget (Nat.le_0_l 1)).
        simpl in Hbudget. lia.
    + intros ev1 [] ev2 o -> H. rewrite warnings_app. exact H.
    + intros ev e ->. unfold warnings. simpl. lia.
  - intros ev1 a ev2 o -> H. exact H.
  - intros ev e ->. unfold warnings. simpl. lia.
Qed.

(** C9.  In every handled request the warning of the refusal guard goes to
    the stream at most once (at most one corrective retry); and in a pass of
    the loop that starts with [capabilityRefusalRetryCount] at 1 or more, a
    reply that parses as a final action ends the request: its content (or
    "Done." for an empty content) goes to the stream as markdown and [{}] is
    returned, whether or not the content looks like a refusal. *)
Theorem refusal_retry_at_most_once :
  forall (this : runner) (request chatContext : value),
    warnings refusalWarning (snd (run this request chatContext)) <= 1
    /\ forall (selectedModel : value) (st : loopState) (log : list event)
              (text content : string),
         sendRequest (modelClient this) log (modelMessages st) selectedModel
         = Returns text ->
         parseAgentAction (trim text) = Some (Final content) ->
         1 <= capabilityRefusalRetryCount st ->
         iteration this request chatContext selectedModel st log
         = (Returns (Return emptyObject),
            (log ++ [ModelRequest (modelMessages st) (Returns (trim text));
                     Markdown (if negb (isEmpty content) then content else "Done.")])%list).
Proof.
  intros this request chatContext. split.
  - unfold run.
    destruct (handleRequest_handled this request chatContext _
                (agentLoop_refusal this request chatContext) [])
      as (o & ev & -> & ev0 & o0 & Hbody & Hend).
    cbn [snd app].
    assert (H0 : warnings refusalWarning ev0 <= 1).
    { destruct Hbody as [(_ & Hq & _)|H]; [|exact H].
      rewrite (quiet_warnings _ _ Hq). lia. }
    destruct o0 as [result|e]; destruct Hend as [-> _]; [exact H0|].
    rewrite warnings_app. unfold warnings at 2. simpl. lia.
  - intros selectedModel st log text content Hsend Hparse Hcap.
    destruct (iteration_stepped this request chatContext selectedModel st log)
      as (reply & ev & o & Heq & Hreply & Hstep).
    rewrite Hsend in Hreply. subst reply.
    inversion Hstep; subst; try congruence; try lia.
    assert (content0 = content) as -> by congruence.
    exact Heq.
Qed.

(** ** The malformed-output guard (C4) *)

Lemma completions_app (a b : list event) :
  completions (a ++ b) = (completions a ++ completions b)%list.
Proof.
  induction a as [|e a IH]; [reflexivity|].
  destruct e as [| | |messages [text|err]|]; simpl; now rewrite IH.
Qed.

Lemma completions_le_modelCalls (ev : list event) :
  List.length (completions ev) <= modelCalls ev.
Proof.
  unfold modelCalls. induction ev as [|e ev IH]; [apply Nat.le_refl|].
  destruct e as [| | |messages [text|err]|]; simpl; lia.
Qed.

Lemma lastEvent_app (a b : list event) :
  b <> [] -> lastEvent (a ++ b) = lastEvent b.
Proof.
  unfold lastEvent. intros Hb. rewrite rev_app_distr.
  destruct (rev b) as [|e r] eqn:Hr; [|reflexivity].
  apply (f_equal (@rev event)) in Hr. rewrite rev_involutive in Hr. now subst.
Qed.

Lemma lastEvent_some (ev : list event) (e : event) :
  lastEvent ev = Some e -> ev <> [].
Proof. intros H ->. discriminate. Qed.

Lemma lastEvent_cons (e : event) (ev : list event) :
  ev <> [] -> lastEvent (e :: ev) = lastEvent ev.
Proof. apply (lastEvent_app [e]). Qed.

(** What the parse guard needs of a pass. *)
Lemma stepped_guard st ev reply o :
  stepped st ev reply o ->
  completions ev = []
  /\ match o with
     | Throws e => reply = Throws e /\ ev = []
     | Returns (Return result) =>
         exists raw,
           reply = Returns raw /\ result = emptyObject
           /\ ((unparsable raw /\ 1 <= parseFailureCount st
                /\ ev = [Warning nonJsonWarning; Markdown raw])
               \/ (parseAgentAction raw <> None
                   /\ warnings nonJsonWarning ev = 0))
     | Returns (Continue st') =>
         exists raw,
           reply = Returns raw /\ warnings nonJsonWarning ev = 0
           /\ ((unparsable raw /\ parseFailureCount st = 0
                /\ parseFailureCount st' = 1)
               \/ (parseAgentAction raw <> None /\ parseFailureCount st' = 0))
     end.
Proof.
  destruct 1; (split; [reflexivity|]).
  - now split.
  - exists raw. repeat split. left. now repeat split.
  - exists raw. repeat split. left. now repeat split.
  - exists raw. repeat split. right. split; [congruence | assumption].
  - exists raw. repeat split. right. split; [congruence | reflexivity].
  - exists raw. repeat split. right. split; [congruence | assumption].
  - exists raw. repeat split. right. split; [congruence | assumption].
Qed.

Lemma iterations_parseGuard (this : runner) (request chatContext selectedModel : value)
  (n : nat) (st : loopState) :
  runs (iterations this request chatContext selectedModel n st) (parseGuard st).
Proof.
  apply (runs_iterations this request chatContext selectedModel
           (fun _ st ev o => parseGuard st ev o)); unfold parseGuard, pairEnds.
  - (* no pass left *)
    intros st0. simpl. split; [|split].
    + intros [|i] r1 r2; discriminate.
    + intros _ r; discriminate.
    + unfold warnings. simpl. lia.
  - (* the model throws *)
    intros k st0 reply ev e Hstep.
    destruct (stepped_guard _ _ _ _ Hstep) as (_ & -> & ->). simpl.
    split; [|split].
    + intros [|i] r1 r2; discriminate.
    + intros _ r; discriminate.
    + unfold warnings. simpl. lia.
  - (* the pass returns *)
    intros k st0 reply ev result Hstep.
    destruct (stepped_guard _ _ _ _ Hstep) as (Hcs & raw & -> & -> & Hkind).
    cbn [completions]. rewrite Hcs.
    split; [|split].
    + intros [|i] r1 r2 H1 H2; [discriminate H2 | destruct i; discriminate H2].
    + intros Hpf r [= <-] Hunp.
      destruct Hkind as [(_ & _ & ->)|[Hp _]]; [|contradiction].
      now repeat split.
    + intros Hw. split; [reflexivity|]. left.
      destruct Hkind as [(Hunp & Hpf & ->)|[_ H0]].
      * split; [exact Hpf|]. now exists raw.
      * change (ModelRequest (modelMessages st0) (Returns raw) :: ev)
          with ([ModelRequest (modelMessages st0) (Returns raw)] ++ ev)%list in Hw.
        rewrite warnings_app, H0 in Hw. unfold warnings in Hw. simpl in Hw. lia.
  - (* the pass continues *)
    intros k st0 reply ev st' ev' o Hstep (IHpair & IHpending & IHwarned).
    destruct (stepped_guard _ _ _ _ Hstep) as (Hcs & raw & -> & Hw0 & Hkind).
    assert (Hcompl :
      completions (ModelRequest (modelMessages st0) (Returns raw) :: ev ++ ev')
      = raw :: completions ev').
    { cbn [completions]. now rewrite completions_app, Hcs. }
    assert (Hlast : forall e,
      lastEvent ev' = Some e ->
      lastEvent (ModelRequest (modelMessages st0) (Returns raw) :: ev ++ ev') = Some e).
    { intros e He.
      change (ModelRequest (modelMessages st0) (Returns raw) :: ev ++ ev')%list
        with (([ModelRequest (modelMessages st0) (Returns raw)] ++ ev) ++ ev')%list.
      rewrite lastEvent_app; [exact He | exact (lastEvent_some _ _ He)]. }
    rewrite Hcompl. split; [|split].
    + intros [|i] r1 r2 H1 H2 Hu1 Hu2.
      * injection H1 as <-.
        destruct Hkind as [(_ & _ & Hpf')|[Hp _]]; [|contradiction].
        destruct (IHpending ltac:(lia) r2 H2 Hu2) as (Hfin & Hlen & Hl).
        split; [exact Hfin|]. split; [simpl; lia | exact (Hlast _ Hl)].
      * destruct (IHpair i r1 r2 H1 H2 Hu1 Hu2) as (Hfin & Hlen & Hl).
        split; [exact Hfin|]. split; [simpl; lia | exact (Hlast _ Hl)].
    + intros Hpf r [= <-] Hunp.
      destruct Hkind as [(_ & Hz & _)|[Hp _]]; [lia | contradiction].
    + intros Hw.
      change (ModelRequest (modelMessages st0) (Returns raw) :: ev ++ ev')%list
        with ([ModelRequest (modelMessages st0) (Returns raw)] ++ ev ++ ev')%list in Hw.
      rewrite !warnings_app, Hw0 in Hw. unfold warnings at 1 in Hw. simpl in Hw.
      destruct (IHwarned Hw) as (Hfin & Hend). split; [exact Hfin|]. right.
      destruct Hend as [(Hpf' & r & Hr & Hunp)|(i & r1 & r2 & Hlen & H1 & H2 & Hu1 & Hu2)].
      * destruct Hkind as [(Hraw & _ & _)|[_ Hz]]; [|lia].
        exists 0, raw, r. rewrite Hcompl, Hr. now repeat split.
      * exists (S i), r1, r2. rewrite Hcompl. repeat split; try assumption.
        simpl. lia.
Qed.

Lemma shortFlow_parseGuard {A} (answersA : list event -> outcome A -> Prop)
  (ev : list event) (o : outcome A) :
  shortFlow answersA ev o ->
  List.length (completions ev) <= 1 /\ warnings nonJsonWarning ev = 0.
Proof.
  intros (Hc & Hq & _). split.
  - pose proof (completions_le_modelCalls ev). lia.
  - now apply quiet_warnings.
Qed.

Lemma nth_error_pair_short {A} (l : list A) (i : nat) (x : A) :
  List.length l <= 1 -> nth_error l (S i) = Some x -> False.
Proof.
  intros Hlen H.
  assert (Hlt : S i < List.length l) by (apply nth_error_Some; congruence).
  lia.
Qed.

Lemma agentLoop_parseGuard (this : runner) (request chatContext : value) :
  runs (agentLoop this request chatContext) parseGuardOfRequest.
Proof.
  unfold agentLoop.
  eapply runs_bind with (Q := fun _ => parseGuardOfRequest);
    [apply runs_resolveModel | | |].
  2:{ intros ev1 a ev2 o -> H. exact H. }
  2:{ intros ev e ->. split.
      - intros [|i] r1 r2; discriminate.
      - intros H. unfold warnings in H. simpl in H. lia. }
  intros selectedModel.
  eapply runs_bind with
    (P := fun ev _ => ev = [Progress ("Using model: " ++ describeModel selectedModel)])
    (Q := fun _ => parseGuardOfRequest);
    [apply runs_emit; reflexivity | | |].
  2:{ (* the events of the loop after the progress line *)
      intros ev1 [] ev2 o -> [Hpair Hwarned]. split.
      - intros i r1 r2 H1 H2 Hu1 Hu2.
        destruct (Hpair i r1 r2 H1 H2 Hu1 Hu2) as (Hfin & Hlen & Hl).
        split; [exact Hfin|]. split; [exact Hlen|].
        rewrite lastEvent_app; [exact Hl | exact (lastEvent_some _ _ Hl)].
      - intros Hw. rewrite warnings_app in Hw. unfold warnings at 1 in Hw.
        simpl in Hw. destruct (Hwarned Hw) as [Hfin Hend]. split; [exact Hfin|].
        exact Hend. }
  2:{ intros ev e ->. split.
      - intros [|i] r1 r2; discriminate.
      - intros H. unfold warnings in H. simpl in H. lia. }
  intros u.
  eapply runs_bind with
    (Q := fun r ev o =>
            match r with
            | inl st' =>
                forcedCompletion
                  (modelMessages st' ++ [Message User budgetMessage])
                  ("Reached iteration limit ("
                     ++ digits (N.of_nat (maxIterations (runnerSettings this)))
                     ++ "). Returning best effort response.") ev o
            | inr result => ev = [] /\ o = Returns result
            end);
    [apply iterations_parseGuard | | |].
  - intros [st'|result]; [apply finalAttempt_forced | apply runs_ret; now split].
  - intros ev1 [st'|result] ev2 o (Hpair & _ & Hwarned) H2.
    + (* the loop ran out: the forced completion follows *)
      assert (Hno : forall i r1 r2,
                 nth_error (completions ev1) i = Some r1 ->
                 nth_error (completions ev1) (S i) = Some r2 ->
                 unparsable r1 -> unparsable r2 -> False).
      { intros i r1 r2 H1 H2' Hu1 Hu2.
        destruct (Hpair i r1 r2 H1 H2' Hu1 Hu2) as (Hfin & _). discriminate Hfin. }
      destruct H2 as [[raw|e] [-> ->]].
      * split.
        -- intros i r1 r2 H1 H2' Hu1 Hu2.
           rewrite completions_app in H1, H2' |- *. cbn [completions] in H1, H2' |- *.
           destruct (Nat.lt_ge_cases (S i) (List.length (completions ev1))) as [Hlt|Hge].
           ++ rewrite nth_error_app1 in H1, H2' by lia.
              destruct (Hno i r1 r2 H1 H2' Hu1 Hu2).
           ++ rewrite nth_error_app2 in H2' by lia.
              destruct (S i - List.length (completions ev1)) as [|[|d]] eqn:Hd;
                try discriminate H2'.
              injection H2' as <-.
              split; [reflexivity|]. split; [rewrite List.length_app; simpl; lia|].
              rewrite lastEvent_app by discriminate. unfold unparsable in Hu2.
              now rewrite Hu2.
        -- intros Hw. rewrite warnings_app in Hw. unfold warnings at 2 in Hw.
           simpl in Hw. rewrite Nat.add_0_r in Hw.
           destruct (Hwarned Hw) as [Hfin _]. discriminate Hfin.
      * split.
        -- intros i r1 r2 H1 H2' Hu1 Hu2.
           rewrite completions_app in H1, H2'. cbn [completions] in H1, H2'.
           rewrite List.app_nil_r in H1, H2'.
           destruct (Hno i r1 r2 H1 H2' Hu1 Hu2).
        -- intros Hw. rewrite warnings_app in Hw. unfold warnings at 2 in Hw.
           simpl in Hw. rewrite Nat.add_0_r in Hw.
           destruct (Hwarned Hw) as [Hfin _]. discriminate Hfin.
    + (* the loop returned *)
      destruct H2 as [-> ->]. rewrite List.app_nil_r. split.
      * intros i r1 r2 H1 H2' Hu1 Hu2.
        destruct (Hpair i r1 r2 H1 H2' Hu1 Hu2) as (Hfin & Hlen & Hl).
        injection Hfin as ->. now repeat split.
      * intros Hw. destruct (Hwarned Hw) as [Hfin Hend]. injection Hfin as ->.
        split; [reflexivity|].
        destruct Hend as [(Hpf & _)|Hend]; [simpl in Hpf; lia | exact Hend].
  - intros ev e (Hpair & _ & Hwarned). split.
    + intros i r1 r2 H1 H2' Hu1 Hu2.
      destruct (Hpair i r1 r2 H1 H2' Hu1 Hu2) as (Hfin & _). discriminate Hfin.
    + intros Hw. destruct (Hwarned Hw) as [Hfin _]. discriminate Hfin.
Qed.

Lemma handleRequest_parseGuard (this : runner) (request chatContext : value) :
  runs (handleRequest this request chatContext) parseGuardOfRequest.
Proof.
  eapply runs_weaken; [apply handleRequest_handled, agentLoop_parseGuard|].
  intros ev o (ev0 & o0 & Hbody & Hend).
  assert (H0 : parseGuardOfRequest ev0 o0).
  { destruct Hbody as [Hshort|H]; [|exact H].
    destruct (shortFlow_parseGuard _ _ _ Hshort) as [Hlen Hw]. split.
    - intros i r1 r2 _ H2. destruct (nth_error_pair_short _ _ _ Hlen H2).
    - intros H. lia. }
  destruct o0 as [result|e]; destruct Hend as [-> ->]; [exact H0|].
  destruct H0 as [Hpair Hwarned]. split.
  - intros i r1 r2 H1 H2 Hu1 Hu2.
    rewrite completions_app in H1, H2. cbn [completions] in H1, H2.
    rewrite List.app_nil_r in H1, H2.
    destruct (Hpair i r1 r2 H1 H2 Hu1 Hu2) as (Hfin & _). discriminate Hfin.
  - intros Hw. rewrite warnings_app in Hw. unfold warnings at 2 in Hw.
    simpl in Hw. rewrite Nat.add_0_r in Hw.
    destruct (Hwarned Hw) as [Hfin _]. discriminate Hfin.
Qed.

(** C4.  In every handled request: if two completions in a row do not parse,
    the request returns [{}], the second of them is the last call of the
    model, and its text is the last thing sent to the stream, as markdown,
    unchanged; the warning of the raw-text fallback is given only when the
    last two completions did not parse; and a pass of the loop whose
    completion parses and that continues leaves [parseFailureCount] at 0. *)
Theorem two_unparsable_completions_end_the_request :
  forall (this : runner) (request chatContext : value),
    pairEnds returnsEmpty (snd (run this request chatContext))
      (fst (run this request chatContext))
    /\ warnedOnlyAfterPair returnsEmpty (snd (run this request chatContext))
         (fst (run this request chatContext))
    /\ forall (selectedModel : value) (st st' : loopState) (log : list event)
              (text : string),
         sendRequest (modelClient this) log (modelMessages st) selectedModel
         = Returns text ->
         parseAgentAction (trim text) <> None ->
         fst (iteration this request chatContext selectedModel st log)
         = Returns (Continue st') ->
         parseFailureCount st' = 0.
Proof.
  intros this request chatContext. unfold run.
  destruct (handleRequest_parseGuard this request chatContext [])
    as (o & ev & -> & Hpair & Hwarned).
  split; [exact Hpair|]. split; [exact Hwarned|].
  intros selectedModel st st' log text Hsend Hparse Hcont.
  destruct (iteration_stepped this request chatContext selectedModel st log)
    as (reply & ev' & o' & Heq & Hreply & Hstep).
  rewrite Hsend in Hreply. subst reply. rewrite Heq in Hcont. simpl in Hcont.
  subst o'. inversion Hstep; subst; try assumption; contradiction.
Qed.

(** ** Closed instances *)

Import Scenario.


(** C4 on a model that answers twice with text that is no action. *)
Lemma two_unparsable_completions_end_the_request_witness :
  returnsEmpty (fst (run (demoRunner ["oops"; "still not json"])
                       (promptRequest "p") emptyContext))
  /\ List.length (completions (snd (run (demoRunner ["oops"; "still not json"])
                                      (promptRequest "p") emptyContext))) = 0 + 2
  /\ lastEvent (snd (run (demoRunner ["oops"; "still not json"])
                       (promptRequest "p") emptyContext))
     = Some (Markdown "still not json").
Proof.
  destruct (two_unparsable_completions_end_the_request
              (demoRunner ["oops"; "still not json"]) (promptRequest "p") emptyContext)
    as (Hpair & _ & _).
  apply (Hpair 0 "oops" "still not json"); vm_compute; reflexivity.
Defined.

(** C9 on a model that refuses twice: one retry, then the refusal is the
    answer. *)
Lemma refusal_retry_at_most_once_witness :
  warnings refusalWarning
    (snd (run (demoRunner [refusal; refusal]) (promptRequest "p") emptyContext)) <= 1
  /\ iteration (demoRunner [refusal]) (promptRequest "p") emptyContext JNull
       retriedOnce []
     = (Returns (Return emptyObject),
        [ModelRequest [] (Returns refusal);
         Markdown "Workspace search is unavailable."]).
Proof.
  destruct (refusal_retry_at_most_once (demoRunner [refusal; refusal])
              (promptRequest "p") emptyContext) as [Hcount _].
  destruct (refusal_retry_at_most_once (demoRunner [refusal])
              (promptRequest "p") emptyContext) as [_ Hfinal].
  split; [exact Hcount|].
  apply (Hfinal JNull retriedOnce [] refusal "Workspace search is unavailable.").
  - reflexivity.
  - vm_compute. reflexivity.
  - simpl. lia.
Defined.

(** The run of C9's instance, event by event: the retry happens once. *)
Example refusal_run :
  warnings refusalWarning
    (snd (run (demoRunner [refusal; refusal]) (promptRequest "p") emptyContext)) = 1
  /\ lastEvent (snd (run (demoRunner [refusal; refusal]) (promptRequest "p") emptyContext))
     = Some (Markdown "Workspace search is unavailable.")
  /\ modelCalls (snd (run (demoRunner [refusal; refusal]) (promptRequest "p") emptyContext))
     = 2.
Proof. vm_compute. repeat split. Qed.

End Loop.

(* ================================================================== *)
(** * JSON.parse reads back what JSON.stringify writes *)
(* ================================================================== *)

Section Json.

Import Js JsonSpec.

(** ** Strings *)

Lemma parseChars_quoteChar (c : ascii) (tail : string) :
  parseChars (quoteChar c ++ tail) = consChar c (parseChars tail).
Proof.
  destruct c as [[] [] [] [] [] [] [] []]; reflexivity.
Qed.

Lemma parseChars_quoteChars (s rest : string) :
  parseChars (quoteChars s ++ String dquote rest) = Some (s, rest).
Proof.
  induction s as [|c s IH]; [reflexivity|].
  simpl quoteChars. rewrite append_assoc, parseChars_quoteChar, IH. reflexivity.
Qed.

Lemma quote_append (s rest : string) :
  quote s ++ rest = String dquote (quoteChars s ++ String dquote rest).
Proof. unfold quote. simpl. now rewrite append_assoc. Qed.

(** ** Numbers *)

Lemma digitString_of_uint (d : Decimal.uint) :
  digitString (NilEmpty.string_of_uint d) = true.
Proof. induction d; simpl; auto. Qed.

Lemma digits_not_nil (n : N) : N.to_uint n <> Decimal.Nil.
Proof.
  destruct n as [|p]; [discriminate|]. apply DecimalPos.Unsigned.to_uint_nonnil.
Qed.

Lemma digits_unfold (n : N) : digits n = NilEmpty.string_of_uint (N.to_uint n).
Proof.
  unfold digits, NilZero.string_of_uint.
  destruct (N.to_uint n) eqn:H; try reflexivity. now destruct (digits_not_nil n).
Qed.

Lemma digitString_digits (n : N) : digitString (digits n) = true.
Proof. rewrite digits_unfold. apply digitString_of_uint. Qed.

Lemma digits_not_empty (n : N) : isEmpty (digits n) = false.
Proof.
  rewrite digits_unfold. pose proof (digits_not_nil n) as H.
  destruct (N.to_uint n); try reflexivity. now destruct H.
Qed.

Lemma natural_digits (n : N) : natural (digits n) = n.
Proof.
  unfold natural. rewrite digits_unfold, NilEmpty.usu.
  apply DecimalN.Unsigned.of_to.
Qed.

(** The digits of a positive number do not start with a zero. *)
Lemma digits_no_leading_zero (n : N) :
  n <> 0%N -> startsWith "0" (digits n) = false.
Proof.
  intros Hn. rewrite digits_unfold.
  assert (Hnorm : N.to_uint n = Decimal.unorm (N.to_uint n)).
  { rewrite <- DecimalN.Unsigned.to_of, DecimalN.Unsigned.of_to. reflexivity. }
  destruct (N.to_uint n) as [|d| | | | | | | | |] eqn:Hd; try reflexivity.
  exfalso. rewrite DecimalFacts.unorm_D0 in Hnorm.
  unfold Decimal.unorm in Hnorm.
  destruct (Decimal.nzhead d) eqn:Hz;
    try (symmetry in Hnorm; rewrite <- Hz in Hnorm;
         exact (DecimalFacts.nzhead_nonzero _ _ Hnorm)).
  injection Hnorm as ->. apply Hn.
  apply DecimalN.Unsigned.to_uint_inj. rewrite Hd. reflexivity.
Qed.

Lemma spanDigits_append (ds rest : string) :
  digitString ds = true -> startsWithDigit rest = false ->
  spanDigits (ds ++ rest) = (ds, rest).
Proof.
  intros Hds Hrest. induction ds as [|c ds IH].
  - destruct rest as [|c r]; [reflexivity|]. unfold startsWithDigit in Hrest.
    cbn [append spanDigits]. now rewrite Hrest.
  - cbn [digitString] in Hds. apply andb_prop in Hds as [Hc Hds].
    cbn [append spanDigits]. rewrite Hc, (IH Hds). reflexivity.
Qed.

Lemma stripTrailingZeros_zeros (s : string) :
  stripTrailingZeros s
    ++ zeros (String.length s - String.length (stripTrailingZeros s)) = s
  /\ String.length (stripTrailingZeros s) <= String.length s.
Proof.
  induction s as [|c s [IH Hlen]]; [split; [reflexivity | apply Nat.le_refl]|].
  simpl. destruct (stripTrailingZeros s) as [|d t] eqn:Hs.
  - simpl in IH. rewrite Nat.sub_0_r in IH.
    destruct (Ascii.eqb_spec c "0") as [->|Hc]; simpl.
    + rewrite IH. split; [reflexivity | lia].
    + rewrite Nat.sub_0_r, IH. split; [reflexivity | lia].
  - simpl in *. rewrite IH. split; [reflexivity | lia].
Qed.

Lemma endsNumber_parts (rest : string) :
  endsNumber rest = true ->
  startsWithDigit rest = false
  /\ parseFraction rest = Some (EmptyString, rest)
  /\ parseExponent rest = Some (0%Z, rest).
Proof.
  destruct rest as [|c r]; [now repeat split|]. simpl. intros H.
  apply negb_true_iff in H.
  apply orb_false_iff in H as [H He2]. apply orb_false_iff in H as [H He1].
  apply orb_false_iff in H as [Hd Hdot].
  repeat split.
  - exact Hd.
  - unfold parseFraction. simpl. now rewrite Hdot.
  - now rewrite He1, He2.
Qed.

(** The number grammar reads a run of digits, not led by zero, that the text
    does not continue, as that integer. *)
Lemma parseNumber_digits (negative : bool) (n : N) (rest : string) :
  n <> 0%N -> endsNumber rest = true ->
  parseNumber ((if negative then "-" else "") ++ digits n ++ rest)
  = Some (Num ((if negative then -1 else 1) * Z.of_N n) 0, rest).
Proof.
  intros Hn Hrest.
  destruct (endsNumber_parts rest Hrest) as (Hd & Hfrac & Hexp).
  assert (Hsign :
    (let (neg, s1) :=
       match startsWithChar "-" ((if negative then "-" else "") ++ digits n ++ rest) with
       | Some r => (true, r)
       | None => (false, (if negative then "-" else "") ++ digits n ++ rest)
       end in (neg, s1)) = (negative, digits n ++ rest)).
  { destruct negative; [reflexivity|]. simpl.
    pose proof (digitString_digits n) as Hds. pose proof (digits_not_empty n) as Hne.
    destruct (digits n) as [|c ds]; [discriminate|]. simpl in *.
    apply andb_prop in Hds as [Hc _].
    destruct (Ascii.eqb_spec c "-") as [->|]; [discriminate | reflexivity]. }
  unfold parseNumber.
  destruct (match startsWithChar "-" _ with Some r => (true, r) | None => _ end)
    as [neg s1].
  injection Hsign as -> ->.
  rewrite (spanDigits_append _ _ (digitString_digits n) Hd).
  rewrite digits_not_empty, (digits_no_leading_zero n Hn). simpl andb. cbv iota.
  rewrite Hfrac, Hexp, append_nil_r, natural_digits.
  unfold makeNumber. simpl String.length.
  destruct (N.eqb_spec n 0) as [|_]; [contradiction|].
  simpl. rewrite Z.mul_1_r. reflexivity.
Qed.

Lemma plainNumber_text (n : number) :
  plainNumber n ->
  mant n <> 0%Z ->
  numberToString n
  = (if (mant n <? 0)%Z then "-" else "") ++ digits (Z.abs_N (mant n)).
Proof.
  intros [He Hlen] Hm. unfold numberToString.
  destruct (Z.eqb_spec (mant n) 0) as [|_]; [contradiction|].
  rewrite He, Z.add_0_r. unfold positiveToString.
  destruct (stripTrailingZeros_zeros (digits (Z.abs_N (mant n)))) as [Hz Hle].
  set (all := digits (Z.abs_N (mant n))) in *.
  assert (Hcase :
    ((Z.of_nat (String.length (stripTrailingZeros all)) <=? Z.of_nat (String.length all))
     && (Z.of_nat (String.length all) <=? 21))%Z = true).
  { apply andb_true_intro. split; apply Z.leb_le; lia. }
  rewrite Hcase. f_equal.
  replace (Z.to_nat (Z.of_nat (String.length all)
                     - Z.of_nat (String.length (stripTrailingZeros all))))
    with (String.length all - String.length (stripTrailingZeros all)) by lia.
  exact Hz.
Qed.

Lemma parseNumber_numberToString (n : number) (rest : string) :
  plainNumber n -> endsNumber rest = true ->
  parseNumber (numberToString n ++ rest) = Some (n, rest).
Proof.
  intros Hplain Hrest. destruct n as [m e]. pose proof Hplain as [He _].
  simpl in He. subst e.
  destruct (Z.eq_dec m 0) as [->|Hm].
  - destruct (endsNumber_parts rest Hrest) as (Hd & Hfrac & Hexp).
    change (numberToString (Num 0 0)) with "0".
    unfold parseNumber. simpl startsWithChar. cbv iota.
    change ("0" ++ rest) with (String "0" rest).
    simpl spanDigits.
    replace (spanDigits rest) with (EmptyString, rest)
      by (destruct rest as [|c r]; [reflexivity | simpl in *; now rewrite Hd]).
    simpl. rewrite Hfrac, Hexp. reflexivity.
  - rewrite (plainNumber_text _ Hplain Hm), append_assoc. simpl mant.
    assert (Hn : Z.abs_N m <> 0%N) by lia.
    rewrite (parseNumber_digits (m <? 0)%Z (Z.abs_N m) rest Hn Hrest).
    do 2 f_equal. f_equal.
    destruct (Z.ltb_spec m 0); rewrite N2Z.inj_abs_N; lia.
Qed.

(** ** Values *)

Lemma digit_starts_value (c : ascii) :
  isDigit c || Ascii.eqb c "-" = true ->
  isJsonWhiteSpace c = false /\ Ascii.eqb c "]" = false
  /\ forall f r,
       parseValue (S f) (String c r)
       = match parseNumber (String c r) with
         | Some (n, rest) => Some (JNum n, rest)
         | None => None
         end.
Proof.
  destruct c as [[] [] [] [] [] [] [] []]; intros H; try discriminate H;
    repeat split.
Qed.

Lemma numberToString_head (n : number) :
  plainNumber n ->
  exists c r, numberToString n = String c r /\ isDigit c || Ascii.eqb c "-" = true.
Proof.
  intros Hplain. destruct (Z.eq_dec (mant n) 0) as [Hz|Hnz].
  - exists "0"%char, EmptyString. unfold numberToString. rewrite Hz. now split.
  - rewrite (plainNumber_text _ Hplain Hnz).
    destruct (mant n <? 0)%Z.
    + eexists _, _. split; reflexivity.
    + pose proof (digitString_digits (Z.abs_N (mant n))) as Hds.
      pose proof (digits_not_empty (Z.abs_N (mant n))) as Hne.
      destruct (digits (Z.abs_N (mant n))) as [|c ds]; [discriminate|].
      cbn [digitString] in Hds. apply andb_prop in Hds as [Hc _].
      exists c, ds. split; [reflexivity|]. now rewrite Hc.
Qed.

Lemma plain_serialize (v : value) : plain v -> exists t, serialize v = Some t.
Proof. destruct 1; simpl; eauto. destruct b; eauto. Qed.

Lemma plain_elementText (v : value) (t : string) :
  serialize v = Some t -> elementText v = t.
Proof. unfold elementText. now intros ->. Qed.

(** The text of a plain value starts with a character that is neither white
    space nor a closing bracket. *)
Lemma serialize_head (v : value) (t : string) :
  plain v -> serialize v = Some t ->
  exists c r, t = String c r /\ isJsonWhiteSpace c = false /\ Ascii.eqb c "]" = false.
Proof.
  destruct 1 as [|b|n Hn|s|l Hl|ps Ho Hps]; simpl; intros H.
  - injection H as <-. now eexists _, _.
  - destruct b; injection H as <-; now eexists _, _.
  - injection H as <-. destruct (numberToString_head n Hn) as (c & r & -> & Hc).
    destruct (digit_starts_value c Hc) as (Hw & Hb & _). now exists c, r.
  - injection H as <-. now eexists _, _.
  - injection H as <-. now eexists _, _.
  - injection H as <-. now eexists _, _.
Qed.

Lemma join_cons2 (sep x y : string) (r : list string) :
  join sep (x :: y :: r) = x ++ sep ++ join sep (y :: r).
Proof. reflexivity. Qed.

Lemma flat_map_memberTexts (ps : list (string * value)) :
  Forall (fun kv => plain (snd kv)) ps ->
  flat_map memberTexts ps = map memberText ps.
Proof.
  induction 1 as [|kv r Hkv _ IH]; [reflexivity|].
  simpl. rewrite IH. unfold memberTexts, memberText, elementText.
  destruct (plain_serialize _ Hkv) as [t ->]. reflexivity.
Qed.

Lemma parseElements_texts (l : list value) :
  Forall readsBack l -> Forall plain l -> l <> [] ->
  forall fuel acc rest,
    2 * String.length (join "," (map elementText l)) + 1 < fuel ->
    parseElements fuel (join "," (map elementText l) ++ "]" ++ rest) acc
    = Some (JArr (acc ++ l), rest).
Proof.
  induction 1 as [|x r Hx Hr IH]; intros Hplain Hne fuel acc rest Hfuel;
    [contradiction|].
  inversion Hplain as [|? ? Hpx Hpr]; subst.
  destruct (plain_serialize x Hpx) as [t Ht].
  destruct fuel as [|f]; [lia|].
  destruct r as [|y r].
  - (* the last element *)
    simpl map in *. simpl join in *. rewrite (plain_elementText _ _ Ht) in *.
    cbn [parseElements].
    rewrite (Hx Hpx t Ht f ("]" ++ rest)) by (try reflexivity; lia).
    reflexivity.
  - (* an element and a comma *)
    cbn [map] in *. rewrite join_cons2 in *. rewrite (plain_elementText _ _ Ht) in *.
    rewrite !append_assoc. cbn [parseElements].
    rewrite !length_append in Hfuel. change (String.length ",") with 1 in Hfuel.
    rewrite (Hx Hpx t Ht f) by (try reflexivity; lia).
    change (skipWhiteSpace ("," ++ ?z)) with (String "," z).
    cbv iota. rewrite Ascii.eqb_refl.
    rewrite (IH Hpr ltac:(discriminate) f (acc ++ [x])%list rest) by lia.
    now rewrite <- List.app_assoc.
Qed.

Lemma parseMembers_step (f : nat) (k t : string) (v : value) (tail : string)
  (acc : list (string * value)) :
  parseValue f (t ++ tail) = Some (v, tail) ->
  parseMembers (S f) (quote k ++ ":" ++ t ++ tail) acc
  = match skipWhiteSpace tail with
    | String c r =>
        if Ascii.eqb c "," then parseMembers f r (setProp k v acc)
        else if Ascii.eqb c "}" then Some (JObj (setProp k v acc), r)
        else None
    | EmptyString => None
    end.
Proof.
  intros Hvalue. rewrite quote_append. cbn [parseMembers].
  change (skipWhiteSpace (String dquote ?x)) with (String dquote x).
  unfold expect at 1. cbn [startsWithChar]. rewrite Ascii.eqb_refl.
  rewrite parseChars_quoteChars.
  change (skipWhiteSpace (":" ++ ?z)) with (String ":" z).
  unfold expect. cbn [startsWithChar]. rewrite Ascii.eqb_refl.
  now rewrite Hvalue.
Qed.

Lemma parseMembers_texts (ps : list (string * value)) :
  Forall (fun kv => readsBack (snd kv)) ps ->
  Forall (fun kv => plain (snd kv)) ps -> ps <> [] ->
  forall fuel acc rest,
    2 * String.length (join "," (map memberText ps)) + 1 < fuel ->
    parseMembers fuel (join "," (map memberText ps) ++ "}" ++ rest) acc
    = Some (JObj (fold_left assign ps acc), rest).
Proof.
  induction 1 as [|[k x] r Hx Hr IH]; intros Hplain Hne fuel acc rest Hfuel;
    [contradiction|].
  inversion Hplain as [|? ? Hpx Hpr]; subst. cbn [snd] in Hx, Hpx.
  destruct (plain_serialize x Hpx) as [t Ht].
  destruct fuel as [|f]; [lia|].
  assert (Hmember : memberText (k, x) = quote k ++ ":" ++ t).
  { unfold memberText. cbn [fst snd]. now rewrite (plain_elementText _ _ Ht). }
  assert (Hlen : String.length (memberText (k, x)) = String.length (quote k) + 1 + String.length t).
  { rewrite Hmember, !length_append. change (String.length ":") with 1. lia. }
  destruct r as [|kv r].
  - (* the last member *)
    cbn [map join] in *. rewrite Hlen in Hfuel. rewrite Hmember, !append_assoc.
    rewrite parseMembers_step with (v := x)
      by (apply (Hx Hpx t Ht); [lia | reflexivity]).
    reflexivity.
  - (* a member and a comma *)
    cbn [map] in *. rewrite join_cons2 in *.
    rewrite !length_append, Hlen in Hfuel. change (String.length ",") with 1 in Hfuel.
    rewrite Hmember, !append_assoc.
    rewrite parseMembers_step with (v := x)
      by (apply (Hx Hpx t Ht); [lia | reflexivity]).
    change (skipWhiteSpace ("," ++ ?z)) with (String "," z).
    cbv iota. rewrite Ascii.eqb_refl.
    rewrite (IH Hpr ltac:(discriminate) f (setProp k x acc) rest) by lia.
    reflexivity.
Qed.

(** [parseValue] reads the text of a plain value back, with fuel above twice
    the length of the text. *)
Lemma parseValue_serialize : forall v, readsBack v.
Proof.
  induction v as [| |b|n|s|l IH|ps IH] using value_nested_ind;
    intros Hplain t Ht fuel rest Hfuel Hrest;
    (destruct fuel as [|f]; [lia|]).
  - discriminate.
  - injection Ht as <-. reflexivity.
  - destruct b; injection Ht as <-; reflexivity.
  - injection Ht as <-. inversion Hplain as [| |? Hn| | |]; subst.
    destruct (numberToString_head n Hn) as (c & r & Htext & Hc).
    destruct (digit_starts_value c Hc) as (_ & _ & Hvalue).
    pose proof (parseNumber_numberToString n rest Hn Hrest) as Hparse.
    rewrite Htext in *. cbn [append] in *. now rewrite Hvalue, Hparse.
  - injection Ht as <-. rewrite quote_append. cbn [parseValue].
    change (skipWhiteSpace (String dquote ?x)) with (String dquote x).
    cbv iota. change (Ascii.eqb dquote "{") with false.
    change (Ascii.eqb dquote "[") with false. rewrite Ascii.eqb_refl.
    now rewrite parseChars_quoteChars.
  - (* arrays *)
    change (Some ("[" ++ join "," (map elementText l) ++ "]") = Some t) in Ht.
    injection Ht as <-. inversion Hplain as [| | | |? Hl|]; subst.
    destruct l as [|x l]; [reflexivity|].
    assert (Hhead : exists c r,
               join "," (map elementText (x :: l)) = String c r
               /\ isJsonWhiteSpace c = false /\ Ascii.eqb c "]" = false).
    { inversion Hl as [|? ? Hpx _]; subst.
      destruct (plain_serialize x Hpx) as [tx Htx].
      destruct (serialize_head x tx Hpx Htx) as (c & r & -> & Hw & Hb).
      destruct l; cbn [map]; rewrite (plain_elementText _ _ Htx);
        [now exists c, r|].
      rewrite join_cons2. cbn [append]. now eexists _, _. }
    cbn [String.length append] in Hfuel. rewrite !length_append in Hfuel.
    cbn [String.length] in Hfuel.
    cbn [append]. rewrite !append_assoc.
    cbn [parseValue].
    change (skipWhiteSpace (String "[" ?x)) with (String "[" x).
    cbv iota. change (Ascii.eqb "[" "{") with false. rewrite Ascii.eqb_refl.
    rewrite (parseElements_texts (x :: l) IH Hl ltac:(discriminate) f [] rest) by lia.
    destruct Hhead as (c & r & -> & Hw & Hb).
    cbn [append skipWhiteSpace]. rewrite Hw. unfold expect. cbn [startsWithChar].
    now rewrite Hb.
  - (* objects *)
    change (Some ("{" ++ join "," (flat_map memberTexts ps) ++ "}") = Some t) in Ht.
    injection Ht as <-. inversion Hplain as [| | | | |? Ho Hps]; subst.
    rewrite (flat_map_memberTexts ps Hps) in *.
    destruct ps as [|[k x] ps]; [reflexivity|].
    assert (Hhead : exists r, join "," (map memberText ((k, x) :: ps)) = String dquote r).
    { destruct ps; cbn [map]; [|rewrite join_cons2]; unfold memberText at 1, quote;
        cbn [fst join append]; now eexists. }
    cbn [String.length append] in Hfuel. rewrite !length_append in Hfuel.
    cbn [String.length] in Hfuel.
    cbn [append]. rewrite !append_assoc.
    cbn [parseValue].
    change (skipWhiteSpace (String "{" ?x)) with (String "{" x).
    cbv iota. rewrite Ascii.eqb_refl.
    rewrite (parseMembers_texts ((k, x) :: ps) IH Hps ltac:(discriminate) f [] rest)
      by lia.
    destruct Hhead as (r & ->).
    cbn [append]. change (skipWhiteSpace (String dquote ?x)) with (String dquote x).
    unfold expect. cbn [startsWithChar]. change (Ascii.eqb dquote "}") with false.
    cbv iota. unfold ordered, object in Ho. injection Ho as Ho.
    change (fold_left assign ((k, x) :: ps) [] = (k, x) :: ps) in Ho.
    now rewrite Ho.
Qed.

(** [JSON.parse (JSON.stringify v) = v] for the plain values. *)
Lemma parse_serialize (v : value) (t : string) :
  plain v -> serialize v = Some t -> parse t = Some v.
Proof.
  intros Hplain Ht. unfold parse.
  rewrite <- (append_nil_r t) at 2.
  rewrite (parseValue_serialize v Hplain t Ht (S (2 * String.length t)) "")
    by (try reflexivity; lia).
  reflexivity.
Qed.


(** ** The scan for a balanced object, on the text of a value *)

Import ActionProtocol.

Lemma scan_char (c : ascii) (text rest : string) (index : nat) (depth : Z)
  (inString : bool) (start : Z) :
  isScanSpecial c = false ->
  scanObject text (String c rest) index depth inString false start
  = scanObject text rest (S index) depth inString false start.
Proof.
  unfold isScanSpecial. intros H.
  apply orb_false_iff in H as [H Hclose]. apply orb_false_iff in H as [H Hopen].
  apply orb_false_iff in H as [Hback Hquote].
  cbn [scanObject]. rewrite Hback, Hquote, Hopen, Hclose.
  destruct inString; reflexivity.
Qed.

Lemma scan_noneSpecial (s : string) :
  noneSpecial s = true ->
  forall text rest index depth inString start,
    scanObject text (s ++ rest) index depth inString false start
    = scanObject text rest (String.length s + index) depth inString false start.
Proof.
  induction s as [|c s IH]; intros Hs text rest index depth inString start;
    [reflexivity|].
  cbn [noneSpecial] in Hs. apply andb_prop in Hs as [Hc Hs].
  apply negb_true_iff in Hc.
  cbn [append]. rewrite (scan_char _ _ _ _ _ _ _ Hc), (IH Hs).
  f_equal. simpl. lia.
Qed.

Lemma scan_quoteChar (c : ascii) (text rest : string) (index : nat) (depth : Z)
  (start : Z) :
  scanObject text (quoteChar c ++ rest) index depth true false start
  = scanObject text rest (String.length (quoteChar c) + index) depth true false start.
Proof.
  destruct c as [[] [] [] [] [] [] [] []]; reflexivity.
Qed.

Lemma scan_quoteChars (s : string) (text rest : string) (index : nat) (depth : Z)
  (start : Z) :
  scanObject text (quoteChars s ++ rest) index depth true false start
  = scanObject text rest (String.length (quoteChars s) + index) depth true false start.
Proof.
  revert index. induction s as [|c s IH]; intros index; [reflexivity|].
  cbn [quoteChars]. rewrite append_assoc, scan_quoteChar, IH, length_append.
  f_equal. lia.
Qed.

Lemma scan_quote (s : string) (text rest : string) (index : nat) (depth : Z)
  (start : Z) :
  scanObject text (quote s ++ rest) index depth false false start
  = scanObject text rest (String.length (quote s) + index) depth false false start.
Proof.
  rewrite quote_append. unfold quote.
  cbn [scanObject]. change (Ascii.eqb dquote backslash) with false.
  rewrite Ascii.eqb_refl. cbv iota. cbn [negb].
  rewrite scan_quoteChars.
  cbn [scanObject]. change (Ascii.eqb dquote backslash) with false.
  rewrite Ascii.eqb_refl. cbv iota. cbn [negb].
  f_equal. cbn [String.length]. rewrite length_append. simpl. lia.
Qed.

Lemma digit_not_special (c : ascii) : isDigit c = true -> isScanSpecial c = false.
Proof. destruct c as [[] [] [] [] [] [] [] []]; intros H; try discriminate H; reflexivity. Qed.

Lemma digitString_noneSpecial (s : string) :
  digitString s = true -> noneSpecial s = true.
Proof.
  induction s as [|c s IH]; [reflexivity|]. cbn [digitString noneSpecial].
  intros H. apply andb_prop in H as [Hc Hs].
  now rewrite (digit_not_special c Hc), (IH Hs).
Qed.

Lemma numberToString_noneSpecial (n : number) :
  plainNumber n -> noneSpecial (numberToString n) = true.
Proof.
  intros Hplain. destruct (Z.eq_dec (mant n) 0) as [Hz|Hnz].
  - unfold numberToString. now rewrite Hz.
  - rewrite (plainNumber_text _ Hplain Hnz).
    pose proof (digitString_noneSpecial _ (digitString_digits (Z.abs_N (mant n)))).
    destruct (mant n <? 0)%Z; [cbn [append noneSpecial]; simpl negb|]; assumption.
Qed.

Lemma scan_elements (l : list value) :
  Forall scannedOver l -> Forall plain l ->
  forall text rest index depth start,
    (0 < depth)%Z ->
    scanObject text (join "," (map elementText l) ++ rest) index depth false false start
    = scanObject text rest (String.length (join "," (map elementText l)) + index)
        depth false false start.
Proof.
  induction 1 as [|x r Hx Hr IH]; intros Hplain text rest index depth start Hdepth;
    [reflexivity|].
  inversion Hplain as [|? ? Hpx Hpr]; subst.
  destruct (plain_serialize x Hpx) as [t Ht].
  destruct r as [|y r].
  - cbn [map join]. rewrite (plain_elementText _ _ Ht).
    apply (Hx Hpx t Ht); assumption.
  - cbn [map] in *. rewrite join_cons2, (plain_elementText _ _ Ht), !append_assoc.
    rewrite (Hx Hpx t Ht) by assumption.
    cbn [append]. rewrite scan_char by reflexivity.
    rewrite (IH Hpr) by assumption.
    f_equal. rewrite !length_append. simpl. lia.
Qed.

Lemma scan_members (ps : list (string * value)) :
  Forall (fun kv => scannedOver (snd kv)) ps ->
  Forall (fun kv => plain (snd kv)) ps ->
  forall text rest index depth start,
    (0 < depth)%Z ->
    scanObject text (join "," (map memberText ps) ++ rest) index depth false false start
    = scanObject text rest (String.length (join "," (map memberText ps)) + index)
        depth false false start.
Proof.
  induction 1 as [|[k x] r Hx Hr IH]; intros Hplain text rest index depth start Hdepth;
    [reflexivity|].
  inversion Hplain as [|? ? Hpx Hpr]; subst. cbn [snd] in Hx, Hpx.
  destruct (plain_serialize x Hpx) as [t Ht].
  assert (Hmember : memberText (k, x) = quote k ++ ":" ++ t).
  { unfold memberText. cbn [fst snd]. now rewrite (plain_elementText _ _ Ht). }
  assert (Hone : forall rest index,
    scanObject text (memberText (k, x) ++ rest) index depth false false start
    = scanObject text rest (String.length (memberText (k, x)) + index)
        depth false false start).
  { intros rest0 index0. rewrite Hmember, !append_assoc, scan_quote.
    cbn [append]. rewrite scan_char by reflexivity.
    rewrite (Hx Hpx t Ht) by assumption.
    f_equal. rewrite !length_append. simpl. lia. }
  destruct r as [|kv r].
  - cbn [map join]. apply Hone.
  - cbn [map] in *. rewrite join_cons2, !append_assoc, Hone.
    cbn [append]. rewrite scan_char by reflexivity.
    rewrite (IH Hpr) by assumption.
    f_equal. rewrite !length_append. simpl. lia.
Qed.

Lemma scan_serialize : forall v, scannedOver v.
Proof.
  induction v as [| |b|n|s|l IH|ps IH] using value_nested_ind;
    intros Hplain t Ht text rest index depth start Hdepth.
  - discriminate.
  - injection Ht as <-. now apply scan_noneSpecial.
  - destruct b; injection Ht as <-; now apply scan_noneSpecial.
  - injection Ht as <-. inversion Hplain as [| |? Hn| | |]; subst.
    now apply scan_noneSpecial, numberToString_noneSpecial.
  - injection Ht as <-. apply scan_quote.
  - change (Some ("[" ++ join "," (map elementText l) ++ "]") = Some t) in Ht.
    injection Ht as <-. inversion Hplain as [| | | |? Hl|]; subst.
    cbn [append]. rewrite ?append_assoc. rewrite scan_char by reflexivity.
    rewrite (scan_elements l IH Hl) by assumption.
    cbn [append]. rewrite scan_char by reflexivity.
    f_equal. cbn [String.length]. rewrite length_append. simpl. lia.
  - change (Some ("{" ++ join "," (flat_map memberTexts ps) ++ "}") = Some t) in Ht.
    injection Ht as <-. inversion Hplain as [| | | | |? Ho Hps]; subst.
    rewrite (flat_map_memberTexts ps Hps).
    cbn [append]. rewrite ?append_assoc. cbn [scanObject].
    change (Ascii.eqb "{" backslash) with false.
    change (Ascii.eqb "{" dquote) with false. rewrite Ascii.eqb_refl. cbv iota.
    destruct (Z.eqb_spec depth 0) as [|_]; [lia|].
    rewrite (scan_members ps IH Hps) by lia.
    cbn [append scanObject].
    change (Ascii.eqb "}" backslash) with false.
    change (Ascii.eqb "}" dquote) with false.
    change (Ascii.eqb "}" "{") with false. rewrite Ascii.eqb_refl. cbv iota.
    replace (depth + 1 - 1)%Z with depth by lia.
    destruct (Z.eqb_spec depth 0) as [|_]; [lia|]. cbn [andb].
    f_equal. cbn [String.length]. rewrite length_append. simpl. lia.
Qed.

(** ** The observation block (C6) *)

Lemma substring_all (t r : string) :
  substring 0 (String.length t) (t ++ r) = t.
Proof. induction t as [|c t IH]; simpl; [now destruct r | now rewrite IH]. Qed.

Lemma substring_after (p t r : string) :
  substring (String.length p) (String.length t) (p ++ t ++ r) = t.
Proof. induction p as [|c p IH]; simpl; [apply substring_all | exact IH]. Qed.

(** After a prefix without braces, quotes or backslashes, the scan finds the
    text of a plain object, whole. *)
Lemma extractFirstJsonObject_serialize (prefix : string) (ps : list (string * value))
  (t : string) :
  noneSpecial prefix = true ->
  plain (JObj ps) -> serialize (JObj ps) = Some t ->
  extractFirstJsonObject (prefix ++ t) = Some t.
Proof.
  intros Hprefix Hplain Ht.
  change (Some ("{" ++ join "," (flat_map memberTexts ps) ++ "}") = Some t) in Ht.
  injection Ht as <-. inversion Hplain as [| | | | |? Ho Hps]; subst.
  rewrite (flat_map_memberTexts ps Hps).
  set (body := join "," (map memberText ps)).
  unfold extractFirstJsonObject.
  set (text := prefix ++ String "{" (body ++ "}")) at 1.
  rewrite (scan_noneSpecial prefix Hprefix).
  cbn [append scanObject].
  change (Ascii.eqb "{" backslash) with false.
  change (Ascii.eqb "{" dquote) with false. rewrite Ascii.eqb_refl. cbv iota.
  cbn [Z.eqb Z.add].
  assert (Hvalues : Forall (fun kv => scannedOver (snd kv)) ps).
  { apply Forall_forall. intros kv _. apply scan_serialize. }
  unfold body at 1. rewrite (scan_members ps Hvalues Hps) by lia. fold body.
  cbn [scanObject].
  change (Ascii.eqb "}" backslash) with false.
  change (Ascii.eqb "}" dquote) with false.
  change (Ascii.eqb "}" "{") with false. rewrite Ascii.eqb_refl. cbv iota.
  replace ((1 - 1 =? 0)%Z && negb (Z.of_nat (String.length prefix + 0) =? -1)%Z)
    with true
    by (symmetry; apply andb_true_intro; split;
        [reflexivity | apply negb_true_iff, Z.eqb_neq; lia]).
  f_equal. rewrite Nat2Z.id, Nat.add_0_r.
  replace (S (String.length body + S (String.length prefix)) - String.length prefix)
    with (String.length (String "{" (body ++ "}")))
    by (cbn [String.length]; rewrite length_append;
        change (String.length "}") with 1; lia).
  unfold text. rewrite <- (append_nil_r (String "{" (body ++ "}"))) at 2.
  apply substring_after.
Qed.





End Json.

(* ================================================================== *)
(** * The signature of a tool call (C1) *)
(* ================================================================== *)

Section Signature.

Import Js Host AgentSettings ActionProtocol HistoryAdapter.
Import ToolRegistry ModelClient AgentModeRunner Trace LoopSpec JsonSpec.





Import Scenario.



End Signature.

(* ================================================================== *)
(** * Further properties of the action protocol *)
(* ================================================================== *)

Section Whitespace.

Import Js.

Lemma trimEnd_idempotent (s : string) : trimEnd (trimEnd s) = trimEnd s.
Proof.
  induction s as [|c r IH]; [reflexivity|].
  cbn [trimEnd]. destruct (trimEnd r) as [|d r'] eqn:Hr.
  - destruct (isWhiteSpace c) eqn:Hc; [reflexivity|].
    cbn [trimEnd]. now rewrite Hc.
  - cbn [trimEnd] in *. now rewrite IH.
Qed.

Lemma trimStart_fixed (c : ascii) (r : string) :
  isWhiteSpace c = false -> trimStart (String c r) = String c r.
Proof. intros Hc. cbn [trimStart]. now rewrite Hc. Qed.

Lemma trimEnd_head (c : ascii) (r : string) :
  isWhiteSpace c = false -> exists r', trimEnd (String c r) = String c r'.
Proof.
  intros Hc. cbn [trimEnd]. destruct (trimEnd r) as [|d r'].
  - rewrite Hc. now exists "".
  - now exists (String d r').
Qed.

Lemma trimStart_head (s : string) :
  trimStart s = "" \/ exists c r, trimStart s = String c r /\ isWhiteSpace c = false.
Proof.
  induction s as [|c r IH]; [now left|].
  cbn [trimStart]. destruct (isWhiteSpace c) eqn:Hc; [exact IH|].
  right. now exists c, r.
Qed.

(** A trimmed text is empty or begins with a character that is no white
    space. *)
Lemma trim_head (s : string) :
  trim s = "" \/ exists c r, trim s = String c r /\ isWhiteSpace c = false.
Proof.
  unfold trim. destruct (trimStart_head s) as [->|(c & r & -> & Hc)]; [now left|].
  right. destruct (trimEnd_head c r Hc) as [r' ->]. now exists c, r'.
Qed.

Lemma trim_idempotent (s : string) : trim (trim s) = trim s.
Proof.
  destruct (trim_head s) as [->|(c & r & Heq & Hc)]; [reflexivity|].
  unfold trim at 1. rewrite Heq, (trimStart_fixed c r Hc), <- Heq.
  unfold trim. apply trimEnd_idempotent.
Qed.





End Whitespace.

Section CodecProperties.

Import Js Regex ActionProtocol JsonSpec PropertySpec.

(** ** The balanced-brace scan *)




Lemma scan_shape (rest : string) :
  forall (text pre : string) (index : nat) (depth : Z) (inString escapeNext : bool)
         (start : Z) (block : string),
    text = pre ++ rest -> index = String.length pre ->
    (start = (-1)%Z
     \/ exists a b, pre = a ++ String "{" b /\ start = Z.of_nat (String.length a)) ->
    scanObject text rest index depth inString escapeNext start = Some block ->
    exists before body after,
      block = String "{" (body ++ "}") /\ text = before ++ block ++ after.
Proof.
  induction rest as [|c rest IH];
    intros text pre index depth inString escapeNext start block Htext Hindex Hstart Hscan;
    [discriminate|].
  assert (Htext' : text = (pre ++ String c "") ++ rest)
    by (now rewrite append_assoc).
  assert (Hindex' : S index = String.length (pre ++ String c ""))
    by (rewrite length_append; simpl; lia).
  assert (Hkeep : start = (-1)%Z
                  \/ exists a b, pre ++ String c "" = a ++ String "{" b
                                 /\ start = Z.of_nat (String.length a)).
  { destruct Hstart as [->|(a & b & -> & ->)]; [now left|right].
    exists a, (b ++ String c ""). split; [|reflexivity].
    rewrite append_assoc. reflexivity. }
  cbn [scanObject] in Hscan.
  destruct escapeNext; [exact (IH _ _ _ _ _ _ _ _ Htext' Hindex' Hkeep Hscan)|].
  destruct (Ascii.eqb c backslash);
    [exact (IH _ _ _ _ _ _ _ _ Htext' Hindex' Hkeep Hscan)|].
  destruct (Ascii.eqb c dquote);
    [exact (IH _ _ _ _ _ _ _ _ Htext' Hindex' Hkeep Hscan)|].
  destruct inString; [exact (IH _ _ _ _ _ _ _ _ Htext' Hindex' Hkeep Hscan)|].
  destruct (Ascii.eqb_spec c "{") as [->|_].
  { refine (IH _ _ _ _ _ _ _ _ Htext' Hindex' _ Hscan).
    destruct (depth =? 0)%Z; [|exact Hkeep].
    right. exists pre, "". split; [reflexivity | now rewrite Hindex]. }
  destruct (Ascii.eqb_spec c "}") as [->|_];
    [|exact (IH _ _ _ _ _ _ _ _ Htext' Hindex' Hkeep Hscan)].
  destruct ((depth - 1 =? 0)%Z && negb (start =? -1)%Z) eqn:Hclose;
    [|exact (IH _ _ _ _ _ _ _ _ Htext' Hindex' Hkeep Hscan)].
  apply andb_prop in Hclose as [_ Hset]. apply negb_true_iff, Z.eqb_neq in Hset.
  destruct Hstart as [->|(a & b & -> & ->)]; [contradiction|].
  injection Hscan as <-. rewrite Nat2Z.id.
  exists a, b, rest.
  assert (Hshape : text = a ++ String "{" (b ++ "}") ++ rest).
  { rewrite Htext, append_assoc. cbn [append]. now rewrite append_assoc. }
  assert (Hblock : substring (String.length a) (S index - String.length a) text
                   = String "{" (b ++ "}")).
  { replace (S index - String.length a)
      with (String.length (String "{" (b ++ "}")))
      by (rewrite Hindex; cbn [String.length]; rewrite !length_append;
          cbn [String.length]; lia).
    rewrite Hshape. apply substring_after. }
  change (match String.length a with 0 => S index | S l => index - l end)
    with (S index - String.length a).
  rewrite Hblock. split; [reflexivity | exact Hshape].
Qed.

Lemma includes_brace (c : ascii) (r : string) :
  includes "{" (String c r) = Ascii.eqb c "{" || includes "{" r.
Proof.
  cbn [includes startsWith]. rewrite andb_true_r, (Ascii.eqb_sym "{" c). reflexivity.
Qed.

Lemma scan_without_brace (rest : string) :
  includes "{" rest = false ->
  forall text index depth inString escapeNext,
    scanObject text rest index depth inString escapeNext (-1)%Z = None.
Proof.
  induction rest as [|c rest IH]; intros Hrest text index depth inString escapeNext;
    [reflexivity|].
  rewrite includes_brace in Hrest. apply orb_false_iff in Hrest as [Hc Hrest].
  cbn [scanObject]. rewrite Hc.
  change ((-1 =? -1)%Z) with true. cbn [negb]. rewrite andb_false_r.
  repeat match goal with |- context [if ?b then _ else _] => destruct b end;
    apply (IH Hrest).
Qed.

(** What [extractFirstJsonObject] returns.  For every text: a block that is
    returned is a piece of the text that begins with an opening brace and
    ends with a closing brace; and a text without any opening brace gives
    [null]. *)
Theorem extractFirstJsonObject_block :
  forall (text : string),
    (forall block, extractFirstJsonObject text = Some block ->
       exists before body after,
         block = String "{" (body ++ "}") /\ text = before ++ block ++ after)
    /\ (includes "{" text = false -> extractFirstJsonObject text = None).
Proof.
  intros text. split.
  - intros block Hscan.
    apply (scan_shape text text "" 0 0%Z false false (-1)%Z block);
      [reflexivity | reflexivity | now left | exact Hscan].
  - intros Hnone. now apply scan_without_brace.
Qed.

(** The block of a prose text, and a text that only closes braces. *)
Lemma extractFirstJsonObject_block_witness :
  (exists before body after,
     q "{'type':'tool','tool':'t'}" = String "{" (body ++ "}")
     /\ Scenario.proseText = before ++ q "{'type':'tool','tool':'t'}" ++ after)
  /\ extractFirstJsonObject "a } b }" = None.
Proof.
  destruct (extractFirstJsonObject_block Scenario.proseText) as [Hblock _].
  destruct (extractFirstJsonObject_block "a } b }") as [_ Hnone].
  split; [apply Hblock | apply Hnone]; reflexivity.
Defined.

(** ** Candidates and actions *)







Lemma firstAction_normalized (candidates : list string) (a : action) :
  firstAction candidates = Some a ->
  exists parsed, normalizeAction parsed = Some a.
Proof.
  induction candidates as [|candidate rest IH]; [discriminate|].
  cbn [firstAction]. destruct (parse candidate) as [parsed|]; [|exact IH].
  destruct (normalizeAction parsed) as [normalized|] eqn:Hnormal; [|exact IH].
  intros [= <-]. now exists parsed.
Qed.

(** What a parsed action is made of.  For every text: a tool action that
    [parseAgentAction] returns has a name that is not empty and has no white
    space around it, and an input that is an object or an array, never
    [null] or a primitive (a missing or other input has become [{}]). *)
Theorem parseAgentAction_tool_well_formed :
  forall (rawText tool : string) (input : value),
    parseAgentAction rawText = Some (Tool tool input) ->
    tool <> "" /\ trim tool = tool /\ isObjectValue input = true.
Proof.
  intros rawText tool input Hparse.
  destruct (firstAction_normalized _ _ Hparse) as [parsed Hnormal].
  unfold normalizeAction in Hnormal.
  destruct (negb (truthy parsed) || negb (typeofObject parsed)); [discriminate|].
  destruct (String.eqb _ "final"); [discriminate|].
  destruct (String.eqb _ "tool"); [|discriminate].
  destruct (get parsed "tool") as [| | | |name| |]; try discriminate.
  destruct (isEmpty (trim name)) eqn:Hname; [discriminate|].
  injection Hnormal as <- <-.
  split; [intros Heq; now rewrite Heq in Hname|]. split; [apply trim_idempotent|].
  rewrite (object_test (get parsed "input")).
  destruct (isObjectValue (get parsed "input")) eqn:Hinput; [exact Hinput | reflexivity].
Qed.

(** A padded name and an input that is a number. *)
Lemma parseAgentAction_tool_well_formed_witness :
  parseAgentAction (q "{'type':'tool','tool':'  read_file ','input':7}")
  = Some (Tool "read_file" (JObj []))
  /\ trim "read_file" = "read_file" /\ isObjectValue (JObj []) = true.
Proof.
  destruct (parseAgentAction_tool_well_formed
              (q "{'type':'tool','tool':'  read_file ','input':7}")
              "read_file" (JObj []) eq_refl) as (_ & Htrim & Hobject).
  split; [reflexivity|]. split; [exact Htrim | exact Hobject].
Defined.

(** White space around the text of the model does not count.  For every
    text, [parseAgentAction] gives the same on the text and on the text
    trimmed; and a text that is empty or white space only is no action. *)
Theorem parseAgentAction_ignores_outer_whitespace :
  forall (rawText : string),
    parseAgentAction (trim rawText) = parseAgentAction rawText
    /\ (trim rawText = "" -> parseAgentAction rawText = None).
Proof.
  intros rawText. unfold parseAgentAction, collectJsonCandidates.
  rewrite trim_idempotent. split; [reflexivity|].
  intros ->. reflexivity.
Qed.

(** ** An action inside prose *)














(** ** An action inside a fenced block *)























(** ** The observation block *)

(** The observation block is a JSON object whatever the tool returned.  For
    every tool name and every result, of any shape, missing or [null]
    included, whose [metadata] is not an object: the block that
    [formatToolObservation] writes starts with the marker line, and the
    object found in it reads back with exactly the keys [tool], [ok],
    [output] and [error], in this order, where [ok] is a boolean, false
    exactly when the result is missing or its [ok] is [false]; [output] is
    the output of the result when that is a string and the empty string
    otherwise; and [error] is [null] or a string. *)
Theorem observation_is_always_an_object :
  forall (toolName : string) (result : value),
    truthy result && isObjectValue (get result "metadata") = false ->
    exists (error : value),
      formatToolObservation toolName result
      = "TOOL_RESULT" ++ newline
          ++ toString (stringify (JObj [("tool", JStr toolName);
                                        ("ok", JBool (truthy result
                                                      && negb match get result "ok" with
                                                              | JBool false => true
                                                              | _ => false
                                                              end));
                                        ("output",
                                         JStr (if truthy result
                                               then stringOr (get result "output") ""
                                               else ""));
                                        ("error", error)]))
      /\ reparse (formatToolObservation toolName result)
         = Some (JObj [("tool", JStr toolName);
                       ("ok", JBool (truthy result
                                     && negb match get result "ok" with
                                             | JBool false => true
                                             | _ => false
                                             end));
                       ("output",
                        JStr (if truthy result
                              then stringOr (get result "output") ""
                              else ""));
                       ("error", error)])
      /\ (error = JNull \/ exists text, error = JStr text).
Proof.
  intros toolName result Hmetadata.
  set (error := if truthy result && truthy (get result "error")
                then JStr (toString (get result "error")) else JNull).
  assert (Herror : error = JNull \/ exists text, error = JStr text).
  { unfold error. destruct (truthy result && truthy (get result "error")); eauto. }
  assert (Hpayload :
    observationPayload toolName result
    = JObj [("tool", JStr toolName);
            ("ok", JBool (truthy result
                          && negb match get result "ok" with
                                  | JBool false => true
                                  | _ => false
                                  end));
            ("output",
             JStr (if truthy result then stringOr (get result "output") "" else ""));
            ("error", error)]).
  { unfold observationPayload. fold error.
    rewrite <- andb_assoc, (object_test (get result "metadata")), Hmetadata.
    destruct (truthy result); [|reflexivity].
    now destruct (get result "ok") as [| |[]| | | |]. }
  assert (Hplain : plain (observationPayload toolName result)).
  { rewrite Hpayload. constructor; [reflexivity|].
    repeat (apply Forall_cons; [try constructor|]); [|apply Forall_nil].
    cbn [snd]. destruct Herror as [->|[text ->]]; constructor. }
  exists error. unfold formatToolObservation, reparse. rewrite <- Hpayload.
  split; [reflexivity|]. split; [|exact Herror].
  destruct (plain_serialize _ Hplain) as [t Ht].
  unfold stringify. rewrite Ht. cbn [toString].
  change ("TOOL_RESULT" ++ newline ++ t) with (("TOOL_RESULT" ++ newline) ++ t).
  pose proof Hplain as Hobject. rewrite Hpayload in Hobject, Ht.
  rewrite (extractFirstJsonObject_serialize ("TOOL_RESULT" ++ newline) _ t
             eq_refl Hobject Ht).
  rewrite Hpayload. exact (parse_serialize _ _ Hobject Ht).
Qed.

(** No result at all. *)
Lemma observation_is_always_an_object_witness :
  exists error,
    formatToolObservation "t" JUndefined
    = "TOOL_RESULT" ++ newline
        ++ toString (stringify (JObj [("tool", JStr "t"); ("ok", JBool false);
                                      ("output", JStr ""); ("error", error)]))
    /\ reparse (formatToolObservation "t" JUndefined)
       = Some (JObj [("tool", JStr "t"); ("ok", JBool false); ("output", JStr "");
                     ("error", error)])
    /\ (error = JNull \/ exists text, error = JStr text).
Proof.
  exact (observation_is_always_an_object "t" JUndefined eq_refl).
Defined.

(** A result whose fields have the wrong types. *)
Example observation_of_ill_typed_result :
  reparse (formatToolObservation "t"
             (JObj [("ok", JStr "no"); ("output", JInt 3); ("error", JInt 404);
                    ("metadata", JStr "m")]))
  = Some (JObj [("tool", JStr "t"); ("ok", JBool true); ("output", JStr "");
                ("error", JStr "404")]).
Proof. vm_compute. reflexivity. Qed.

End CodecProperties.

(* ================================================================== *)
(** * Further properties of the history adapter *)
(* ================================================================== *)

Section HistoryProperties.

Import Js HistoryAdapter TranscriptSpec PropertySpec.

Lemma pushLine_pushTurn (messages : list message) (turn : value) :
  pushLine (map transcriptLine messages) turn
  = map transcriptLine (pushTurn (Message User) (Message Assistant) messages turn).
Proof.
  unfold pushLine, pushTurn.
  destruct (negb (isEmpty (extractRequestText turn))); [now rewrite map_app|].
  destruct (negb (isEmpty (extractResponseText turn))); [now rewrite map_app|].
  reflexivity.
Qed.

Lemma fold_pushLine (turns : list value) (messages : list message) :
  fold_left pushLine turns (map transcriptLine messages)
  = map transcriptLine
      (fold_left (pushTurn (Message User) (Message Assistant)) turns messages).
Proof.
  revert messages. induction turns as [|turn turns IH]; intros messages; [reflexivity|].
  cbn [fold_left]. now rewrite pushLine_pushTurn, IH.
Qed.

Lemma join_not_empty (sep x : string) (l : list string) :
  x <> "" -> join sep (x :: l) <> "".
Proof.
  intros Hx. destruct l as [|y l]; [exact Hx|].
  cbn [join]. destruct x; [contradiction | discriminate].
Qed.

(** The transcript is the model messages, line by line.  For every history,
    [toTranscript] is the lines [User: text] and [Assistant: text] of the
    messages [toModelMessages] gives for it, in their order, joined by blank
    lines; so the transcript is empty exactly when there is no message. *)
Theorem toTranscript_of_messages :
  forall (history : value),
    toTranscript history
    = join (newline ++ newline) (map transcriptLine (toModelMessages history))
    /\ (toTranscript history = "" <-> toModelMessages history = []).
Proof.
  intros history.
  assert (Heq : toTranscript history
                = join (newline ++ newline)
                    (map transcriptLine (toModelMessages history))).
  { destruct history as [| | | | |turns|]; try reflexivity.
    destruct turns as [|turn turns]; [reflexivity|].
    unfold toTranscript, toModelMessages.
    now rewrite <- (fold_pushLine (turn :: turns) []). }
  split; [exact Heq|]. rewrite Heq.
  destruct (toModelMessages history) as [|m messages]; [now split|].
  split; [|discriminate]. intros Hempty. exfalso.
  apply (join_not_empty (newline ++ newline) (transcriptLine m)
           (map transcriptLine messages)); [|exact Hempty].
  unfold transcriptLine. destruct (messageRole m); discriminate.
Qed.

Lemma turnMessages_trimmed (turn : value) :
  Forall (fun m => messageText m <> "" /\ trim (messageText m) = messageText m)
         (turnMessages turn).
Proof.
  unfold turnMessages, responseMessages.
  assert (Hresponse :
    Forall (fun m => messageText m <> "" /\ trim (messageText m) = messageText m)
      match get turn "response" with
      | JArr fragments =>
          match trim (join newline (filterNonEmpty (map fragmentText fragments))) with
          | EmptyString => []
          | String c r => [Message Assistant (String c r)]
          end
      | _ => []
      end).
  { destruct (get turn "response") as [| | | | |fragments|]; try constructor.
    destruct (trim (join newline (filterNonEmpty (map fragmentText fragments))))
      as [|c r] eqn:Htext; constructor; [|constructor].
    cbn [messageText]. split; [discriminate|].
    rewrite <- Htext. apply trim_idempotent. }
  destruct (isObjectLike turn); [|constructor].
  destruct (get turn "prompt") as [| | | |prompt| |]; try exact Hresponse.
  destruct (trim prompt) as [|c r] eqn:Htext; [exact Hresponse|].
  constructor; [|constructor]. cbn [messageText]. split; [discriminate|].
  rewrite <- Htext. apply trim_idempotent.
Qed.

(** No empty message reaches the model.  For every history, each message of
    [toModelMessages] has a text that is not empty and has no white space
    around it; and a history that is no array gives no message at all. *)
Theorem toModelMessages_texts_trimmed :
  forall (history : value),
    Forall (fun m => messageText m <> "" /\ trim (messageText m) = messageText m)
           (toModelMessages history)
    /\ (isArray history = false -> toModelMessages history = []).
Proof.
  intros history. split.
  - destruct history as [| | | | |turns|]; try constructor.
    unfold toModelMessages. rewrite fold_pushTurn. cbn [List.app].
    induction turns as [|turn turns IH]; [constructor|].
    cbn [flat_map]. apply Forall_app. split; [apply turnMessages_trimmed | exact IH].
  - destruct history; try reflexivity. discriminate.
Qed.

End HistoryProperties.

(* ================================================================== *)
(** * Further properties of the request handler *)
(* ================================================================== *)

Section FlowProperties.

Import Js Host AgentSettings ActionProtocol HistoryAdapter.
Import ToolRegistry ModelClient AgentModeRunner Trace LoopSpec PropertySpec.

Lemma falsy_command (request : value) :
  truthy (commandOf request) = false ->
  isCompact request = false /\ commandName request = "".
Proof.
  unfold commandOf, commandName, commandOf, isCompact, andValue.
  destruct (truthy request) eqn:Hrequest; [|intros _; split; [reflexivity|]].
  - intros Hcommand.
    destruct (get request "command") as [| | | |c| |]; try (now split).
    destruct c; [now split | discriminate].
  - now destruct request as [| |[]| |[]| |].
Qed.

Lemma compact_command (request : value) :
  isCompact request = true -> commandName request = "compact".
Proof.
  unfold isCompact, commandName, commandOf, andValue.
  destruct (truthy request); [|discriminate]. cbn [andb].
  destruct (get request "command") as [| | | |c| |]; try discriminate.
  intros Hc. apply String.eqb_eq in Hc. now subst.
Qed.

(** A request without a command and without a prompt is answered at once.
    For every runner, request and chat context: when the command of the
    request is missing or falsy and its prompt is missing, no string, or
    blank, [handleRequest] writes [Please enter a prompt or command.] and
    returns [{}]; the model is not called and no tool is run. *)
Theorem empty_request_asks_for_prompt :
  forall (this : runner) (request chatContext : value) (log : list event),
    truthy (commandOf request) = false ->
    extractRequestPrompt request = "" ->
    handleRequest this request chatContext log
    = (Returns emptyObject, (log ++ [Markdown "Please enter a prompt or command."])%list).
Proof.
  intros this request chatContext log Hcommand Hprompt.
  destruct (falsy_command request Hcommand) as [Hcompact Hname].
  unfold commandName, commandOf in Hname. unfold commandOf in Hcommand.
  unfold handleRequest, tryCatch, bind, tryHandleCommandToolRequest.
  rewrite Hcompact, Hname, Hprompt, Hcommand. reflexivity.
Qed.

(** The request [undefined], and a request with a blank prompt. *)
Lemma empty_request_asks_for_prompt_witness :
  run (Scenario.demoRunner []) JUndefined Scenario.emptyContext
  = (Returns emptyObject, [Markdown "Please enter a prompt or command."])
  /\ run (Scenario.demoRunner []) (Scenario.promptRequest "   ") Scenario.emptyContext
     = (Returns emptyObject, [Markdown "Please enter a prompt or command."]).
Proof.
  split.
  - apply (empty_request_asks_for_prompt (Scenario.demoRunner []) JUndefined
             Scenario.emptyContext []); reflexivity.
  - apply (empty_request_asks_for_prompt (Scenario.demoRunner [])
             (Scenario.promptRequest "   ") Scenario.emptyContext []); reflexivity.
Defined.

(** ** The compact flow *)

(** The compact flow.  For every runner and every request whose command is
    exactly [compact], with a chat context whose properties can be read: when
    the transcript of the history is empty, [handleRequest] writes [Nothing
    to compact yet. Start a conversation first.] and returns [{}] without
    calling the model; otherwise, when a model is resolved and replies, it
    sends the model one message only, the compact prompt over the transcript,
    writes the content of the reply when that parses as a final action and
    the reply as it is otherwise (a tool action included: no tool is run),
    and returns [{}]. *)
Theorem compact_flow :
  forall (this : runner) (request chatContext : value) (log : list event),
    isCompact request = true ->
    readable chatContext = true ->
    (toTranscript (get chatContext "history") = "" ->
     handleRequest this request chatContext log
     = (Returns emptyObject,
        (log ++ [Markdown "Nothing to compact yet. Start a conversation first."])%list))
    /\ (forall (model : value) (text : string),
          toTranscript (get chatContext "history") <> "" ->
          resolveModelOf (modelClient this) log (andValue request (get request "model"))
          = Returns model ->
          sendRequest (modelClient this)
            (log ++ [Progress ("Using model: " ++ describeModel model)])%list
            [Message User (buildCompactPrompt (runnerProfile this)
                             (toTranscript (get chatContext "history")))]
            model
          = Returns text ->
          handleRequest this request chatContext log
          = (Returns emptyObject,
             (log ++ [Progress ("Using model: " ++ describeModel model);
                      ModelRequest
                        [Message User (buildCompactPrompt (runnerProfile this)
                                         (toTranscript (get chatContext "history")))]
                        (Returns (trim text));
                      Markdown match parseAgentAction (trim text) with
                               | Some (Final content) => content
                               | _ => trim text
                               end])%list)).
Proof.
  intros this request chatContext log Hcompact _. split.
  - intros Hempty. unfold handleRequest, tryCatch, handleCompact.
    rewrite Hcompact, Hempty. reflexivity.
  - intros model text Htranscript Hmodel Hreply.
    unfold handleRequest, tryCatch, handleCompact. rewrite Hcompact.
    destruct (toTranscript (get chatContext "history")) as [|c transcript] eqn:Heq;
      [contradiction|].
    cbn [isEmpty]. unfold bind, resolveModel, complete, progress, markdown, emit, ret.
    rewrite Hmodel, Hreply.
    destruct (parseAgentAction (trim text)) as [[tool input|content]|];
      rewrite <- ?List.app_assoc; reflexivity.
Qed.

(** Compacting an empty history, and a history of one turn with a model that
    answers with a tool action. *)
Lemma compact_flow_witness :
  run (Scenario.demoRunner []) (JObj [("command", JStr "compact")]) Scenario.emptyContext
  = (Returns emptyObject,
     [Markdown "Nothing to compact yet. Start a conversation first."])
  /\ run (Scenario.demoRunner [Scenario.readCall]) (JObj [("command", JStr "compact")])
       (JObj [("history", JArr [JObj [("prompt", JStr "hi")]])])
     = (Returns emptyObject,
        [Progress "Using model: gpt";
         ModelRequest [Message User ("COMPACT " ++ "User: hi")] (Returns Scenario.readCall);
         Markdown Scenario.readCall]).
Proof.
  split.
  - destruct (compact_flow (Scenario.demoRunner []) (JObj [("command", JStr "compact")])
                Scenario.emptyContext [] eq_refl eq_refl) as [Hempty _].
    apply Hempty. reflexivity.
  - destruct (compact_flow (Scenario.demoRunner [Scenario.readCall])
                (JObj [("command", JStr "compact")])
                (JObj [("history", JArr [JObj [("prompt", JStr "hi")]])]) []
                eq_refl eq_refl) as [_ Hreply].
    apply (Hreply (JObj [("name", JStr "gpt")]) Scenario.readCall);
      [discriminate | reflexivity | reflexivity].
Defined.

(** ** The commands that run a tool *)

Lemma command_not_compact (request : value) (commandTool : commandTool) :
  findCommand (commandName request) COMMAND_TOOL_MAP = Some commandTool ->
  isCompact request = false.
Proof.
  intros Hfound. destruct (isCompact request) eqn:Hcompact; [|reflexivity].
  rewrite (compact_command request Hcompact) in Hfound. discriminate.
Qed.

(** The commands of the table run their tool without the model.  For every
    runner and every request whose command, trimmed and in lower case, is a
    key of [COMMAND_TOOL_MAP]: when the entry requires a prompt and the
    prompt of the request is blank, [handleRequest] writes the usage line of
    the command and returns [{}], and no tool is run; otherwise, with a chat
    context whose properties can be read, it announces the tool, runs it once
    through the registry on the input the entry builds from the prompt,
    writes the direct response for the result and returns [{}].  In neither
    case is the model called. *)
Theorem command_runs_its_tool :
  forall (this : runner) (request chatContext : value) (log : list event)
         (commandTool : commandTool),
    findCommand (commandName request) COMMAND_TOOL_MAP = Some commandTool ->
    (requiresPrompt commandTool = true -> extractRequestPrompt request = "" ->
     handleRequest this request chatContext log
     = (Returns emptyObject,
        (log ++ [Markdown ("Usage: /" ++ commandName request ++ " <query>")])%list))
    /\ (requiresPrompt commandTool = false \/ extractRequestPrompt request <> "" ->
        readable chatContext = true ->
        exists result,
          execute (toolRegistry this)
            (log ++ [Progress ("Running tool: " ++ commandToolName commandTool)])%list
            (commandToolName commandTool)
            (buildInput commandTool (extractRequestPrompt request))
            (Context request (get chatContext "history") None)
          = Returns result
          /\ handleRequest this request chatContext log
             = (Returns emptyObject,
                (log ++ [Progress ("Running tool: " ++ commandToolName commandTool);
                         ToolCall (commandToolName commandTool)
                           (buildInput commandTool (extractRequestPrompt request))
                           (Returns result);
                         Markdown (formatDirectToolResponse
                                     (commandToolName commandTool) result)])%list)).
Proof.
  intros this request chatContext log commandTool Hfound.
  pose proof (command_not_compact request commandTool Hfound) as Hcompact.
  unfold commandName, commandOf in *.
  split.
  - intros Hrequires Hprompt.
    unfold handleRequest, tryCatch, bind, tryHandleCommandToolRequest, lookupCommand.
    rewrite Hcompact, Hfound, Hrequires, Hprompt. reflexivity.
  - intros Hruns _.
    destruct (execute_returns (toolRegistry this)
                (log ++ [Progress ("Running tool: " ++ commandToolName commandTool)])%list
                (commandToolName commandTool)
                (buildInput commandTool (extractRequestPrompt request))
                (Context request (get chatContext "history") None)) as [result Hresult].
    exists result. split; [exact Hresult|].
    unfold handleRequest, tryCatch, bind, tryHandleCommandToolRequest, lookupCommand.
    rewrite Hcompact, Hfound.
    assert (Hgo : requiresPrompt commandTool && isEmpty (extractRequestPrompt request)
                  = false).
    { destruct Hruns as [->|Hprompt]; [reflexivity|].
      destruct (extractRequestPrompt request); [contradiction | apply andb_false_r]. }
    rewrite Hgo. unfold callTool, progress, markdown, emit, ret, bind. cbv beta.
    rewrite Hresult, <- ?List.app_assoc. reflexivity.
Qed.

(** [/Search] without a prompt, and [/hello] without a prompt. *)
Lemma command_runs_its_tool_witness :
  run (Scenario.demoRunner []) (JObj [("command", JStr " Search ")]) Scenario.emptyContext
  = (Returns emptyObject, [Markdown "Usage: /search <query>"])
  /\ run (Scenario.demoRunner []) (JObj [("command", JStr "hello")]) Scenario.emptyContext
     = (Returns emptyObject,
        [Progress "Running tool: hello_world";
         ToolCall "hello_world" (JObj [])
           (Returns (JObj [("ok", JBool true); ("output", JStr "fine")]));
         Markdown "fine"]).
Proof.
  split.
  - destruct (command_runs_its_tool (Scenario.demoRunner [])
                (JObj [("command", JStr " Search ")]) Scenario.emptyContext []
                (CommandTool "search_text" true queryInput) eq_refl) as [Husage _].
    apply Husage; reflexivity.
  - destruct (command_runs_its_tool (Scenario.demoRunner [])
                (JObj [("command", JStr "hello")]) Scenario.emptyContext []
                (CommandTool "hello_world" false messageInput) eq_refl) as [_ Hruns].
    destruct (Hruns (or_introl eq_refl) eq_refl) as (result & Hresult & Hrun).
    injection Hresult as <-. exact Hrun.
Defined.

(** A command that names a member the table inherits.  For every runner and
    every request whose command, trimmed and in lower case, is [constructor]
    or [__proto__]: the lookup in [COMMAND_TOOL_MAP] finds the inherited
    member, so [handleRequest] announces the tool [undefined], fails on the
    call of its [buildInput], and returns the failure [{errorDetails:
    {message}}] with the message also written as a warning; no tool is run
    and the model is not called. *)
Theorem inherited_command_fails :
  forall (this : runner) (request chatContext : value) (log : list event),
    commandName request = "constructor" \/ commandName request = "__proto__" ->
    exists message,
      handleRequest this request chatContext log
      = (Returns (errorDetails ("Agent execution failed: " ++ message)),
         (log ++ [Progress "Running tool: undefined";
                  Warning ("Agent execution failed: " ++ message)])%list).
Proof.
  intros this request chatContext log Hname.
  exists "commandTool.buildInput is not a function".
  assert (Hcompact : isCompact request = false).
  { destruct (isCompact request) eqn:Hcompact; [|reflexivity].
    rewrite (compact_command request Hcompact) in Hname.
    destruct Hname; discriminate. }
  unfold commandName, commandOf in Hname.
  unfold handleRequest, tryCatch, bind, tryHandleCommandToolRequest.
  rewrite Hcompact.
  destruct Hname as [-> | ->]; cbn; rewrite <- List.app_assoc; reflexivity.
Qed.

(** The command [Constructor]. *)
Lemma inherited_command_fails_witness :
  exists message,
    run (Scenario.demoRunner []) (JObj [("command", JStr "Constructor")])
      Scenario.emptyContext
    = (Returns (errorDetails ("Agent execution failed: " ++ message)),
       [Progress "Running tool: undefined";
        Warning ("Agent execution failed: " ++ message)]).
Proof.
  apply (inherited_command_fails (Scenario.demoRunner [])
           (JObj [("command", JStr "Constructor")]) Scenario.emptyContext []).
  left. reflexivity.
Defined.

(** ** Passes of the loop *)

Ltac pass_effects :=
  unfold warning, markdown, progress, emit, ret, callTool;
  cbn -[blockedObservation formatToolObservation toolSignature execute trim get
        parseAgentAction looksLikeSearchCapabilityRefusal String.append
        nonJsonWarning refusalWarning refusalGuidance invalidFormatMessage];
  rewrite <- ?List.app_assoc; cbn [List.app].

(** A pass whose tool action is not blocked, with what the registry gives. *)
Lemma iteration_runs_tool (this : runner) (request chatContext selectedModel : value)
  (st : loopState) (log : list event) (text tool : string) (input result : value) :
  sendRequest (modelClient this) log (modelMessages st) selectedModel = Returns text ->
  parseAgentAction (trim text) = Some (Tool tool input) ->
  toolSignature tool input <> previousToolSignature st \/ repeatedToolCallCount st <= 1 ->
  execute (toolRegistry this)
    (log ++ [ModelRequest (modelMessages st) (Returns (trim text));
             Progress ("Running tool: " ++ tool)])%list
    tool input (Context request (get chatContext "history") None)
  = Returns result ->
  exists st',
    iteration this request chatContext selectedModel st log
    = (Returns (Continue st'),
       (log ++ [ModelRequest (modelMessages st) (Returns (trim text));
                Progress ("Running tool: " ++ tool);
                ToolCall tool input (Returns result)])%list)
    /\ modelMessages st'
       = (modelMessages st
            ++ [Message Assistant (trim text);
                Message User (formatToolObservation tool result)])%list.
Proof.
  intros Hsend Hparse Hfree Hresult.
  unfold iteration, bind, complete. rewrite Hsend, Hparse.
  cbn [previousToolSignature setParseFailureCount pushMessage
       repeatedToolCallCount setRepeatedToolCallCount setPreviousToolSignature].
  destruct (String.eqb_spec (toolSignature tool input) (previousToolSignature st))
    as [Hsig|Hsig];
    cbn [previousToolSignature setParseFailureCount pushMessage
         repeatedToolCallCount setRepeatedToolCallCount setPreviousToolSignature].
  - destruct (Nat.ltb_spec 2 (repeatedToolCallCount st + 1)) as [Hrep|Hrep];
      [destruct Hfree; [contradiction | lia]|].
    eexists. pass_effects. rewrite Hresult. rewrite <- ?List.app_assoc. cbn [List.app].
    split; [reflexivity|].
    cbn -[formatToolObservation toolSignature]. now rewrite <- List.app_assoc.
  - eexists. pass_effects. rewrite Hresult. rewrite <- ?List.app_assoc. cbn [List.app].
    split; [reflexivity|].
    cbn -[formatToolObservation toolSignature]. now rewrite <- List.app_assoc.
Qed.

(** A failing tool does not end the loop.  In a pass of the loop where the
    reply of the model parses as a tool action that the repeat guard lets
    through, with a chat context whose properties can be read: whatever
    becomes of the tool, the pass announces it, calls the registry once, adds
    to the transcript the reply and the observation of the result, and
    continues with the next pass.  When no tool of that name is registered,
    the observation is that of the failure naming the tools that are; when
    the tool throws, it is that of the failure with the message of the
    exception.  No exception of a tool reaches the handler of the request. *)
Theorem tool_failure_continues_the_loop :
  forall (this : runner) (request chatContext selectedModel : value)
         (st : loopState) (log : list event) (text tool : string) (input : value),
    sendRequest (modelClient this) log (modelMessages st) selectedModel = Returns text ->
    parseAgentAction (trim text) = Some (Tool tool input) ->
    toolSignature tool input <> previousToolSignature st
    \/ repeatedToolCallCount st <= 1 ->
    readable chatContext = true ->
    exists st' result,
      iteration this request chatContext selectedModel st log
      = (Returns (Continue st'),
         (log ++ [ModelRequest (modelMessages st) (Returns (trim text));
                  Progress ("Running tool: " ++ tool);
                  ToolCall tool input (Returns result)])%list)
      /\ modelMessages st'
         = (modelMessages st
              ++ [Message Assistant (trim text);
                  Message User (formatToolObservation tool result)])%list
      /\ (mapGet tool (tools (toolRegistry this)) = None ->
          result = failure (JStr (unknownToolMessage (toolRegistry this) tool)))
      /\ (forall (registered : ToolRegistry.tool) (e : thrown),
            mapGet tool (tools (toolRegistry this)) = Some registered ->
            toolExecute registered
              (log ++ [ModelRequest (modelMessages st) (Returns (trim text));
                       Progress ("Running tool: " ++ tool)])%list
              (orValue input emptyObject)
              (Context request (get chatContext "history")
                 (Some (settingsOf (toolRegistry this))))
            = Throws e ->
            result = failure (errorMessage e)).
Proof.
  intros this request chatContext selectedModel st log text tool input
         Hsend Hparse Hfree _.
  destruct (execute_returns (toolRegistry this)
              (log ++ [ModelRequest (modelMessages st) (Returns (trim text));
                       Progress ("Running tool: " ++ tool)])%list
              tool input (Context request (get chatContext "history") None))
    as [result Hresult].
  destruct (iteration_runs_tool this request chatContext selectedModel st log text tool
              input result Hsend Hparse Hfree Hresult) as (st' & Hpass & Hmessages).
  exists st', result. split; [exact Hpass|]. split; [exact Hmessages|].
  unfold execute in Hresult. cbn [ctxRequest ctxHistory] in Hresult. split.
  - intros Hnone. rewrite Hnone in Hresult. now injection Hresult as <-.
  - intros registered e Hsome Hthrows. rewrite Hsome, Hthrows in Hresult.
    now injection Hresult as <-.
Qed.

(** A first call of [write_file], whose tool throws, and of a tool that is
    not registered. *)
Lemma tool_failure_continues_the_loop_witness :
  (exists st',
     iteration (Scenario.demoRunner [q "{'type':'tool','tool':'write_file'}"])
       (Scenario.promptRequest "p") Scenario.emptyContext JNull
       (LoopState [] "" 0 0 0) []
     = (Returns (Continue st'),
        [ModelRequest [] (Returns (q "{'type':'tool','tool':'write_file'}"));
         Progress "Running tool: write_file";
         ToolCall "write_file" (JObj [])
           (Returns (failure (JStr "disk full")))]))
  /\ (exists st',
        iteration (Scenario.demoRunner [q "{'type':'tool','tool':'nope'}"])
          (Scenario.promptRequest "p") Scenario.emptyContext JNull
          (LoopState [] "" 0 0 0) []
        = (Returns (Continue st'),
           [ModelRequest [] (Returns (q "{'type':'tool','tool':'nope'}"));
            Progress "Running tool: nope";
            ToolCall "nope" (JObj [])
              (Returns (failure (JStr (unknownToolMessage Scenario.demoRegistry "nope"))))])).
Proof.
  split.
  - destruct (tool_failure_continues_the_loop
                (Scenario.demoRunner [q "{'type':'tool','tool':'write_file'}"])
                (Scenario.promptRequest "p") Scenario.emptyContext JNull
                (LoopState [] "" 0 0 0) []
                (q "{'type':'tool','tool':'write_file'}") "write_file" (JObj [])
                eq_refl eq_refl (or_intror (Nat.le_0_l 1)) eq_refl)
      as (st' & result & Hpass & _ & _ & Hthrows).
    exists st'. rewrite Hpass.
    now rewrite (Hthrows (Scenario.failingTool "write_file")
                   (ErrorObject "Error" "disk full") eq_refl eq_refl).
  - destruct (tool_failure_continues_the_loop
                (Scenario.demoRunner [q "{'type':'tool','tool':'nope'}"])
                (Scenario.promptRequest "p") Scenario.emptyContext JNull
                (LoopState [] "" 0 0 0) []
                (q "{'type':'tool','tool':'nope'}") "nope" (JObj [])
                eq_refl eq_refl (or_intror (Nat.le_0_l 1)) eq_refl)
      as (st' & result & Hpass & _ & Hmissing & _).
    exists st'. rewrite Hpass. now rewrite (Hmissing eq_refl).
Defined.

(** ** The transcript *)

Lemma stepped_exchange (st st' : loopState) (ev : list event) (raw : string) :
  stepped st ev (Returns raw) (Returns (Continue st')) ->
  exists reaction,
    modelMessages st' = (modelMessages st ++ exchange (raw, reaction))%list.
Proof.
  inversion 1; subst; eexists; unfold exchange; cbn [fst snd]; eassumption.
Qed.

Lemma stepped_returns (st st' : loopState) (ev : list event) (reply : outcome string) :
  stepped st ev reply (Returns (Continue st')) -> exists raw, reply = Returns raw.
Proof. inversion 1; subst; eauto. Qed.

(** The transcript only grows, by one exchange per pass.  For every runner
    and request: a pass of the loop that continues leaves the messages it
    found as they are and adds two, the reply of the model (as it was
    recorded for the request of this pass) as an assistant message and then
    one user message; so when the loop runs out after [n] passes, the
    messages are those it started with followed by [n] such exchanges. *)
Theorem transcript_grows_by_exchanges :
  forall (this : runner) (request chatContext selectedModel : value),
    (forall (st st' : loopState) (log log' : list event),
       iteration this request chatContext selectedModel st log
       = (Returns (Continue st'), log') ->
       exists raw reaction ev,
         log' = (log ++ ModelRequest (modelMessages st) (Returns raw) :: ev)%list
         /\ modelMessages st'
            = (modelMessages st ++ [Message Assistant raw; Message User reaction])%list)
    /\ (forall (n : nat) (st st' : loopState) (log log' : list event),
          iterations this request chatContext selectedModel n st log
          = (Returns (inl st'), log') ->
          exists exchanges,
            List.length exchanges = n
            /\ modelMessages st'
               = (modelMessages st ++ flat_map exchange exchanges)%list).
Proof.
  intros this request chatContext selectedModel.
  assert (Hpass : forall st st' log log',
    iteration this request chatContext selectedModel st log
    = (Returns (Continue st'), log') ->
    exists raw reaction ev,
      log' = (log ++ ModelRequest (modelMessages st) (Returns raw) :: ev)%list
      /\ modelMessages st'
         = (modelMessages st ++ [Message Assistant raw; Message User reaction])%list).
  { intros st st' log log' Heq.
    destruct (iteration_stepped this request chatContext selectedModel st log)
      as (reply & ev & o & Hrun & _ & Hstep).
    rewrite Heq in Hrun. injection Hrun as <- ->.
    destruct (stepped_returns _ _ _ _ Hstep) as [raw ->].
    destruct (stepped_exchange _ _ _ _ Hstep) as [reaction Hmessages].
    now exists raw, reaction, ev. }
  split; [exact Hpass|].
  induction n as [|n IH]; intros st st' log log' Heq.
  - injection Heq as <- <-. exists []. split; [reflexivity|].
    cbn. now rewrite List.app_nil_r.
  - cbn [iterations] in Heq. unfold bind in Heq.
    destruct (iteration this request chatContext selectedModel st log)
      as [[[st1|result]|e] log1] eqn:Hfirst; try discriminate.
    destruct (Hpass _ _ _ _ Hfirst) as (raw & reaction & ev & _ & Hmessages).
    destruct (IH _ _ _ _ Heq) as (exchanges & Hlength & Hrest).
    exists ((raw, reaction) :: exchanges). split; [cbn; lia|].
    rewrite Hrest, Hmessages. cbn [flat_map exchange fst snd].
    now rewrite <- List.app_assoc.
Qed.

(** ** The budget *)

Lemma toolCalls_app (a b : list event) :
  toolCalls (a ++ b) = toolCalls a + toolCalls b.
Proof. unfold toolCalls. now rewrite filter_app, List.length_app. Qed.

Lemma stepped_toolCalls st ev reply o : stepped st ev reply o -> toolCalls ev <= 1.
Proof. destruct 1; cbn; lia. Qed.

Lemma iterations_exhausted (this : runner) (request chatContext selectedModel : value)
  (n : nat) :
  forall (st st' : loopState) (log log' : list event),
    iterations this request chatContext selectedModel n st log
    = (Returns (inl st'), log') ->
    exists ev, log' = (log ++ ev)%list /\ modelCalls ev = n /\ toolCalls ev <= n.
Proof.
  induction n as [|n IH]; intros st st' log log' Heq.
  - injection Heq as <- <-. exists []. now rewrite List.app_nil_r.
  - cbn [iterations] in Heq. unfold bind in Heq.
    destruct (iteration_stepped this request chatContext selectedModel st log)
      as (reply & ev & o & Hrun & _ & Hstep).
    rewrite Hrun in Heq.
    destruct o as [[st1|result]|e]; try discriminate.
    destruct (IH _ _ _ _ Heq) as (rest & -> & Hcalls & Htools).
    exists (ModelRequest (modelMessages st) reply :: ev ++ rest)%list.
    split; [now rewrite <- List.app_assoc|].
    change (ModelRequest (modelMessages st) reply :: ev ++ rest)%list
      with ([ModelRequest (modelMessages st) reply] ++ ev ++ rest)%list.
    rewrite !modelCalls_app, !toolCalls_app, (stepped_modelCalls _ _ _ _ Hstep).
    pose proof (stepped_toolCalls _ _ _ _ Hstep).
    split; [cbn; lia|]. change (toolCalls [ModelRequest (modelMessages st) reply]) with 0.
    lia.
Qed.

(** The budget is used exactly, then one forced completion follows.  For
    every runner and request: when the loop over [n] passes runs out, the
    model was called exactly [n] times in it and the registry at most [n]
    times; the forced completion then warns that the limit is reached, sends
    the messages of the loop followed by the instruction to conclude, and,
    when the model replies, writes the content of the reply if it parses as
    a final action and the reply as it is otherwise (a tool action is not
    run), and returns [{}]. *)
Theorem budget_exhausted_forces_one_completion :
  forall (this : runner) (request chatContext selectedModel : value) (n : nat)
         (st st' : loopState) (log log' : list event),
    iterations this request chatContext selectedModel n st log
    = (Returns (inl st'), log') ->
    (exists ev, log' = (log ++ ev)%list /\ modelCalls ev = n /\ toolCalls ev <= n)
    /\ forall (text : string),
         sendRequest (modelClient this) (log' ++ [Warning (limitWarning this)])%list
           (modelMessages st' ++ [Message User budgetMessage])%list selectedModel
         = Returns text ->
         finalAttempt this selectedModel st' log'
         = (Returns emptyObject,
            (log' ++ [Warning (limitWarning this);
                      ModelRequest (modelMessages st' ++ [Message User budgetMessage])%list
                        (Returns (trim text));
                      Markdown match parseAgentAction (trim text) with
                               | Some (Final content) => content
                               | _ => trim text
                               end])%list).
Proof.
  intros this request chatContext selectedModel n st st' log log' Heq.
  split; [exact (iterations_exhausted _ _ _ _ _ _ _ _ _ Heq)|].
  intros text Hreply.
  unfold finalAttempt, bind, warning, markdown, emit, complete, ret.
  cbn [modelMessages pushMessage]. fold (limitWarning this). rewrite Hreply.
  destruct (parseAgentAction (trim text)) as [[tool input|content]|];
    rewrite <- ?List.app_assoc; reflexivity.
Qed.

(** A budget of two passes spent on two different tool calls, and a third
    tool call as the forced reply. *)
Lemma budget_exhausted_forces_one_completion_witness :
  exists st' log',
    iterations (Scenario.demoRunner [Scenario.callAB; Scenario.callBA; Scenario.readCall])
      (Scenario.promptRequest "p") Scenario.emptyContext JNull 2
      (LoopState [] "" 0 0 0) []
    = (Returns (inl st'), log')
    /\ modelCalls log' = 2
    /\ lastEvent
         (snd (finalAttempt
                 (Scenario.demoRunner [Scenario.callAB; Scenario.callBA; Scenario.readCall])
                 JNull st' log'))
       = Some (Markdown Scenario.readCall).
Proof.
  eexists _, _. split; [vm_compute; reflexivity|].
  match goal with
  | |- modelCalls ?l = _ /\ lastEvent (snd (finalAttempt ?r ?m ?s ?l)) = _ =>
      destruct (budget_exhausted_forces_one_completion r (Scenario.promptRequest "p")
                  Scenario.emptyContext m 2 (LoopState [] "" 0 0 0) s [] l)
        as [_ Hforced]; [vm_compute; reflexivity|];
      split; [reflexivity|];
      rewrite (Hforced Scenario.readCall); [reflexivity | vm_compute; reflexivity]
  end.
Defined.

End FlowProperties.

(* ================================================================== *)
(** * Further properties of the tool registry *)
(* ================================================================== *)

Section RegistryProperties.

Import Js Host AgentSettings ActionProtocol ToolRegistry PropertySpec.

(** The settings decide which tools exist.  For factories that name their
    tools as the sources do and for every settings object, the registry holds
    after [updateSettings], in this order: [list_files], [read_file],
    [search_text], [web_search], [hello_world]; then [write_file] and
    [edit_file] when [enableFileEditTools] is set; then [run_command] when
    [enableCommandTool] is set; [getToolDefinitions] lists them in the same
    order.  A tool that is switched off does not exist for [execute]: the
    call returns the failure for an unknown tool and runs nothing. *)
Theorem updateSettings_registers_enabled_tools :
  forall (f : factories) (s : settings),
    namedAsInSources f ->
    getToolNames (updateSettings f s)
    = (["list_files"; "read_file"; "search_text"; "web_search"; "hello_world"]
         ++ (if enableFileEditTools s then ["write_file"; "edit_file"] else [])
         ++ (if enableCommandTool s then ["run_command"] else []))%list
    /\ map defName (getToolDefinitions (updateSettings f s))
       = getToolNames (updateSettings f s)
    /\ (forall log toolName input context,
          enableFileEditTools s = false ->
          toolName = "write_file" \/ toolName = "edit_file" ->
          execute (updateSettings f s) log toolName input context
          = Returns (failure (JStr (unknownToolMessage (updateSettings f s) toolName))))
    /\ (forall log input context,
          enableCommandTool s = false ->
          execute (updateSettings f s) log "run_command" input context
          = Returns (failure (JStr (unknownToolMessage (updateSettings f s) "run_command")))).
Proof.
  intros f s Hnames.
  destruct (Hnames s) as (Hlist & Hread & Hsearch & Hweb & Hhello & Hwrite & Hedit & Hrun).
  assert (Hregistered :
    getToolNames (updateSettings f s)
    = (["list_files"; "read_file"; "search_text"; "web_search"; "hello_world"]
         ++ (if enableFileEditTools s then ["write_file"; "edit_file"] else [])
         ++ (if enableCommandTool s then ["run_command"] else []))%list).
  { unfold getToolNames, updateSettings, register.
    rewrite Hlist, Hread, Hsearch, Hweb, Hhello, Hwrite, Hedit, Hrun.
    destruct (enableFileEditTools s), (enableCommandTool s); reflexivity. }
  assert (Hdefinitions :
    map defName (getToolDefinitions (updateSettings f s))
    = getToolNames (updateSettings f s)).
  { rewrite Hregistered.
    unfold getToolDefinitions, updateSettings, register.
    rewrite Hlist, Hread, Hsearch, Hweb, Hhello, Hwrite, Hedit, Hrun.
    destruct (enableFileEditTools s), (enableCommandTool s); cbn;
      now rewrite ?Hlist, ?Hread, ?Hsearch, ?Hweb, ?Hhello, ?Hwrite, ?Hedit, ?Hrun. }
  split; [exact Hregistered|]. split; [exact Hdefinitions|]. split.
  - intros log toolName input context Hoff Hname.
    unfold execute. rewrite mapGet_absent; [reflexivity|].
    change (map fst (tools (updateSettings f s))) with (getToolNames (updateSettings f s)).
    rewrite Hregistered, Hoff.
    destruct (enableCommandTool s); destruct Hname as [-> | ->]; cbn;
      intuition discriminate.
  - intros log input context Hoff.
    unfold execute. rewrite mapGet_absent; [reflexivity|].
    change (map fst (tools (updateSettings f s))) with (getToolNames (updateSettings f s)).
    rewrite Hregistered, Hoff.
    destruct (enableFileEditTools s); cbn; intuition discriminate.
Qed.

(** Settings that switch the editing tools and the command tool off. *)
Lemma updateSettings_registers_enabled_tools_witness :
  getToolNames (updateSettings Scenario.demoFactories (Settings 4 false false))
  = ["list_files"; "read_file"; "search_text"; "web_search"; "hello_world"]
  /\ execute (updateSettings Scenario.demoFactories (Settings 4 false false)) []
       "run_command" (JObj []) (Context JNull JNull None)
     = Returns (failure (JStr (q "Unknown tool 'run_command'. Available: list_files, read_file, search_text, web_search, hello_world"))).
Proof.
  destruct (updateSettings_registers_enabled_tools Scenario.demoFactories
              (Settings 4 false false)) as (Hnames & _ & _ & Hcommand).
  - intros s. repeat split.
  - split; [exact Hnames|].
    exact (Hcommand [] (JObj []) (Context JNull JNull None) eq_refl).
Defined.

End RegistryProperties.

(* ================================================================== *)
(** * Properties of the loaded settings *)
(* ================================================================== *)

Section SettingsProperties.

Import Js Host ActionProtocol AgentModeRunner Trace LoopSpec.

Local Open Scope Z_scope.

Lemma clampInteger_bounds (Number : value -> option number) (value : value)
  (min max fallback : Z) :
  min <= max -> min <= fallback <= max ->
  min <= SettingsLoader.clampInteger Number value min max fallback <= max.
Proof.
  intros Hrange Hfallback. unfold SettingsLoader.clampInteger.
  destruct (Number value) as [numeric|]; lia.
Qed.

(** [clampInteger] keeps a setting inside its range.  For every value and
    every range with [min <= max], whatever [Number] makes of the value: when
    that is not a finite number the result is the fallback; otherwise the
    result is an integer between [min] and [max], namely the integer part of
    the number when that lies in the range, [min] when it lies below and
    [max] when it lies above. *)
Theorem clampInteger_in_range :
  forall (Number : value -> option number) (value : value) (min max fallback : Z),
    min <= max ->
    (Number value = None ->
     SettingsLoader.clampInteger Number value min max fallback = fallback)
    /\ (forall numeric, Number value = Some numeric ->
          min <= SettingsLoader.clampInteger Number value min max fallback <= max
          /\ (min <= SettingsLoader.trunc numeric <= max ->
              SettingsLoader.clampInteger Number value min max fallback
              = SettingsLoader.trunc numeric)
          /\ (SettingsLoader.trunc numeric < min ->
              SettingsLoader.clampInteger Number value min max fallback = min)
          /\ (max < SettingsLoader.trunc numeric ->
              SettingsLoader.clampInteger Number value min max fallback = max)).
Proof.
  intros Number value min max fallback Hrange.
  unfold SettingsLoader.clampInteger. split.
  - now intros ->.
  - intros numeric ->. cbv zeta. repeat split; lia.
Qed.

(** The number 7.9 of iterations, between 1 and 20, for a conversion that
    reads numbers as they are. *)
Lemma clampInteger_in_range_witness :
  SettingsLoader.clampInteger (fun v => match v with JNum n => Some n | _ => None end)
    (JNum (Num 79 (-1))) 1 20 6 = 7
  /\ SettingsLoader.clampInteger (fun v => match v with JNum n => Some n | _ => None end)
       (JStr "many") 1 20 6 = 6.
Proof.
  destruct (clampInteger_in_range
              (fun v => match v with JNum n => Some n | _ => None end)
              (JNum (Num 79 (-1))) 1 20 6) as [_ Hfinite]; [lia|].
  destruct (clampInteger_in_range
              (fun v => match v with JNum n => Some n | _ => None end)
              (JStr "many") 1 20 6) as [Hfallback _]; [lia|].
  split.
  - destruct (Hfinite (Num 79 (-1)) eq_refl) as (_ & Hinside & _).
    rewrite Hinside; [reflexivity | vm_compute; split; discriminate].
  - apply Hfallback. reflexivity.
Defined.

Lemma normalized_entries (entries : list value) :
  Forall (fun c : string => c <> "" /\ trim c = c)
    (filterNonEmpty (map (fun entry => trim (toString (orValue entry (JStr "")))) entries)).
Proof.
  induction entries as [|entry entries IH]; [constructor|].
  unfold filterNonEmpty in *. cbn [map filter].
  destruct (trim (toString (orValue entry (JStr "")))) as [|c r] eqn:Htext;
    cbn [isEmpty negb]; [exact IH|].
  constructor; [|exact IH]. split; [discriminate|].
  rewrite <- Htext. apply trim_idempotent.
Qed.


Lemma default_commands_trimmed :
  Forall (fun c : string => c <> "" /\ trim c = c)
    (SettingsLoader.allowedCommands SettingsLoader.DEFAULT_SETTINGS).
Proof. repeat constructor; discriminate. Qed.

(** The loaded settings are validated.  Whatever the workspace configuration
    holds, and whatever [Number] makes of its values, [loadAgentSettings]
    returns settings with [maxIterations] between 1 and 20, [maxReadLines]
    between 20 and 2000, [maxListDepth] between 1 and 8, [maxSearchResults]
    between 5 and 300, [maxWriteChars] between 1000 and 2000000,
    [commandTimeoutMs] between 1000 and 900000, a list of allowed commands
    that is not empty and whose entries are not empty and have no white
    space around them, and a model family without white space around it. *)
Theorem loadAgentSettings_validated :
  forall (Number : value -> option number) (config : string -> value),
    1 <= SettingsLoader.maxIterations (SettingsLoader.loadAgentSettings Number config) <= 20
    /\ 20 <= SettingsLoader.maxReadLines (SettingsLoader.loadAgentSettings Number config)
       <= 2000
    /\ 1 <= SettingsLoader.maxListDepth (SettingsLoader.loadAgentSettings Number config) <= 8
    /\ 5 <= SettingsLoader.maxSearchResults (SettingsLoader.loadAgentSettings Number config)
       <= 300
    /\ 1000 <= SettingsLoader.maxWriteChars (SettingsLoader.loadAgentSettings Number config)
       <= 2000000
    /\ 1000 <= SettingsLoader.commandTimeoutMs (SettingsLoader.loadAgentSettings Number config)
       <= 900000
    /\ SettingsLoader.allowedCommands (SettingsLoader.loadAgentSettings Number config) <> []
    /\ Forall (fun c : string => c <> "" /\ trim c = c)
         (SettingsLoader.allowedCommands (SettingsLoader.loadAgentSettings Number config))
    /\ trim (SettingsLoader.modelFamily (SettingsLoader.loadAgentSettings Number config))
       = SettingsLoader.modelFamily (SettingsLoader.loadAgentSettings Number config).
Proof.
  intros Number config. cbn [SettingsLoader.loadAgentSettings
    SettingsLoader.maxIterations SettingsLoader.maxReadLines SettingsLoader.maxListDepth
    SettingsLoader.maxSearchResults SettingsLoader.maxWriteChars
    SettingsLoader.commandTimeoutMs SettingsLoader.allowedCommands SettingsLoader.modelFamily].
  repeat (split; [apply clampInteger_bounds; cbn; lia|]).
  split; [|split; [|apply trim_idempotent]].
  - unfold SettingsLoader.normalizeStringArray.
    destruct (config "allowedCommands") as [| | | | |entries|]; try discriminate.
    destruct (filterNonEmpty _); discriminate.
  - unfold SettingsLoader.normalizeStringArray.
    destruct (config "allowedCommands") as [| | | | |entries|];
      try apply default_commands_trimmed.
    pose proof (normalized_entries entries) as Hentries.
    destruct (filterNonEmpty _); [apply default_commands_trimmed | exact Hentries].
Qed.

(** With loaded settings a request costs at most 21 calls of the model.  For
    every workspace configuration and every runner whose settings are the
    loaded ones, as when the extension is activated or the configuration
    changes: whatever the request, the model and the tools do, [handleRequest]
    calls the model client's [complete] at most 21 times. *)
Theorem loaded_settings_bound_the_model_calls :
  forall (Number : value -> option number) (config : string -> value)
         (this : runner) (request chatContext : value),
    runnerSettings this
    = SettingsLoader.runtimeSettings (SettingsLoader.loadAgentSettings Number config) ->
    (modelCalls (snd (run this request chatContext)) <= 21)%nat.
Proof.
  intros Number config this request chatContext Hsettings. unfold run.
  destruct (handleRequest_bounded this request chatContext [])
    as (o & ev & -> & Hcalls & _).
  cbn [snd List.app]. rewrite Hsettings in Hcalls.
  cbn [SettingsLoader.runtimeSettings AgentSettings.maxIterations
       SettingsLoader.loadAgentSettings SettingsLoader.maxIterations] in Hcalls.
  pose proof (clampInteger_bounds Number (config "maxIterations") 1 20
                (SettingsLoader.maxIterations SettingsLoader.DEFAULT_SETTINGS)) as Hrange.
  cbn [SettingsLoader.maxIterations SettingsLoader.DEFAULT_SETTINGS] in Hrange, Hcalls.
  lia.
Qed.

(** A configuration that asks for 1000 iterations. *)
Lemma loaded_settings_bound_the_model_calls_witness :
  (modelCalls
     (snd (run (Runner
                  (SettingsLoader.runtimeSettings
                     (SettingsLoader.loadAgentSettings
                        (fun v => match v with JNum n => Some n | _ => None end)
                        (fun key => if String.eqb key "maxIterations"
                                    then JInt 1000 else JUndefined)))
                  Scenario.demoProfile Scenario.demoRegistry
                  (Scenario.scriptedClient []))
             (Scenario.promptRequest "p") Scenario.emptyContext)) <= 21)%nat.
Proof.
  apply (loaded_settings_bound_the_model_calls
           (fun v => match v with JNum n => Some n | _ => None end)
           (fun key => if String.eqb key "maxIterations" then JInt 1000 else JUndefined)).
  reflexivity.
Defined.

End SettingsProperties.

(* ================================================================== *)
(** * Properties of the choice of the model *)
(* ================================================================== *)

Section ModelSelectionProperties.

Import Js Host ActionProtocol ModelSelection PropertySpec.

Lemma getModels_cached (lm : languageModels) (promise : outcome hostValue)
  (preferred : list hostValue) (this : modelClient) :
  modelPromise this = Some promise ->
  snd (getModels lm preferred this) = this
  /\ Forall2 (fun p r => r = if isUsableModel p then Returns p else promise)
       preferred (fst (getModels lm preferred this)).
Proof.
  intros Hcached. induction preferred as [|p rest [IHthis IHresults]];
    [split; [reflexivity | constructor]|].
  cbn [getModels]. unfold getModel. rewrite Hcached.
  assert (Hstep : (if isUsableModel p then (Returns p, this) else (promise, this))
                  = (if isUsableModel p then Returns p else promise, this))
    by (now destruct (isUsableModel p)).
  rewrite Hstep. destruct (getModels lm rest this) as [rs this2].
  cbn [fst snd] in *. split; [exact IHthis|]. now constructor.
Qed.

(** The fallback model is chosen once.  For every sequence of calls of
    [getModel] on a model client, with any preferred models and whatever
    [selectChatModels] does: a preferred model that is usable is returned as
    it is; all the other calls give one and the same outcome, that of the
    first selection, be it a model or an exception (a failed selection is
    kept too); [selectChatModels] is called at most once in the whole
    sequence, and not at all when the client already holds a choice or every
    preferred model is usable.  The settings of the client are not
    changed. *)
Theorem getModel_selects_at_most_once :
  forall (lm : languageModels) (preferred : list hostValue) (this : modelClient),
    exists promise,
      Forall2 (fun p r => r = if isUsableModel p then Returns p else promise)
        preferred (fst (getModels lm preferred this))
      /\ (selections (snd (getModels lm preferred this)) = selections this
          \/ selections (snd (getModels lm preferred this))
             = (selections this ++ [selectorOf this])%list
             /\ modelPromise this = None
             /\ promise = fst (selectModel lm this))
      /\ (forall cached, modelPromise this = Some cached ->
            promise = cached
            /\ selections (snd (getModels lm preferred this)) = selections this)
      /\ (forallb isUsableModel preferred = true ->
          selections (snd (getModels lm preferred this)) = selections this)
      /\ settings (snd (getModels lm preferred this)) = settings this.
Proof.
  intros lm preferred this.
  destruct (modelPromise this) as [cached|] eqn:Hpromise.
  { destruct (getModels_cached lm cached preferred this Hpromise) as [Hthis Hresults].
    exists cached. rewrite Hthis. split; [exact Hresults|]. split; [now left|].
    split; [now intros ? [= <-]|]. now split. }
  induction preferred as [|p rest IH].
  - exists (fst (selectModel lm this)). cbn. split; [constructor|].
    split; [now left|]. split; [discriminate|]. now split.
  - cbn [getModels]. destruct (isUsableModel p) eqn:Husable.
    + assert (Hstep : getModel lm p this = (Returns p, this))
        by (unfold getModel; now rewrite Husable).
      rewrite Hstep.
      destruct IH as (promise & Hresults & Hselections & Hcached & Hall & Hsettings).
      destruct (getModels lm rest this) as [rs this2]. cbn [fst snd] in *.
      exists promise. split; [constructor; [now rewrite Husable | exact Hresults]|].
      split; [exact Hselections|]. split; [exact Hcached|].
      split; [|exact Hsettings]. cbn [forallb]. rewrite Husable. exact Hall.
    + destruct (selectModel lm this) as [chosen this'] eqn:Hselect.
      assert (Hthis' : settings this' = settings this
                       /\ selections this' = (selections this ++ [selectorOf this])%list).
      { unfold selectModel in Hselect.
        destruct (lm _ _) as [[[|first models]|]|e]; injection Hselect as <- <-;
          now split. }
      destruct Hthis' as [Hsettings' Hselections'].
      assert (Hstep : getModel lm p this
                      = (chosen, ModelClient (settings this') (Some chosen)
                                   (selections this')))
        by (unfold getModel; now rewrite Husable, Hpromise, Hselect).
      rewrite Hstep. clear IH Hstep.
      destruct (getModels_cached lm chosen rest
                  (ModelClient (settings this') (Some chosen) (selections this')) eq_refl)
        as [Hthis Hresults].
      destruct (getModels lm rest
                  (ModelClient (settings this') (Some chosen) (selections this')))
        as [rs this2].
      cbn [fst snd] in *. subst this2.
      exists chosen. split; [constructor; [now rewrite Husable | exact Hresults]|].
      cbn [selections settings].
      split; [right; now split|]. split; [discriminate|].
      split; [|exact Hsettings']. cbn [forallb]. rewrite Husable. discriminate.
Qed.

(** Three calls on a fresh client when no model is available: one selection,
    the same failure twice, and the usable model as it is. *)
Lemma getModel_selects_at_most_once_witness :
  getModels (fun _ _ => Returns (Some []))
    [Other JUndefined; ChatModel (JStr "picked"); Other JNull]
    (ModelClient (SelectionSettings (JStr "") (JStr "gpt")) None [])
  = ([Throws (noModelAvailable (JObj [("vendor", JStr "copilot"); ("family", JStr "gpt")]));
      Returns (ChatModel (JStr "picked"));
      Throws (noModelAvailable (JObj [("vendor", JStr "copilot"); ("family", JStr "gpt")]))],
     ModelClient (SelectionSettings (JStr "") (JStr "gpt"))
       (Some (Throws (noModelAvailable
                        (JObj [("vendor", JStr "copilot"); ("family", JStr "gpt")]))))
       [JObj [("vendor", JStr "copilot"); ("family", JStr "gpt")]])
  /\ exists promise,
       Forall2 (fun p r => r = if isUsableModel p then Returns p else promise)
         [Other JUndefined; ChatModel (JStr "picked"); Other JNull]
         (fst (getModels (fun _ _ => Returns (Some []))
                 [Other JUndefined; ChatModel (JStr "picked"); Other JNull]
                 (ModelClient (SelectionSettings (JStr "") (JStr "gpt")) None []))).
Proof.
  split; [reflexivity|].
  destruct (getModel_selects_at_most_once (fun _ _ => Returns (Some []))
              [Other JUndefined; ChatModel (JStr "picked"); Other JNull]
              (ModelClient (SelectionSettings (JStr "") (JStr "gpt")) None []))
    as (promise & Hresults & _).
  now exists promise.
Defined.

End ModelSelectionProperties.

(* ================================================================== *)
(** * Properties of the command tool *)
(* ================================================================== *)

Section RunCommandProperties.

Import Js Host ActionProtocol ToolRegistry RunCommandTool PropertySpec.

Lemma lowerChar_idempotent (c : ascii) : lowerChar (lowerChar c) = lowerChar c.
Proof. destruct c as [[] [] [] [] [] [] [] []]; reflexivity. Qed.

Lemma toLowerCase_idempotent (s : string) : toLowerCase (toLowerCase s) = toLowerCase s.
Proof.
  induction s as [|c s IH]; [reflexivity|].
  cbn [toLowerCase]. now rewrite lowerChar_idempotent, IH.
Qed.

Lemma toLowerCase_append (a b : string) :
  toLowerCase (a ++ b) = toLowerCase a ++ toLowerCase b.
Proof. induction a as [|c a IH]; [reflexivity|]. cbn. now rewrite IH. Qed.

Lemma startsWith_split (p s : string) :
  startsWith p s = true <-> exists tail, s = p ++ tail.
Proof.
  split.
  - revert s. induction p as [|c p IH]; intros s H; [now exists s|].
    destruct s as [|d s]; [discriminate|]. cbn [startsWith] in H.
    apply andb_prop in H as [Hc Hp]. apply Ascii.eqb_eq in Hc as ->.
    destruct (IH s Hp) as [tail ->]. now exists tail.
  - intros [tail ->]. apply startsWith_append.
Qed.

Lemma isAllowlisted_entry (command : string) (allowlist : list value) :
  isAllowlisted command allowlist = true
  <-> exists entry,
        In entry allowlist /\ allowPrefix entry <> ""
        /\ (toLowerCase command = allowPrefix entry
            \/ exists arguments,
                 toLowerCase command = allowPrefix entry ++ " " ++ arguments).
Proof.
  unfold isAllowlisted. rewrite existsb_exists. fold allowPrefix. split.
  - intros (entry & Hin & Hmatch). fold (allowPrefix entry) in Hmatch.
    apply andb_prop in Hmatch as [Hprefix Hmatch].
    exists entry. split; [exact Hin|]. split.
    + intros Hempty. now rewrite Hempty in Hprefix.
    + apply orb_prop in Hmatch as [Hsame|Hstarts].
      * left. now apply String.eqb_eq.
      * right. apply startsWith_split in Hstarts as [tail Htail].
        exists tail. now rewrite Htail, append_assoc.
  - intros (entry & Hin & Hprefix & Hmatch). exists entry. split; [exact Hin|].
    fold (allowPrefix entry).
    apply andb_true_intro. split; [now destruct (allowPrefix entry)|].
    apply orb_true_intro. destruct Hmatch as [Hsame|[arguments Hstarts]].
    + left. now apply String.eqb_eq.
    + right. apply startsWith_split. exists arguments.
      now rewrite Hstarts, append_assoc.
Qed.

(** The allowlist is a list of prefixes.  For every command and allowlist,
    [isAllowlisted] holds exactly when some entry, made a string, trimmed and
    put in lower case, is not empty and the command in lower case is that
    prefix or that prefix followed by a space and anything.  So the test does
    not depend on the case of the command; an entry allows itself and itself
    followed by a space and any arguments, whatever they are; and a list
    whose entries are all blank allows nothing. *)
Theorem isAllowlisted_by_prefix :
  forall (command : string) (allowlist : list value),
    (isAllowlisted command allowlist = true
     <-> exists entry,
           In entry allowlist /\ allowPrefix entry <> ""
           /\ (toLowerCase command = allowPrefix entry
               \/ exists arguments,
                    toLowerCase command = allowPrefix entry ++ " " ++ arguments))
    /\ isAllowlisted (toLowerCase command) allowlist = isAllowlisted command allowlist
    /\ (forall (entry arguments : string),
          In (JStr entry) allowlist -> trim entry <> "" ->
          isAllowlisted (trim entry) allowlist = true
          /\ isAllowlisted (trim entry ++ " " ++ arguments) allowlist = true)
    /\ ((forall entry, In entry allowlist -> allowPrefix entry = "") ->
        isAllowlisted command allowlist = false).
Proof.
  intros command allowlist. split; [apply isAllowlisted_entry|]. split; [|split].
  - unfold isAllowlisted. now rewrite toLowerCase_idempotent.
  - intros entry arguments Hin Hentry.
    assert (Hprefix : allowPrefix (JStr entry) = toLowerCase (trim entry)).
    { unfold allowPrefix, orValue. cbn [truthy toString].
      destruct entry; [reflexivity|]. reflexivity. }
    assert (Hnonempty : allowPrefix (JStr entry) <> "").
    { rewrite Hprefix. destruct (trim entry); [contradiction | discriminate]. }
    split; apply isAllowlisted_entry; exists (JStr entry);
      (split; [exact Hin|]); (split; [exact Hnonempty|]).
    + left. now rewrite Hprefix.
    + right. exists (toLowerCase arguments).
      now rewrite Hprefix, !toLowerCase_append.
  - intros Hblank. destruct (isAllowlisted command allowlist) eqn:Hallowed; [|reflexivity].
    apply isAllowlisted_entry in Hallowed as (entry & Hin & Hprefix & _).
    now rewrite (Hblank entry Hin) in Hprefix.
Qed.

(** The entry [npm test] allows a command line that goes on after it, and
    does not allow [npm testing]. *)
Lemma isAllowlisted_by_prefix_witness :
  isAllowlisted "NPM Test && echo done" [JStr " npm test "] = true
  /\ isAllowlisted "npm testing" [JStr " npm test "] = false.
Proof.
  destruct (isAllowlisted_by_prefix "NPM Test && echo done" [JStr " npm test "])
    as (Hentry & _).
  split; [|reflexivity].
  apply Hentry. exists (JStr " npm test "). split; [now left|].
  split; [discriminate|]. right. now exists "&& echo done".
Defined.

Lemma substring_prefix (n : nat) (s : string) :
  n <= String.length s ->
  exists rest, s = substring 0 n s ++ rest /\ String.length (substring 0 n s) = n.
Proof.
  revert s. induction n as [|n IH]; intros s Hn.
  - exists s. now destruct s.
  - destruct s as [|c s]; [cbn in Hn; lia|]. cbn in Hn.
    destruct (IH s) as (rest & Hrest & Hlength); [lia|].
    exists rest. cbn [substring append String.length].
    now rewrite <- Hrest, Hlength.
Qed.

(** [trimOutput] bounds what a command reports.  For every text: a text of
    at most 12000 characters is returned as it is; a longer one is cut to its
    first 12000 characters, followed by a line that says so; the result is
    never longer than 12023 characters. *)
Theorem trimOutput_bounded :
  forall (text : string),
    (String.length text <= MAX_OUTPUT_CHARS -> trimOutput text = text)
    /\ (MAX_OUTPUT_CHARS < String.length text ->
        exists kept rest,
          text = kept ++ rest /\ String.length kept = MAX_OUTPUT_CHARS
          /\ trimOutput text = kept ++ newline ++ "...output truncated...")
    /\ String.length (trimOutput text) <= MAX_OUTPUT_CHARS + 23.
Proof.
  intros text. unfold trimOutput.
  destruct (Nat.leb_spec (String.length text) MAX_OUTPUT_CHARS) as [Hshort|Hlong].
  - split; [reflexivity|]. split; [lia|lia].
  - destruct (substring_prefix MAX_OUTPUT_CHARS text) as (rest & Hrest & Hlength); [lia|].
    split; [lia|]. split.
    + intros _. exists (substring 0 MAX_OUTPUT_CHARS text), rest. now split.
    + rewrite length_append, Hlength. cbn [String.length append newline]. lia.
Qed.

(** A short text. *)
Lemma trimOutput_bounded_witness : trimOutput "ok" = "ok".
Proof.
  destruct (trimOutput_bounded "ok") as [Hshort _].
  apply Hshort. apply Nat.leb_le. vm_compute. reflexivity.
Defined.

Lemma trimOutput_length (text : string) :
  String.length (trimOutput text) <= MAX_OUTPUT_CHARS + 23.
Proof.
  unfold trimOutput.
  destruct (Nat.leb_spec (String.length text) MAX_OUTPUT_CHARS) as [Hshort|Hlong]; [lia|].
  destruct (substring_prefix MAX_OUTPUT_CHARS text) as (rest & _ & Hlength); [lia|].
  rewrite length_append, Hlength. cbn [String.length append newline]. lia.
Qed.

(** Only allowlisted commands reach the shell.  For every allowlist, shell
    and input object: an input without a command string, or with a blank
    one, makes [execute] throw [run_command requires "command".]; a command
    that is not allowlisted makes it throw [Command is not allowlisted:] with
    the command, whatever the shell would do; so whenever [execute] returns a
    result, the command was allowlisted, and the result has a boolean [ok]
    and an [output] of at most 12023 characters.  Through the registry, the
    refusal comes back as the failure [{ok: false, output: '', error}] with
    that message. *)
Theorem run_command_refuses_unlisted :
  forall (allowedCommands : list value) (host : shell) (input : value),
    (commandInput input = "" ->
     execute allowedCommands host input
     = Throws (ErrorObject "Error" (q "run_command requires 'command'.")))
    /\ (commandInput input <> "" ->
        isAllowlisted (commandInput input) allowedCommands = false ->
        execute allowedCommands host input
        = Throws (ErrorObject "Error"
                    ("Command is not allowlisted: " ++ commandInput input)))
    /\ (forall result,
          execute allowedCommands host input = Returns result ->
          isAllowlisted (commandInput input) allowedCommands = true
          /\ exists ok output,
               get result "ok" = JBool ok /\ get result "output" = JStr output
               /\ String.length output <= MAX_OUTPUT_CHARS + 23)
    /\ (forall (r : registry) (log : list event) (context : context),
          mapGet "run_command" (tools r) = Some (runCommandTool allowedCommands host) ->
          truthy input = true ->
          commandInput input <> "" ->
          isAllowlisted (commandInput input) allowedCommands = false ->
          ToolRegistry.execute r log "run_command" input context
          = Returns (failure (JStr ("Command is not allowlisted: " ++ commandInput input)))).
Proof.
  intros allowedCommands host input.
  assert (Hrefused : commandInput input <> "" ->
                     isAllowlisted (commandInput input) allowedCommands = false ->
                     execute allowedCommands host input
                     = Throws (ErrorObject "Error"
                                 ("Command is not allowlisted: " ++ commandInput input))).
  { intros Hcommand Hunlisted. unfold execute. fold (commandInput input).
    destruct (commandInput input); [contradiction|]. cbn [isEmpty].
    now rewrite Hunlisted. }
  split; [|split; [exact Hrefused|split]].
  - intros Hblank. unfold execute. fold (commandInput input). now rewrite Hblank.
  - intros result. unfold execute. fold (commandInput input).
    destruct (isEmpty (commandInput input)); [discriminate|].
    destruct (isAllowlisted (commandInput input) allowedCommands); [|discriminate].
    cbn [negb]. destruct (workspaceRoot host) as [cwd|e]; [|discriminate].
    destruct (exec host (commandInput input) cwd) as [stdout stderr|stdout stderr message];
      intros [= <-]; (split; [reflexivity|]); eexists _, _;
      (split; [reflexivity|]); (split; [reflexivity|]); apply trimOutput_length.
  - intros r log context Hregistered Hinput Hcommand Hunlisted.
    unfold ToolRegistry.execute. rewrite Hregistered.
    unfold orValue. rewrite Hinput. cbn [toolExecute runCommandTool].
    rewrite (Hrefused Hcommand Hunlisted). cbn [errorMessage].
    reflexivity.
Qed.

(** A command outside the default allowlist, asked of a registry that holds
    the tool. *)
Lemma run_command_refuses_unlisted_witness :
  ToolRegistry.execute
    (Registry Scenario.demoSettings
       [("run_command",
         runCommandTool [JStr "npm test"]
           (Shell (Returns "/w") (fun _ _ => Resolved "never" "")))])
    [] "run_command" (JObj [("command", JStr " rm -rf . ")]) (Context JNull JNull None)
  = Returns (failure (JStr "Command is not allowlisted: rm -rf .")).
Proof.
  destruct (run_command_refuses_unlisted [JStr "npm test"]
              (Shell (Returns "/w") (fun _ _ => Resolved "never" ""))
              (JObj [("command", JStr " rm -rf . ")])) as (_ & _ & _ & Hregistry).
  apply Hregistry; [reflexivity | reflexivity | discriminate | reflexivity].
Defined.

End RunCommandProperties.

(* ================================================================== *)
(** * Properties of the texts shown to the user and to the model *)
(* ================================================================== *)

Section TextProperties.

Import Js Regex Host ActionProtocol ModelClient AgentModeRunner.



Lemma substring_length (n : nat) (s : string) :
  (String.length (substring 0 n s) <= n)%nat.
Proof.
  revert s. induction n as [|n IH]; intros [|c s]; cbn; try lia.
  specialize (IH s). lia.
Qed.

(** [toCompactText] bounds what a reference adds to the prompt.  For every
    text and length: the result is never longer than the length plus the
    three dots; and the description of a reference that is a string is never
    longer than 223 characters. *)
Theorem toCompactText_bounded :
  forall (text : string) (maxLength : nat),
    (String.length (toCompactText text maxLength) <= maxLength + 3)%nat
    /\ (String.length (describeReferenceValue (JStr text)) <= 223)%nat.
Proof.
  assert (Hbound : forall text maxLength,
            (String.length (toCompactText text maxLength) <= maxLength + 3)%nat).
  { intros text maxLength. unfold toCompactText.
    destruct (isEmpty _); [cbn; lia|].
    destruct (Nat.ltb_spec maxLength
                (String.length (trim (replaceAll (plus space) " " text))))
      as [Hlong|Hshort]; [|lia].
    rewrite length_append. cbn [String.length].
    pose proof (substring_length maxLength (trim (replaceAll (plus space) " " text))).
    lia. }
  intros text maxLength. split; [apply Hbound|].
  cbn [describeReferenceValue]. apply (Hbound text 220%nat).
Qed.

Lemma trimmedString_cases (v : value) :
  trimmedString v = "" \/ exists c r, trimmedString v = String c r.
Proof. destruct (trimmedString v) as [|c r]; eauto. Qed.

(** The label of a model is never empty.  For every model value:
    [describeModel] gives a text that is not empty; it is [unknown] for a
    missing model; and for a model without a name and an id that are strings
    and not blank, it begins with [unknown]. *)
Theorem describeModel_never_empty :
  forall (model : value),
    describeModel model <> ""
    /\ (truthy model = false -> describeModel model = "unknown")
    /\ (trimmedString (get model "name") = "" -> trimmedString (get model "id") = "" ->
        startsWith "unknown" (describeModel model) = true).
Proof.
  intros model. unfold describeModel.
  destruct (truthy model); cbn [negb];
    [|split; [discriminate|split; [reflexivity|reflexivity]]].
  set (primary := if negb (isEmpty (trimmedString (get model "name")))
                  then trimmedString (get model "name")
                  else if negb (isEmpty (trimmedString (get model "id")))
                       then trimmedString (get model "id") else "unknown").
  assert (Hprimary : exists c r, primary = String c r).
  { unfold primary.
    destruct (trimmedString (get model "name")) as [|c r]; cbn [isEmpty negb]; [|eauto].
    destruct (trimmedString (get model "id")) as [|c r]; cbn [isEmpty negb]; eauto. }
  destruct Hprimary as (c & r & Hprimary).
  split; [|split; [discriminate|]].
  - rewrite Hprimary. destruct (negb (isEmpty (join "/" _))); discriminate.
  - intros Hname Hid. unfold primary. rewrite Hname, Hid. cbn [isEmpty negb].
    destruct (negb (isEmpty (join "/" _))); reflexivity.
Qed.

(** A model that has only a vendor. *)
Lemma describeModel_never_empty_witness :
  describeModel (JObj [("vendor", JStr "copilot")]) = "unknown (copilot)"
  /\ startsWith "unknown" (describeModel (JObj [("vendor", JStr "copilot")])) = true.
Proof.
  destruct (describeModel_never_empty (JObj [("vendor", JStr "copilot")]))
    as (_ & _ & Hunknown).
  split; [reflexivity | apply Hunknown; reflexivity].
Defined.

End TextProperties.

(* ================================================================== *)
(** * Properties of the text functions of the edit_file tool *)
(* ================================================================== *)

Section EditFileProperties.

Import Js EditFileTool PropertySpec.

Lemma drop_length (n : nat) (s : string) :
  String.length (drop n s) = String.length s - n.
Proof.
  revert s. induction n as [|n IH]; intros [|c s]; cbn; try lia. apply IH.
Qed.

Lemma drop_append (a b : string) : drop (String.length a) (a ++ b) = b.
Proof. induction a as [|c a IH]; [reflexivity | exact IH]. Qed.

Lemma drop_drop (n m : nat) (s : string) : drop (n + m) s = drop m (drop n s).
Proof.
  revert s. induction n as [|n IH]; intros s; [reflexivity|].
  destruct s as [|c s]; cbn [Nat.add drop]; [now destruct m | apply IH].
Qed.

Lemma indexOfFrom_none (search s : string) (index : nat) :
  indexOfFrom search s index = None <-> includes search s = false.
Proof.
  revert index. induction s as [|c s IH]; intros index; cbn [indexOfFrom includes].
  - destruct (startsWith search ""); cbn; split; congruence.
  - destruct (startsWith search (String c s)); cbn [orb]; [split; discriminate|].
    apply IH.
Qed.

(** Where [indexOfFrom] finds the text: at its first occurrence. *)
Lemma indexOfFrom_some (search s : string) :
  forall (index found : nat),
    indexOfFrom search s index = Some found ->
    exists before after,
      s = before ++ search ++ after
      /\ found = index + String.length before
      /\ forall before' after',
           s = before' ++ search ++ after' ->
           String.length before <= String.length before'.
Proof.
  induction s as [|c s IH]; intros index found; cbn [indexOfFrom].
  - destruct (startsWith search "") eqn:Hhere; [|discriminate].
    intros [= <-]. apply startsWith_split in Hhere as [after Hafter].
    exists "", after. split; [exact Hafter|]. split; [cbn; lia|]. cbn. lia.
  - destruct (startsWith search (String c s)) eqn:Hhere.
    + intros [= <-]. apply startsWith_split in Hhere as [after Hafter].
      exists "", after. split; [exact Hafter|]. split; [cbn; lia|]. cbn. lia.
    + intros Hrest. destruct (IH _ _ Hrest) as (before & after & Hs & Hfound & Hfirst).
      exists (String c before), after. split; [cbn; now rewrite <- Hs|].
      split; [cbn; lia|].
      intros [|d before'] after' Hsplit.
      * exfalso. cbn [append] in Hsplit.
        assert (Hprefix : startsWith search (String c s) = true)
          by (apply startsWith_split; now exists after').
        congruence.
      * cbn [append] in Hsplit. injection Hsplit as _ Hsplit.
        specialize (Hfirst before' after' Hsplit). cbn. lia.
Qed.

(** [replaceFirst] replaces the first occurrence and nothing else.  For all
    texts: when [oldString] does not occur in [value], the value is returned
    as it is; when it occurs, the value is some text, [oldString] and the
    rest, where no occurrence begins earlier, and the result is that text,
    [newString] and the rest; replacing a text by itself changes nothing. *)
Theorem replaceFirst_replaces_first_occurrence :
  forall (value oldString newString : string),
    (includes oldString value = false ->
     replaceFirst value oldString newString = value)
    /\ (includes oldString value = true ->
        exists before after,
          value = before ++ oldString ++ after
          /\ replaceFirst value oldString newString = before ++ newString ++ after
          /\ forall before' after',
               value = before' ++ oldString ++ after' ->
               String.length before <= String.length before')
    /\ replaceFirst value oldString oldString = value.
Proof.
  intros value oldString newString.
  assert (Hfound : forall replacement index,
            indexOfFrom oldString value 0 = Some index ->
            exists before after,
              value = before ++ oldString ++ after
              /\ substring 0 index value ++ replacement
                   ++ drop (index + String.length oldString) value
                 = before ++ replacement ++ after
              /\ forall before' after',
                   value = before' ++ oldString ++ after' ->
                   String.length before <= String.length before').
  { intros replacement index Hindex.
    destruct (indexOfFrom_some _ _ _ _ Hindex) as (before & after & Hvalue & -> & Hfirst).
    exists before, after. split; [exact Hvalue|]. split; [|exact Hfirst].
    cbn [Nat.add]. rewrite Hvalue at 1 2.
    rewrite substring_all, drop_drop, drop_append, drop_append. reflexivity. }
  unfold replaceFirst, indexOf. cbn [drop]. split; [|split].
  - intros Habsent. apply (indexOfFrom_none oldString value 0) in Habsent.
    now rewrite Habsent.
  - intros Hpresent.
    destruct (indexOfFrom oldString value 0) as [index|] eqn:Hindex.
    + exact (Hfound newString index eq_refl).
    + apply indexOfFrom_none in Hindex. congruence.
  - destruct (indexOfFrom oldString value 0) as [index|] eqn:Hindex; [|reflexivity].
    destruct (Hfound oldString index eq_refl) as (before & after & Hvalue & -> & _).
    now rewrite Hvalue.
Qed.

(** The first of two occurrences. *)
Lemma replaceFirst_replaces_first_occurrence_witness :
  replaceFirst "let a = a + 1" "a" "total" = "let total = a + 1"
  /\ exists before after,
       "let a = a + 1" = before ++ "a" ++ after
       /\ replaceFirst "let a = a + 1" "a" "total" = before ++ "total" ++ after.
Proof.
  destruct (replaceFirst_replaces_first_occurrence "let a = a + 1" "a" "total")
    as (_ & Hpresent & _).
  split; [reflexivity|].
  destruct (Hpresent eq_refl) as (before & after & Hvalue & Hresult & _).
  now exists before, after.
Defined.

Lemma countFrom_counts (value search : string) (fuel : nat) :
  search <> "" ->
  forall (count startIndex : nat),
    startIndex <= String.length value ->
    String.length value - startIndex < fuel ->
    exists n,
      countFrom fuel value search count startIndex = Some (count + n)
      /\ occurrences search (drop startIndex value) n
      /\ n * String.length search <= String.length value - startIndex.
Proof.
  intros Hsearch. induction fuel as [|fuel IH]; intros count startIndex Hstart Hfuel;
    [lia|].
  cbn [countFrom]. unfold indexOf.
  destruct (indexOfFrom search (drop startIndex value) startIndex) as [index|] eqn:Hindex.
  - destruct (indexOfFrom_some _ _ _ _ Hindex) as (before & after & Hrest & -> & Hfirst).
    assert (Hlength : String.length value - startIndex
                      = String.length before + (String.length search + String.length after)).
    { rewrite <- drop_length, Hrest, !length_append. reflexivity. }
    assert (Hpositive : 1 <= String.length search)
      by (destruct search; [contradiction | cbn; lia]).
    assert (Hafter : drop (startIndex + String.length before + String.length search) value
                     = after).
    { rewrite <- Nat.add_assoc, drop_drop, Hrest.
      rewrite drop_drop, drop_append, drop_append. reflexivity. }
    destruct (IH (count + 1) (startIndex + String.length before + String.length search))
      as (n & Hcount & Hoccurrences & Hbound); [lia | lia |].
    exists (S n). split; [rewrite Hcount; f_equal; lia|]. split.
    + rewrite Hrest. apply FirstOccurrence.
      * intros before' after' Hsplit. apply (Hfirst before' after').
        now rewrite Hrest.
      * now rewrite <- Hafter.
    + cbn [Nat.mul]. lia.
  - exists 0. split; [f_equal; lia|]. split; [|lia].
    apply NoOccurrence. now apply indexOfFrom_none in Hindex.
Qed.

(** [countOccurrences] terminates and counts the occurrences from left to
    right without overlap.  For every value and search text, the loop ends
    and gives a number [n]: 0 for an empty search text; otherwise the number
    of occurrences found by taking the first one and going on after its end;
    so [n] is 0 exactly when the search text is empty or does not occur, and
    [n] occurrences fit in the value. *)
Theorem countOccurrences_counts :
  forall (value search : string),
    exists n,
      countOccurrences value search = Some n
      /\ (search <> "" -> occurrences search value n)
      /\ (n = 0 <-> search = "" \/ includes search value = false)
      /\ n * String.length search <= String.length value.
Proof.
  intros value search. unfold countOccurrences.
  destruct search as [|c search]; cbn [isEmpty].
  - exists 0. split; [reflexivity|]. split; [congruence|]. split; [|lia].
    split; [now left | reflexivity].
  - destruct (countFrom_counts value (String c search) (S (String.length value)))
      with (count := 0) (startIndex := 0) as (n & Hcount & Hoccurrences & Hbound);
      [discriminate | lia | lia |].
    cbn [drop Nat.add] in *. rewrite Nat.sub_0_r in Hbound.
    exists n. split; [exact Hcount|]. split; [now intros _|]. split; [|exact Hbound].
    split.
    + intros ->. right. inversion Hoccurrences; assumption.
    + intros [Hempty|Habsent]; [discriminate|].
      inversion Hoccurrences as [|before after m Hfirst Hrest Hvalue]; [reflexivity|].
      exfalso. subst value.
      assert (Hpresent : includes (String c search) (before ++ String c search ++ after)
                         = true)
        by (apply includes_append_l, includes_append_r, includes_self).
      congruence.
Qed.

(** Occurrences that would overlap are counted once. *)
Lemma countOccurrences_counts_witness :
  countOccurrences "aaaa b aa" "aa" = Some 3.
Proof.
  destruct (countOccurrences_counts "aaaa b aa" "aa") as (n & Hcount & _).
  rewrite Hcount. f_equal.
  assert (Hsame : Some n = Some 3) by (rewrite <- Hcount; reflexivity).
  now injection Hsame.
Defined.

End EditFileProperties.
